(** * BloomWatch: bloom detection and phenology services

    A shallow embedding of [backend/services/bloom_detection_service.py]
    and [backend/services/phenology_service.py], and the properties of
    the event merger, the detectors, the pre-processing, the phenology
    phases, the quality score and the forecaster.

    Conventions of the embedding.
    - A Python [float] is a rational number ([Q]): comparisons, [max],
      [min], sums and quotients are exact.  [NaN] is [None] in an
      [option Q].
    - A calendar date is the triple year, month, day.  The text
      ['%Y-%m-%d'] of a date has fixed-width, zero-padded fields, so the
      order of Python strings on such texts is the lexicographic order on
      the triple ([Date.ltb]); [datetime.strptime] followed by a
      difference and [.days] is the difference of proleptic Gregorian
      ordinals ([Date.toordinal]).
    - A [pandas.DataFrame] is the list of its rows, in positional order;
      every row carries its index label, because the code mixes labels
      ([idxmax], [.index]) with positions ([iloc]).
    - A [try: ... except Exception: return X] is a computation in
      [option]: [None] is a raised exception, and the handler supplies
      [X].
    - Library code is modelled by what it computes: [interpolate],
      [savgol_filter], [_local_maxima_1d], [idxmax], [argmax], [std].  The
      square root, the selections of [find_peaks] by distance and by
      prominence, [round] and the random generator are parameters. *)

From Stdlib Require Import ZArith QArith Qminmax Qround Qabs List Lia Lqa
  Bool Sorted Permutation.
From Stdlib Require String.
Import ListNotations.

Local Open Scope Z_scope.

(** ** Calendar dates *)

Module Date.

Record date : Set := mkDate { year : Z; month : Z; day : Z }.

(** [datetime._is_leap] *)
Definition is_leap (y : Z) : bool :=
  (y mod 4 =? 0) && (negb (y mod 100 =? 0) || (y mod 400 =? 0)).

(** [datetime._days_in_month] *)
Definition days_in_month (y m : Z) : Z :=
  if m =? 2 then (if is_leap y then 29 else 28)
  else if (m =? 4) || (m =? 6) || (m =? 9) || (m =? 11) then 30
  else 31.

(** [datetime._DAYS_BEFORE_MONTH] *)
Definition DAYS_BEFORE_MONTH (m : Z) : Z :=
  match m with
  | 1 => 0 | 2 => 31 | 3 => 59 | 4 => 90 | 5 => 120 | 6 => 151
  | 7 => 181 | 8 => 212 | 9 => 243 | 10 => 273 | 11 => 304 | 12 => 334
  | _ => 0
  end.

(** [datetime._days_before_month] *)
Definition days_before_month (y m : Z) : Z :=
  DAYS_BEFORE_MONTH m + (if (2 <? m) && is_leap y then 1 else 0).

(** [datetime._days_before_year] *)
Definition days_before_year (y : Z) : Z :=
  let y' := y - 1 in y' * 365 + y' / 4 - y' / 100 + y' / 400.

(** [date.toordinal]: 0001-01-01 is day 1. *)
Definition toordinal (d : date) : Z :=
  days_before_year (year d) + days_before_month (year d) (month d) + day d.

(** The dates [strftime('%Y-%m-%d')] prints on ten characters and
    [strptime] reads back. *)
Definition validb (d : date) : bool :=
  (1 <=? year d) && (year d <=? 9999) &&
  (1 <=? month d) && (month d <=? 12) &&
  (1 <=? day d) && (day d <=? days_in_month (year d) (month d)).

Definition valid (d : date) : Prop := validb d = true.

(** Order of the texts ['YYYY-MM-DD']: [a < b] on Python strings. *)
Definition ltb (a b : date) : bool :=
  (year a <? year b) ||
  ((year a =? year b) &&
   ((month a <? month b) ||
    ((month a =? month b) && (day a <? day b)))).

Definition leb (a b : date) : bool := negb (ltb b a).

(** [(a - b).days] for two midnights. *)
Definition days_between (a b : date) : Z := toordinal a - toordinal b.

(** [d + timedelta(days=1)] *)
Definition next_day (d : date) : date :=
  if day d <? days_in_month (year d) (month d)
  then mkDate (year d) (month d) (day d + 1)
  else if month d <? 12
       then mkDate (year d) (month d + 1) 1
       else mkDate (year d + 1) 1 1.

(** [d - timedelta(days=1)] *)
Definition previous_day (d : date) : date :=
  if 1 <? day d then mkDate (year d) (month d) (day d - 1)
  else if 1 <? month d
       then mkDate (year d) (month d - 1)
              (days_in_month (year d) (month d - 1))
       else mkDate (year d - 1) 12 31.

(** [d + timedelta(days=n)] for a natural number [n]. *)
Fixpoint add_days (d : date) (n : nat) : date :=
  match n with
  | O => d
  | S n' => add_days (next_day d) n'
  end.

Fixpoint subtract_days (d : date) (n : nat) : date :=
  match n with
  | O => d
  | S n' => subtract_days (previous_day d) n'
  end.

(** [d + timedelta(days=n)] in the calendar, which has no last year:
    Python's [datetime] raises [OverflowError] when the sum is not a day of
    the years 1 to 9999, so that the sum is the one of the code where it is
    [valid]. *)
Definition plus_days (d : date) (n : Z) : date :=
  if n <? 0 then subtract_days d (Z.to_nat (- n)) else add_days d (Z.to_nat n).

(** A day of the calendar, in any year. *)
Definition calendar (d : date) : Prop :=
  1 <= month d <= 12 /\
  1 <= day d <= days_in_month (year d) (month d).

End Date.

(** ** Python values *)

Module Py.

(** [a < b] and [a <= b] on floats. *)
Definition Qltb (a b : Q) : bool :=
  (Qnum a * QDen b <? Qnum b * QDen a)%Z.

Definition Qleb (a b : Q) : bool := Qle_bool a b.

(** The builtin [max(a, b)]: [b] when [b > a], otherwise [a]. *)
Definition max (a b : Q) : Q := if Qltb a b then b else a.

(** The builtin [min(a, b)]: [b] when [b < a], otherwise [a]. *)
Definition min (a b : Q) : Q := if Qltb b a then b else a.

(** [max(a, b)] on two date texts. *)
Definition max_str (a b : Date.date) : Date.date :=
  if Date.ltb a b then b else a.

(** [datetime.strptime(s, '%Y-%m-%d')]: the midnight of the day, as its
    ordinal; raises [ValueError] on a text that is not a date. *)
Definition strptime (s : Date.date) : option Z :=
  if Date.validb s then Some (Date.toordinal s) else None.

(** Sequencing of statements that may raise. *)
Definition bind {A B : Type} (m : option A) (k : A -> option B) : option B :=
  match m with
  | Some a => k a
  | None => None
  end.

(** [try: body except Exception: return handler] *)
Definition try_except {A : Type} (body : option A) (handler : A) : A :=
  match body with
  | Some a => a
  | None => handler
  end.

End Py.

Notation "'do' x <- m ;; k" := (Py.bind m (fun x => k))
  (at level 10, x name, m at level 100, k at level 200).

(** ** Bloom events: [BloomDetectionService._merge_bloom_events] *)

Module Bloom.

Inductive method : Set := threshold | peak | change_point.

(** The dictionary a detector emits for one bloom. *)
Record t : Set := mkBloom {
  start_date : Date.date;
  peak_date : Date.date;
  end_date : Date.date;
  duration_days : Z;
  peak_ndvi : Q;
  peak_evi : Q;
  bloom_intensity : Q;
  confidence_score : Q;
  detection_method : method
}.

(** [BloomDetectionService.__init__] *)
Definition ndvi_bloom_threshold : Q := 4 # 10.
Definition evi_bloom_threshold : Q := 3 # 10.
Definition min_bloom_duration : Z := 14.
Definition max_bloom_duration : Z := 120.

(** Assignments [current_bloom[key] = v]. *)
Definition set_end_date (b : t) (v : Date.date) : t :=
  mkBloom (start_date b) (peak_date b) v (duration_days b) (peak_ndvi b)
    (peak_evi b) (bloom_intensity b) (confidence_score b) (detection_method b).

Definition set_duration_days (b : t) (v : Z) : t :=
  mkBloom (start_date b) (peak_date b) (end_date b) v (peak_ndvi b)
    (peak_evi b) (bloom_intensity b) (confidence_score b) (detection_method b).

Definition set_peak_ndvi (b : t) (v : Q) : t :=
  mkBloom (start_date b) (peak_date b) (end_date b) (duration_days b) v
    (peak_evi b) (bloom_intensity b) (confidence_score b) (detection_method b).

Definition set_peak_evi (b : t) (v : Q) : t :=
  mkBloom (start_date b) (peak_date b) (end_date b) (duration_days b)
    (peak_ndvi b) v (bloom_intensity b) (confidence_score b)
    (detection_method b).

Definition set_bloom_intensity (b : t) (v : Q) : t :=
  mkBloom (start_date b) (peak_date b) (end_date b) (duration_days b)
    (peak_ndvi b) (peak_evi b) v (confidence_score b) (detection_method b).

Definition set_confidence_score (b : t) (v : Q) : t :=
  mkBloom (start_date b) (peak_date b) (end_date b) (duration_days b)
    (peak_ndvi b) (peak_evi b) (bloom_intensity b) v (detection_method b).

(** [sorted(bloom_events, key=lambda x: x['start_date'])]: a stable sort on
    the text of the start date. *)
Fixpoint insert_by_start (x : t) (l : list t) : list t :=
  match l with
  | [] => [x]
  | y :: l' =>
      if Date.leb (start_date x) (start_date y) then x :: l
      else y :: insert_by_start x l'
  end.

Definition sorted (bloom_events : list t) : list t :=
  fold_right insert_by_start [] bloom_events.

(** The five assignments of the "Merge blooms" branch. *)
Definition merge_fields (current_bloom bloom : t) : t :=
  let c := set_end_date current_bloom
             (Py.max_str (end_date current_bloom) (end_date bloom)) in
  let c := set_peak_ndvi c (Py.max (peak_ndvi c) (peak_ndvi bloom)) in
  let c := set_peak_evi c (Py.max (peak_evi c) (peak_evi bloom)) in
  let c := set_bloom_intensity c
             (Py.max (bloom_intensity c) (bloom_intensity bloom)) in
  set_confidence_score c
    (Py.max (confidence_score c) (confidence_score bloom)).

(** The "Update duration" statements. *)
Definition update_duration (current_bloom : t) : option t :=
  do start <- Py.strptime (start_date current_bloom) ;;
  do end_ <- Py.strptime (end_date current_bloom) ;;
  Some (set_duration_days current_bloom (end_ - start)).

(** The body of [for bloom in sorted_blooms[1:]], and the final
    [merged.append(current_bloom)]. *)
Fixpoint merge_loop (merged : list t) (current_bloom : t)
    (rest : list t) : option (list t) :=
  match rest with
  | [] => Some (merged ++ [current_bloom])
  | bloom :: rest' =>
      do current_end <- Py.strptime (end_date current_bloom) ;;
      do bloom_start <- Py.strptime (start_date bloom) ;;
      if bloom_start - current_end <=? 7 then
        do current_bloom' <-
          update_duration (merge_fields current_bloom bloom) ;;
        merge_loop merged current_bloom' rest'
      else
        merge_loop (merged ++ [current_bloom]) bloom rest'
  end.

(** The list [merged] at the end of the scan. *)
Definition merge_scan (bloom_events : list t) : option (list t) :=
  match sorted bloom_events with
  | [] => Some []
  | first :: rest => merge_loop [] first rest
  end.

Definition merge_body (bloom_events : list t) : option (list t) :=
  do merged <- merge_scan bloom_events ;;
  Some (filter (fun bloom => min_bloom_duration <=? duration_days bloom)
          merged).

Definition _merge_bloom_events (bloom_events : list t) : list t :=
  Py.try_except (merge_body bloom_events) bloom_events.

(** The same scan, recording next to every event the candidates that were
    merged into it, in the order of the sorted list.  Erasing the record
    gives [merge_loop] back ([MergeFacts.merge_loop_groups_erase]). *)
Fixpoint merge_loop_groups (merged : list (t * list t))
    (current_bloom : t) (group : list t) (rest : list t)
    : option (list (t * list t)) :=
  match rest with
  | [] => Some (merged ++ [(current_bloom, group)])
  | bloom :: rest' =>
      do current_end <- Py.strptime (end_date current_bloom) ;;
      do bloom_start <- Py.strptime (start_date bloom) ;;
      if bloom_start - current_end <=? 7 then
        do current_bloom' <-
          update_duration (merge_fields current_bloom bloom) ;;
        merge_loop_groups merged current_bloom' (group ++ [bloom]) rest'
      else
        merge_loop_groups (merged ++ [(current_bloom, group)])
          bloom [bloom] rest'
  end.

Definition merge_groups (bloom_events : list t)
    : option (list (t * list t)) :=
  match sorted bloom_events with
  | [] => Some []
  | first :: rest => merge_loop_groups [] first [first] rest
  end.

(** A candidate whose three dates are dates, as [strftime] prints them. *)
Definition well_formed (b : t) : Prop :=
  Date.valid (start_date b) /\ Date.valid (peak_date b) /\
  Date.valid (end_date b).

(** Ascending order of the start-date texts. *)
Definition le_start (a b : t) : Prop :=
  Date.leb (start_date a) (start_date b) = true.

(** The event after merging [b] into [c], when no statement raises. *)
Definition merged_with (c b : t) : t :=
  let c' := merge_fields c b in
  set_duration_days c'
    (Date.toordinal (end_date c') - Date.toordinal (start_date c')).

(** [f e] is the largest [f] of the candidates [g]. *)
Definition is_max (f : t -> Q) (e : t) (g : list t) : Prop :=
  In (f e) (map f g) /\ Forall (fun c => (f c <= f e)%Q) g.

(** What an event keeps of the candidates [g] merged into it: the start
    date, peak date and method of the first one, the largest of the four
    scores. *)
Definition summarises (e : t) (g : list t) : Prop :=
  exists c0 g',
    g = c0 :: g' /\
    start_date e = start_date c0 /\
    peak_date e = peak_date c0 /\
    detection_method e = detection_method c0 /\
    is_max peak_ndvi e g /\ is_max peak_evi e g /\
    is_max bloom_intensity e g /\ is_max confidence_score e g.

(** Two candidates of 100 days each, two days apart. *)
Definition long_first : t :=
  mkBloom (Date.mkDate 2024 1 1) (Date.mkDate 2024 2 15)
    (Date.mkDate 2024 4 10) 100 (6 # 10) (5 # 10) (55 # 100) (7 # 10)
    threshold.

Definition long_second : t :=
  mkBloom (Date.mkDate 2024 4 12) (Date.mkDate 2024 5 30)
    (Date.mkDate 2024 7 21) 100 (8 # 10) (6 # 10) (7 # 10) (8 # 10)
    peak.

Definition two_long_candidates : list t := [long_first; long_second].

(** Two candidates three weeks apart, the later one first. *)
Definition winter_bloom : t :=
  mkBloom (Date.mkDate 2024 1 1) (Date.mkDate 2024 1 20)
    (Date.mkDate 2024 2 10) 40 (6 # 10) (5 # 10) (55 # 100) (7 # 10)
    threshold.

Definition spring_bloom : t :=
  mkBloom (Date.mkDate 2024 3 1) (Date.mkDate 2024 3 20)
    (Date.mkDate 2024 4 10) 40 (8 # 10) (6 # 10) (7 # 10) (8 # 10)
    peak.

Definition separate_candidates : list t := [spring_bloom; winter_bloom].

Definition summarised (p : t * list t) : Prop := summarises (fst p) (snd p).

(** Two events in output order: start dates ascending, and the later one
    starts more than seven days after the earlier one ends. *)
Definition apart (a b : t) : Prop :=
  le_start a b /\ 7 < Date.days_between (start_date b) (end_date a).

(** What an event keeps of the end dates of the candidates [g] merged into
    it: the latest one; its duration is recomputed when a merge took place. *)
Definition spans (e : t) (g : list t) : Prop :=
  In (end_date e) (map end_date g) /\
  Forall (fun c => Date.leb (end_date c) (end_date e) = true) g /\
  (g = [e] \/
   ((2 <= length g)%nat /\
    duration_days e =
    Date.toordinal (end_date e) - Date.toordinal (start_date e))).


End Bloom.

(** ** Data frames *)

Module Frame.

(** One entry of [vegetation_data['time_series']]: a date and two indices,
    each possibly missing. *)
Record observation : Set := mkObservation {
  obs_date : Date.date;
  obs_ndvi : option Q;
  obs_evi : option Q
}.

(** A row of the frame before cleaning: its index label and its cells,
    [None] for [NaN]. *)
Record raw : Set := mkRaw {
  raw_label : Z;
  raw_date : Date.date;
  raw_ndvi : option Q;
  raw_evi : option Q
}.

(** A row of a frame in which no cell is missing. *)
Record clean : Set := mkClean {
  clean_label : Z;
  clean_date : Date.date;
  clean_ndvi : Q;
  clean_evi : Q
}.

(** A row of the frame the detectors read. *)
Record row : Set := mkRow {
  label : Z;
  date : Date.date;
  ndvi : Q;
  evi : Q;
  ndvi_smooth : Q;
  evi_smooth : Q
}.

(** [len(df)] *)
Definition len {A : Type} (l : list A) : Z := Z.of_nat (length l).

(** The sum of a column. *)
Definition sumQ (l : list Q) : Q := fold_right Qplus 0%Q l.

(** [range(n)] *)
Definition range (n : Z) : list Z :=
  map Z.of_nat (seq 0 (Z.to_nat n)).

(** [df.iloc[i]]: by position, from the end when [i] is negative; raises
    [IndexError] out of bounds. *)
Definition iloc {A : Type} (df : list A) (i : Z) : option A :=
  if i <? 0 then
    (if len df + i <? 0 then None else nth_error df (Z.to_nat (len df + i)))
  else nth_error df (Z.to_nat i).

(** [df.iloc[a:b]] for [0 <= a]: a slice never raises. *)
Definition iloc_slice {A : Type} (df : list A) (a b : Z) : list A :=
  firstn (Z.to_nat (b - a)) (skipn (Z.to_nat a) df).

(** [sort_values('date')]: the rows in ascending order of date.  (pandas
    leaves the order of rows with equal dates to the sorting algorithm; the
    insertion order is kept here.) *)
Fixpoint insert_by_date (x : observation) (l : list observation)
    : list observation :=
  match l with
  | [] => [x]
  | y :: l' =>
      if Date.leb (obs_date x) (obs_date y) then x :: l
      else y :: insert_by_date x l'
  end.

Definition sort_values (l : list observation) : list observation :=
  fold_right insert_by_date [] l.

(** [reset_index(drop=True)]: labels 0, 1, 2, ... *)
Definition reset_index (l : list observation) : list raw :=
  map (fun p => mkRaw (fst p) (obs_date (snd p)) (obs_ndvi (snd p))
                  (obs_evi (snd p)))
    (combine (range (len l)) l).

(** [pd.DataFrame(time_series)], [sort_values('date')],
    [reset_index(drop=True)]. *)
Definition DataFrame (time_series : list observation) : list raw :=
  reset_index (sort_values time_series).

Section Timestamps.

(** The dates pandas turns into time stamps.  They depend on its version:
    with time stamps in nanoseconds (before pandas 3) they are the days
    from 1677-09-22 to 2262-04-11. *)
Variable holds : Date.date -> bool.

(** [df['date'] = pd.to_datetime(df['date'])]: raises on a text it does not
    turn into a time stamp. *)
Definition to_datetime (time_series : list observation) : option unit :=
  if forallb (fun o => holds (obs_date o)) time_series
  then Some tt else None.

End Timestamps.

(** The days held at nanosecond resolution. *)
Definition nanoseconds (d : Date.date) : bool :=
  Date.validb d &&
  (Date.toordinal (Date.mkDate 1677 9 22) <=? Date.toordinal d) &&
  (Date.toordinal d <=? Date.toordinal (Date.mkDate 2262 4 11)).

(** A range of [periods] days after [last_date] that ends within the days
    held at nanosecond resolution. *)
Definition nanoseconds_range (last_date : Date.date) (periods : Z) : bool :=
  nanoseconds last_date &&
  (Date.toordinal last_date + 1 + Z.max 0 periods
   <=? Date.toordinal (Date.mkDate 2262 4 11)).

End Frame.

(** ** Pre-processing: [_clean_time_series], [_smooth_time_series] *)

Module Preprocess.
Import Frame.

(** [df.loc[df[c] < -1, c] = nan; df.loc[df[c] > 1, c] = nan] *)
Definition mask_range (v : option Q) : option Q :=
  match v with
  | Some x =>
      if Py.Qltb x (-1) then None
      else if Py.Qltb 1 x then None
      else Some x
  | None => None
  end.

(** The next valid value of a column, with its distance (1 for the head). *)
Fixpoint next_valid (l : list (option Q)) : option (Z * Q) :=
  match l with
  | [] => None
  | Some w :: _ => Some (1, w)
  | None :: l' =>
      match next_valid l' with
      | Some (j, w) => Some (j + 1, w)
      | None => None
      end
  end.

(** [Series.interpolate(method='linear', limit=limit)], forward: in a run of
    missing values the first [limit] are filled, on the straight line between
    the valid neighbours of the run (the positions count as equally spaced),
    or with the last valid value when the run ends the column; values before
    the first valid one stay missing.  [prev] is the last valid value and
    the number of missing values met since. *)
Fixpoint interpolate_from (limit : Z) (prev : option (Q * Z))
    (l : list (option Q)) : list (option Q) :=
  match l with
  | [] => []
  | Some v :: l' => Some v :: interpolate_from limit (Some (v, 0)) l'
  | None :: l' =>
      match prev with
      | None => None :: interpolate_from limit None l'
      | Some (v, k) =>
          let k' := k + 1 in
          (if k' <=? limit then
             Some (match next_valid l' with
                   | Some (j, w) =>
                       (v + (w - v) * inject_Z k' / inject_Z (k' + j))%Q
                   | None => v
                   end)
           else None)
          :: interpolate_from limit (Some (v, k')) l'
      end
  end.

Definition interpolate (limit : Z) (l : list (option Q)) : list (option Q) :=
  interpolate_from limit None l.

(** [df['ndvi'] = ...; df['evi'] = ...] *)
Definition assign (df : list raw) (ndvi evi : list (option Q)) : list raw :=
  map (fun p => mkRaw (raw_label (fst p)) (raw_date (fst p))
                  (fst (snd p)) (snd (snd p)))
    (combine df (combine ndvi evi)).

(** The dtype [pd.DataFrame] gives a column of numbers and [None]:
    [float64] when a cell holds a number ([None] is then [NaN]), [object]
    when no cell does. *)
Definition float64 (column : list (option Q)) : bool :=
  existsb (fun v => match v with Some _ => true | None => false end) column.

(** Both cells of the row are present. *)
Definition present (r : raw) : bool :=
  match raw_ndvi r, raw_evi r with
  | Some _, Some _ => true
  | _, _ => false
  end.

(** [df.dropna(subset=['ndvi', 'evi'])]: the rows keep their labels. *)
Definition dropna (df : list raw) : list raw := filter present df.

(** [_clean_time_series(df)].  The statements [df.loc[...] = np.nan] and
    the assignments of the interpolated columns change [df] in place;
    [interpolate] raises [TypeError] on a column of dtype [object] (pandas
    3), and the [except] clause returns [df] as it is at that point, with
    its missing values. *)
Definition _clean_time_series (df : list raw) : list raw :=
  let ndvi := map mask_range (map raw_ndvi df) in
  let evi := map mask_range (map raw_evi df) in
  if float64 (map raw_ndvi df) then
    let ndvi := interpolate 3 ndvi in
    if float64 (map raw_evi df) then
      dropna (assign df ndvi (interpolate 3 evi))
    else assign df ndvi evi
  else assign df ndvi evi.

(** The rows of a frame in which both cells are present, as rows of
    numbers.  These are all the rows of a frame [_clean_time_series] ran
    through ([PreprocessFacts.clean_ran]); a frame its [except] clause
    returned has a column without a number, and no such row
    ([PreprocessFacts.clean_returned]). *)
Definition numbers (df : list raw) : list clean :=
  flat_map (fun r =>
              match raw_ndvi r, raw_evi r with
              | Some n, Some e => [mkClean (raw_label r) (raw_date r) n e]
              | _, _ => []
              end) df.

(** The frame after the two interpolations, whatever the dtypes. *)
Definition interpolated (df : list raw) : list raw :=
  assign df (interpolate 3 (map mask_range (map raw_ndvi df)))
    (interpolate 3 (map mask_range (map raw_evi df))).

(** *** [scipy.signal.savgol_filter(x, window_length, 3)]

    With the default [mode='interp'], the value at a position is the value
    there of the cubic fitted by least squares to a window of
    [window_length] samples: the window centred at the position, or the
    first (last) window for the first (last) [window_length // 2]
    positions.  The fit is written with the polynomials 1, t, t^2 - c,
    t^3 - c' t, which are orthogonal on the offsets -h .. h. *)

Definition dot (xs ys : list Q) : Q :=
  sumQ (map (fun p => (fst p * snd p)%Q) (combine xs ys)).

Definition offsets (h : Z) : list Z := map (fun i => i - h) (range (2 * h + 1)).

Definition power_sum (h : Z) (e : Z) : Q :=
  sumQ (map (fun t => inject_Z (Z.pow t e)) (offsets h)).

Definition basis (h : Z) (k : nat) (t : Z) : Q :=
  let x := inject_Z t in
  match k with
  | O => 1
  | 1%nat => x
  | 2%nat => x * x - power_sum h 2 / power_sum h 0
  | _ => x * x * x - (power_sum h 4 / power_sum h 2) * x
  end%Q.

(** The least-squares cubic through [window] (offsets -h .. h), at offset
    [p]. *)
Definition polyfit_at (window : list Q) (h p : Z) : Q :=
  Qred (sumQ (map (fun k =>
                     let b := map (basis h k) (offsets h) in
                     (dot window b * basis h k p / dot b b)%Q)
                [0; 1; 2; 3]%nat)).

Definition savgol_filter (x : list Q) (window_length : Z) : list Q :=
  let n := len x in
  let h := window_length / 2 in
  map (fun i =>
         let s := Z.max 0 (Z.min (i - h) (n - window_length)) in
         polyfit_at (iloc_slice x s (s + window_length)) h (i - s - h))
    (range n).

(** The new columns next to the old ones. *)
Definition with_smooth (df : list clean) (ndvi_s evi_s : list Q) : list row :=
  map (fun p => mkRow (clean_label (fst p)) (clean_date (fst p))
                  (clean_ndvi (fst p)) (clean_evi (fst p))
                  (fst (snd p)) (snd (snd p)))
    (combine df (combine ndvi_s evi_s)).

Definition window_length_of (n : Z) : Z :=
  let window_length := Z.min 11 (n / 3) in
  if window_length mod 2 =? 0 then window_length + 1 else window_length.

Definition _smooth_time_series (df : list clean) : list row :=
  let window_length := window_length_of (len df) in
  if 5 <=? window_length then
    with_smooth df (savgol_filter (map clean_ndvi df) window_length)
      (savgol_filter (map clean_evi df) window_length)
  else
    with_smooth df (map clean_ndvi df) (map clean_evi df).

(** The first statements of [detect_bloom_events] and of
    [forecast_bloom_events]: frame, sort, clean, smooth, with the cleaned
    frame read as rows of numbers.  For a frame the [except] clause of
    [_clean_time_series] returned there is no such row; what the callers do
    with that frame is left open in [Events] and [Forecast]. *)
Definition preprocess (time_series : list observation) : list row :=
  _smooth_time_series (numbers (_clean_time_series (DataFrame time_series))).

(** A row of the smoothed frame without its smoothed columns. *)
Definition unsmoothed (r : row) : raw :=
  mkRaw (label r) (date r) (Some (ndvi r)) (Some (evi r)).

(** Two observations with both indices missing. *)
Definition all_missing : list observation :=
  [ mkObservation (Date.mkDate 2024 1 1) None None;
    mkObservation (Date.mkDate 2024 1 17) None None ].

(** The physical range of an index. *)
Definition in_range (x : Q) : Prop := (-1 <= x <= 1)%Q.

Definition opt_in_range (v : option Q) : Prop :=
  match v with
  | Some x => in_range x
  | None => True
  end.

Definition date_le (a b : Date.date) : Prop := Date.leb a b = true.

(** Observations every [step] days from [start]. *)
Fixpoint every (step : nat) (start : Date.date) (values : list (Q * Q))
    : list observation :=
  match values with
  | [] => []
  | (n, e) :: values' =>
      mkObservation start (Some n) (Some e)
      :: every step (Date.add_days start step) values'
  end.

(** Two observations of the same day. *)
Definition repeated_day : list observation :=
  [ mkObservation (Date.mkDate 2024 1 1) (Some (5 # 10)) (Some (4 # 10));
    mkObservation (Date.mkDate 2024 1 1) (Some (5 # 10)) (Some (4 # 10));
    mkObservation (Date.mkDate 2024 1 17) (Some (6 # 10)) (Some (5 # 10)) ].

(** Two observations, the later one first. *)
Definition later_first : list observation :=
  [ mkObservation (Date.mkDate 2024 1 17) (Some (6 # 10)) (Some (5 # 10));
    mkObservation (Date.mkDate 2024 1 1) (Some (5 # 10)) (Some (4 # 10)) ].

(** Twelve observations, sixteen days apart: three high values between low
    ones. *)
Definition plateau : list observation :=
  every 16 (Date.mkDate 2024 1 1)
    [ (1 # 10, 1 # 10); (1 # 10, 1 # 10); (1 # 10, 1 # 10);
      (1 # 10, 1 # 10); (1 # 10, 1 # 10); (95 # 100, 8 # 10);
      (95 # 100, 8 # 10); (95 # 100, 8 # 10); (1 # 10, 1 # 10);
      (1 # 10, 1 # 10); (1 # 10, 1 # 10); (1 # 10, 1 # 10) ]%Q.

(** A row, an observation, with both indices present and in range. *)
Definition complete_row (r : raw) : Prop :=
  exists n e,
    raw_ndvi r = Some n /\ raw_evi r = Some e /\
    in_range n /\ in_range e.

Definition complete (o : observation) : Prop :=
  exists n e,
    obs_ndvi o = Some n /\ obs_evi o = Some e /\
    in_range n /\ in_range e.

(** The row [r] after cleaning, with the values [n] and [e]. *)
Definition as_clean (r : raw) (n e : Q) : clean :=
  mkClean (raw_label r) (raw_date r) n e.

End Preprocess.

(** ** Threshold detector: [_detect_threshold_blooms] *)

Module Threshold.
Import Frame.

(** The loop of [_find_continuous_periods]: [i] is the position of the head
    of [mask].  (The source also takes the dates, and does not read them.) *)
Fixpoint find_periods_from (mask : list bool) (i : Z) (start_idx : option Z)
    (periods : list (Z * Z)) : list (Z * Z) * option Z :=
  match mask with
  | [] => (periods, start_idx)
  | is_bloom :: mask' =>
      match is_bloom, start_idx with
      | true, None => find_periods_from mask' (i + 1) (Some i) periods
      | false, Some s =>
          find_periods_from mask' (i + 1) None (periods ++ [(s, i - 1)])
      | _, _ => find_periods_from mask' (i + 1) start_idx periods
      end
  end.

Definition _find_continuous_periods (mask : list bool) : list (Z * Z) :=
  let '(periods, start_idx) := find_periods_from mask 0 None [] in
  match start_idx with
  | Some s => periods ++ [(s, len mask - 1)]
  | None => periods
  end.

(** The first row with the largest [f], among [best] and [l]. *)
Fixpoint first_max (f : row -> Q) (best : row) (l : list row) : row :=
  match l with
  | [] => best
  | r :: l' => first_max f (if Py.Qltb (f best) (f r) then r else best) l'
  end.

(** [data[column].idxmax()]: the label of the first row with the largest
    value; raises [ValueError] on an empty frame. *)
Definition idxmax (f : row -> Q) (data : list row) : option Z :=
  match data with
  | [] => None
  | r :: l => Some (label (first_max f r l))
  end.

(** [data.index[0]]: raises [IndexError] on an empty frame. *)
Definition index0 (data : list row) : option Z :=
  match data with
  | [] => None
  | r :: _ => Some (label r)
  end.

(** [peak_idx = start_idx + bloom_data[column].idxmax() - bloom_data.index[0]]
    with [bloom_data = df.iloc[start_idx:end_idx+1]]: a difference of
    labels added to a position. *)
Definition peak_position (f : row -> Q) (df : list row) (start_idx end_idx : Z)
    : option Z :=
  let bloom_data := iloc_slice df start_idx (end_idx + 1) in
  do imax <- idxmax f bloom_data ;;
  do first <- index0 bloom_data ;;
  Some (start_idx + imax - first).

(** The dictionary of one bloom, method and confidence apart. *)
Definition bloom_of (df : list row) (start_idx peak_idx end_idx : Z)
    (confidence : Q) (m : Bloom.method) : option Bloom.t :=
  do s <- iloc df start_idx ;;
  do p <- iloc df peak_idx ;;
  do e <- iloc df end_idx ;;
  Some (Bloom.mkBloom (date s) (date p) (date e)
          (Date.days_between (date e) (date s))
          (ndvi_smooth p) (evi_smooth p)
          ((ndvi_smooth p + evi_smooth p) / 2)%Q
          confidence m).

Definition bloom_mask (df : list row) : list bool :=
  map (fun r => Py.Qltb Bloom.ndvi_bloom_threshold (ndvi_smooth r) &&
                Py.Qltb Bloom.evi_bloom_threshold (evi_smooth r)) df.

(** [for start_idx, end_idx in bloom_periods] *)
Fixpoint threshold_loop (df : list row) (bloom_periods : list (Z * Z))
    (blooms : list Bloom.t) : option (list Bloom.t) :=
  match bloom_periods with
  | [] => Some blooms
  | (start_idx, end_idx) :: rest =>
      if 2 <=? end_idx - start_idx then
        do peak_idx <- peak_position ndvi_smooth df start_idx end_idx ;;
        do bloom <- bloom_of df start_idx peak_idx end_idx (7 # 10)
                      Bloom.threshold ;;
        threshold_loop df rest (blooms ++ [bloom])
      else threshold_loop df rest blooms
  end.

Definition threshold_body (df : list row) : option (list Bloom.t) :=
  threshold_loop df (_find_continuous_periods (bloom_mask df)) [].

Definition _detect_threshold_blooms (df : list row) : list Bloom.t :=
  Py.try_except (threshold_body df) [].

(** A maximal run of [true] in a mask, from position [s] to position [e]. *)
Definition is_run (mask : list bool) (s e : Z) : Prop :=
  0 <= s <= e /\ e < len mask /\
  (forall k, s <= k <= e -> iloc mask k = Some true) /\
  (s = 0 \/ iloc mask (s - 1) = Some false) /\
  (e = len mask - 1 \/ iloc mask (e + 1) = Some false).

(** The labels of the frame are consecutive (no row was dropped between
    two rows). *)
Definition contiguous (df : list row) : Prop :=
  forall i r r',
    0 <= i -> iloc df i = Some r -> iloc df (i + 1) = Some r' ->
    label r' = label r + 1.

(** The state of the scan after the prefix [pre] of the mask [M]. *)
Definition open_run (M : list bool) (i : Z) (start_idx : option Z) : Prop :=
  match start_idx with
  | None => i = 0 \/ iloc M (i - 1) = Some false
  | Some s =>
      0 <= s < i /\ (forall k, s <= k < i -> iloc M k = Some true) /\
      (s = 0 \/ iloc M (s - 1) = Some false)
  end.

(** A candidate made of a maximal run of at least three samples, with the
    row of the largest smoothed NDVI of the run as its peak. *)
Definition candidate_of_run (df : list row) (b : Bloom.t) : Prop :=
  exists s p e rs rp re,
    is_run (bloom_mask df) s e /\ 2 <= e - s /\ s <= p <= e /\
    iloc df s = Some rs /\ iloc df p = Some rp /\ iloc df e = Some re /\
    (forall k r, s <= k <= e -> iloc df k = Some r ->
                 (ndvi_smooth r <= ndvi_smooth rp)%Q) /\
    Bloom.start_date b = date rs /\ Bloom.peak_date b = date rp /\
    Bloom.end_date b = date re /\
    Bloom.duration_days b = Date.days_between (date re) (date rs) /\
    Bloom.peak_ndvi b = ndvi_smooth rp /\ Bloom.peak_evi b = evi_smooth rp /\
    Bloom.bloom_intensity b = ((ndvi_smooth rp + evi_smooth rp) / 2)%Q /\
    Bloom.confidence_score b = (7 # 10)%Q /\
    Bloom.detection_method b = Bloom.threshold.

(** Eight observations, sixteen days apart, four of them missing in a
    row: the fourth missing one is not interpolated and its row is dropped. *)
Definition gap_series : list observation :=
  let d i := Date.add_days (Date.mkDate 2024 3 1) (16 * i) in
  [ mkObservation (d 0%nat) (Some (5 # 10)) (Some (4 # 10));
    mkObservation (d 1%nat) (Some (5 # 10)) (Some (4 # 10));
    mkObservation (d 2%nat) None None;
    mkObservation (d 3%nat) None None;
    mkObservation (d 4%nat) None None;
    mkObservation (d 5%nat) None None;
    mkObservation (d 6%nat) (Some (9 # 10)) (Some (7 # 10));
    mkObservation (d 7%nat) (Some (5 # 10)) (Some (4 # 10)) ].

(** The candidate built from the rows at the positions [s], [p] and [e]
    of the frame. *)
Definition candidate_at (df : list row) (s p e : Z) (confidence : Q)
    (m : Bloom.method) (b : Bloom.t) : Prop :=
  exists rs rp re,
    iloc df s = Some rs /\ iloc df p = Some rp /\ iloc df e = Some re /\
    b = Bloom.mkBloom (date rs) (date rp) (date re)
          (Date.days_between (date re) (date rs))
          (ndvi_smooth rp) (evi_smooth rp)
          ((ndvi_smooth rp + evi_smooth rp) / 2)%Q confidence m.

(** What a candidate of the threshold detector is made of, on any frame. *)
Definition threshold_candidate (df : list row) (b : Bloom.t) : Prop :=
  exists s p e,
    is_run (bloom_mask df) s e /\ 2 <= e - s /\
    peak_position ndvi_smooth df s e = Some p /\
    candidate_at df s p e (7 # 10) Bloom.threshold b.

(** The period [a] ends before the period [b] starts, with a sample
    between them. *)
Definition separated (a b : Z * Z) : Prop := snd a + 1 < fst b.

Definition covers (periods : list (Z * Z)) (k : Z) : Prop :=
  exists p, In p periods /\ fst p <= k <= snd p.

(** The first position the scan has not closed yet. *)
Definition scan_bound (start_idx : option Z) (i : Z) : Z :=
  match start_idx with
  | Some s => s
  | None => i
  end.

End Threshold.

(** ** Peak detector: [_detect_peak_blooms] *)

Module Peak.
Import Frame.

(** [x[i]] on an array, for an index within bounds. *)
Definition get (x : list Q) (i : Z) : Q := nth (Z.to_nat i) x 0%Q.

(** The inner loop of [scipy.signal._peak_finding_utils._local_maxima_1d]:
    [while i_ahead < i_max and x[i_ahead] == x[i]: i_ahead += 1]. *)
Fixpoint plateau_end (fuel : nat) (x : list Q) (i i_ahead i_max : Z) : Z :=
  match fuel with
  | O => i_ahead
  | S fuel' =>
      if (i_ahead <? i_max) && Qeq_bool (get x i_ahead) (get x i)
      then plateau_end fuel' x i (i_ahead + 1) i_max
      else i_ahead
  end.

(** The outer loop of [_local_maxima_1d]: [while i < i_max]; a sample that
    rises above its predecessor opens a plateau, which is a maximum when the
    sample after it is lower; the midpoint of the plateau is reported. *)
Fixpoint local_maxima_loop (fuel : nat) (x : list Q) (i i_max : Z)
    (midpoints : list Z) : list Z :=
  match fuel with
  | O => midpoints
  | S fuel' =>
      if i <? i_max then
        if Py.Qltb (get x (i - 1)) (get x i) then
          let i_ahead := plateau_end (length x) x i (i + 1) i_max in
          if Py.Qltb (get x i_ahead) (get x i) then
            local_maxima_loop fuel' x (i_ahead + 1) i_max
              (midpoints ++ [(i + (i_ahead - 1)) / 2])
          else local_maxima_loop fuel' x (i + 1) i_max midpoints
        else local_maxima_loop fuel' x (i + 1) i_max midpoints
      else midpoints
  end.

Definition _local_maxima_1d (x : list Q) : list Z :=
  local_maxima_loop (length x) x 1 (len x - 1) [].

Section FindPeaks.

(** The selections of [find_peaks] by [distance=3] and by
    [prominence=0.1]: each discards some of the peaks it is given, and is
    left open here (which peaks, given the signal and the peaks so far). *)
Variable keep_by_distance : list Q -> list Z -> Z -> bool.
Variable keep_by_prominence : list Q -> list Z -> Z -> bool.

(** [signal.find_peaks(x, height=height, distance=3, prominence=0.1)]:
    local maxima, then the conditions in scipy's order. *)
Definition find_peaks (x : list Q) (height : Q) : list Z :=
  let peaks := _local_maxima_1d x in
  let peaks := filter (fun p => Py.Qleb height (get x p)) peaks in
  let peaks := filter (keep_by_distance x peaks) peaks in
  filter (keep_by_prominence x peaks) peaks.

(** The loop of [_find_bloom_start]: [count] positions from [i] down. *)
Fixpoint find_start_loop (df : list row) (threshold : Q) (count : nat)
    (i : Z) (initial_start : Z) : option Z :=
  match count with
  | O => Some initial_start
  | S count' =>
      do r <- iloc df i ;;
      if Py.Qltb (ndvi_smooth r) threshold then Some (i + 1)
      else find_start_loop df threshold count' (i - 1) initial_start
  end.

Definition _find_bloom_start (df : list row) (peak_idx initial_start : Z)
    : option Z :=
  do p <- iloc df peak_idx ;;
  let threshold := (ndvi_smooth p * (5 # 10))%Q in
  find_start_loop df threshold (Z.to_nat (peak_idx - initial_start))
    (peak_idx - 1) initial_start.

(** The loop of [_find_bloom_end]: [count] positions from [i] up. *)
Fixpoint find_end_loop (df : list row) (threshold : Q) (count : nat)
    (i : Z) (initial_end : Z) : option Z :=
  match count with
  | O => Some initial_end
  | S count' =>
      do r <- iloc df i ;;
      if Py.Qltb (ndvi_smooth r) threshold then Some (i - 1)
      else find_end_loop df threshold count' (i + 1) initial_end
  end.

Definition _find_bloom_end (df : list row) (peak_idx initial_end : Z)
    : option Z :=
  do p <- iloc df peak_idx ;;
  let threshold := (ndvi_smooth p * (5 # 10))%Q in
  find_end_loop df threshold (Z.to_nat (initial_end - peak_idx))
    (peak_idx + 1) initial_end.

(** [for peak_idx in ndvi_peaks] *)
Fixpoint peak_loop (df : list row) (ndvi_peaks : list Z)
    (blooms : list Bloom.t) : option (list Bloom.t) :=
  match ndvi_peaks with
  | [] => Some blooms
  | peak_idx :: rest =>
      let start_idx := Z.max 0 (peak_idx - 5) in
      let end_idx := Z.min (len df - 1) (peak_idx + 5) in
      do start_idx <- _find_bloom_start df peak_idx start_idx ;;
      do end_idx <- _find_bloom_end df peak_idx end_idx ;;
      do e <- iloc df end_idx ;;
      do s <- iloc df start_idx ;;
      let duration := Date.days_between (date e) (date s) in
      if (Bloom.min_bloom_duration <=? duration) &&
         (duration <=? Bloom.max_bloom_duration)
      then
        do bloom <- Threshold.bloom_of df start_idx peak_idx end_idx (8 # 10)
                      Bloom.peak ;;
        peak_loop df rest (blooms ++ [bloom])
      else peak_loop df rest blooms
  end.

Definition peak_body (df : list row) : option (list Bloom.t) :=
  peak_loop df
    (find_peaks (map ndvi_smooth df) Bloom.ndvi_bloom_threshold) [].

Definition _detect_peak_blooms (df : list row) : list Bloom.t :=
  Py.try_except (peak_body df) [].

End FindPeaks.

(** A local maximum as [_local_maxima_1d] reports it: the midpoint [m] of
    a plateau from [i] to [j], strictly inside the signal, with a lower
    sample on each side of the plateau. *)
Definition local_maximum (x : list Q) (m : Z) : Prop :=
  exists i j,
    1 <= i <= j /\ j < len x - 1 /\ m = (i + j) / 2 /\
    (forall k, i <= k <= j -> (get x k == get x i)%Q) /\
    (get x (i - 1) < get x i)%Q /\
    (get x (j + 1) < get x i)%Q.

(** The rows at the positions [a] to [b] have a smoothed NDVI of at least
    [threshold]; the row at position [k] is below it. *)
Definition above (df : list row) (threshold : Q) (a b : Z) : Prop :=
  forall k r, a <= k <= b -> iloc df k = Some r ->
              (threshold <= ndvi_smooth r)%Q.

Definition below (df : list row) (threshold : Q) (k : Z) : Prop :=
  exists r, iloc df k = Some r /\ (ndvi_smooth r < threshold)%Q.

(** What a candidate of the peak detector is made of. *)
Definition peak_candidate (df : list row) (b : Bloom.t) : Prop :=
  exists s p e rp,
    local_maximum (map ndvi_smooth df) p /\
    iloc df p = Some rp /\
    (Bloom.ndvi_bloom_threshold <= ndvi_smooth rp)%Q /\
    0 <= s /\ p - 5 <= s <= p /\ p <= e <= p + 5 /\ e < len df /\
    above df (ndvi_smooth rp * (5 # 10)) s e /\
    Threshold.candidate_at df s p e (8 # 10) Bloom.peak b /\
    Bloom.min_bloom_duration <= Bloom.duration_days b
    <= Bloom.max_bloom_duration.


End Peak.

(** ** Statistics of a column *)

Module Stats.
Import Frame.

(** The values of a column that are not [NaN]. *)
Definition valid_values (l : list (option Q)) : list Q :=
  flat_map (fun v => match v with Some x => [x] | None => [] end) l.

Definition mean (l : list Q) : Q := (sumQ l / inject_Z (len l))%Q.

(** The sum of squared deviations from the mean, over [n - ddof]. *)
Definition variance (ddof : Z) (l : list Q) : Q :=
  let m := mean l in
  (sumQ (map (fun x => (x - m) * (x - m)) l) / inject_Z (len l - ddof))%Q.

Section Sqrt.

(** The square root of floats.  It is kept as a parameter: the properties
    use that it is never negative and is zero at zero only. *)
Variable sqrt : Q -> Q.

(** [Series.std()]: [NaN] values skipped, [ddof=1]; [NaN] with fewer than
    two values. *)
Definition std (column : list (option Q)) : option Q :=
  let l := valid_values column in
  if len l <? 2 then None else Some (sqrt (variance 1 l)).

(** [np.std(values)]: [ddof=0]; [NaN] on an empty array. *)
Definition np_std (l : list Q) : option Q :=
  if len l <? 1 then None else Some (sqrt (variance 0 l)).

End Sqrt.

(** A square root to six decimals, rounded up. *)
Definition sqrt_up (x : Q) : Q :=
  (inject_Z (Z.sqrt_up (Qceiling (x * inject_Z (10 ^ 12))))
   / inject_Z (10 ^ 6))%Q.

(** [Series.diff()]: the first value is [NaN]. *)
Fixpoint diff_from (previous : Q) (l : list Q) : list (option Q) :=
  match l with
  | [] => []
  | x :: l' => Some (x - previous)%Q :: diff_from x l'
  end.

Definition diff (l : list Q) : list (option Q) :=
  match l with
  | [] => []
  | x :: l' => None :: diff_from x l'
  end.

(** [a > b] and [a < b] where a side may be [NaN]: false then. *)
Definition gt (a b : option Q) : bool :=
  match a, b with
  | Some x, Some y => Py.Qltb y x
  | _, _ => false
  end.

Definition lt (a b : option Q) : bool := gt b a.

End Stats.

(** ** Change-point detector: [_detect_change_point_blooms] *)

Module ChangePoint.
Import Frame.

Section Detector.

Variable sqrt : Q -> Q.

(** [df[df['ndvi_diff'] > t].index.tolist()]: labels. *)
Definition labels_where (df : list row) (cond : list bool) : list Z :=
  map (fun p => label (fst p))
    (filter (fun p => snd p) (combine df cond)).

(** [min(end_candidates)] for a list that is not empty. *)
Definition list_min (first : Z) (others : list Z) : Z :=
  fold_left Z.min others first.

(** [for start_idx in increase_points] *)
Fixpoint change_loop (df : list row) (increase_points decrease_points : list Z)
    (blooms : list Bloom.t) : option (list Bloom.t) :=
  match increase_points with
  | [] => Some blooms
  | start_idx :: rest =>
      match filter (fun idx => start_idx <? idx) decrease_points with
      | [] => change_loop df rest decrease_points blooms
      | first :: others =>
          let end_idx := list_min first others in
          do peak_idx <-
            Threshold.peak_position ndvi_smooth df start_idx end_idx ;;
          do e <- iloc df end_idx ;;
          do s <- iloc df start_idx ;;
          let duration := Date.days_between (date e) (date s) in
          if (Bloom.min_bloom_duration <=? duration) &&
             (duration <=? Bloom.max_bloom_duration)
          then
            do p <- iloc df peak_idx ;;
            if Py.Qltb Bloom.ndvi_bloom_threshold (ndvi_smooth p) then
              do bloom <- Threshold.bloom_of df start_idx peak_idx end_idx
                            (6 # 10) Bloom.change_point ;;
              change_loop df rest decrease_points (blooms ++ [bloom])
            else change_loop df rest decrease_points blooms
          else change_loop df rest decrease_points blooms
      end
  end.

Definition scale (v : option Q) (k : Q) : option Q :=
  match v with
  | Some x => Some (x * k)%Q
  | None => None
  end.

Definition change_body (df : list row) : option (list Bloom.t) :=
  let ndvi_diff := Stats.diff (map ndvi_smooth df) in
  let ndvi_increase_threshold :=
    scale (Stats.std sqrt ndvi_diff) (15 # 10) in
  let ndvi_decrease_threshold :=
    scale (scale (Stats.std sqrt ndvi_diff) (-1)) (15 # 10) in
  let increase_points :=
    labels_where df
      (map (fun d => Stats.gt d ndvi_increase_threshold) ndvi_diff) in
  let decrease_points :=
    labels_where df
      (map (fun d => Stats.lt d ndvi_decrease_threshold) ndvi_diff) in
  change_loop df increase_points decrease_points [].

Definition _detect_change_point_blooms (df : list row) : list Bloom.t :=
  Py.try_except (change_body df) [].

End Detector.

(** Three observations of one constant pair of values, pre-processed. *)
Definition constant_frame (n e : Q) : list row :=
  Preprocess.preprocess
    (Preprocess.every 16 (Date.mkDate 2024 5 1) [(n, e); (n, e); (n, e)]).

Definition low_constant : list row := constant_frame (1 # 10) (5 # 100).

Definition high_constant : list row := constant_frame (9 # 10) (8 # 10).

(** The smoothed columns are constant. *)
Definition constant (df : list row) (c_ndvi c_evi : Q) : Prop :=
  Forall (fun r => (ndvi_smooth r == c_ndvi)%Q /\ (evi_smooth r == c_evi)%Q)
    df.

(** What a candidate of the change-point detector is made of; [s] and [e]
    are index labels, read as positions. *)
Definition change_candidate (df : list row) (b : Bloom.t) : Prop :=
  exists s p e,
    s < e /\
    Threshold.peak_position ndvi_smooth df s e = Some p /\
    Threshold.candidate_at df s p e (6 # 10) Bloom.change_point b /\
    Bloom.min_bloom_duration <= Bloom.duration_days b
    <= Bloom.max_bloom_duration /\
    (Bloom.ndvi_bloom_threshold < Bloom.peak_ndvi b)%Q.


End ChangePoint.

(** ** Phenology: [PhenologyService._detect_phenology_phases] *)

Module Phenology.
Import Frame.

(** [PhenologyService.__init__] *)
Definition sos_threshold : Q := 2 # 10.
Definition eos_threshold : Q := 2 # 10.
Definition min_data_points : Z := 10.
Definition max_gap_days : Z := 32.

(** The two kinds of object the code holds a date in.  [df.iloc[i]['date']],
    [df['date'].max()] are [pandas.Timestamp]s; the elements of
    [df['date'].values], a numpy array of dtype [datetime64[ns]], are
    [numpy.datetime64] scalars. *)
Inductive date_object : Set :=
  | Timestamp (d : Date.date)
  | datetime64 (d : Date.date).

(** [obj.strftime('%Y-%m-%d')]: a method of [Timestamp];
    [numpy.datetime64] has no attribute [strftime] ([AttributeError]). *)
Definition strftime (obj : date_object) : option Date.date :=
  match obj with
  | Timestamp d => Some d
  | datetime64 _ => None
  end.

(** [obj.timetuple().tm_yday]: likewise a method of [Timestamp] only. *)
Definition tm_yday (obj : date_object) : option Z :=
  match obj with
  | Timestamp d =>
      Some (Date.days_before_month (Date.year d) (Date.month d) + Date.day d)
  | datetime64 _ => None
  end.

(** [(a - b).days]: the difference of two [Timestamp]s is a [Timedelta];
    that of two [numpy.datetime64] is a [numpy.timedelta64], which has no
    attribute [days]. *)
Definition days_apart (a b : date_object) : option Z :=
  match a, b with
  | Timestamp x, Timestamp y => Some (Date.days_between x y)
  | _, _ => None
  end.

(** The entries of [basic_stats['ndvi']] that the phase detection reads,
    with the maximum they come from. *)
Record index_stats : Set := mkStats {
  stat_min : Q;
  stat_max : Q;
  stat_amplitude : Q
}.

(** [np.min(values)], [np.max(values)]: [ValueError] on an empty array. *)
Definition np_min (values : list Q) : option Q :=
  match values with
  | [] => None
  | x :: l =>
      Some (fold_left (fun acc y => if Py.Qltb y acc then y else acc) l x)
  end.

Definition np_max (values : list Q) : option Q :=
  match values with
  | [] => None
  | x :: l =>
      Some (fold_left (fun acc y => if Py.Qltb acc y then y else acc) l x)
  end.

(** [_calculate_basic_statistics], its ['ndvi'] entry; [None] is the empty
    dictionary returned when a statement raises. *)
Definition _calculate_basic_statistics (df : list row) : option index_stats :=
  let ndvi_values := map ndvi_smooth df in
  do lo <- np_min ndvi_values ;;
  do hi <- np_max ndvi_values ;;
  Some (mkStats lo hi (hi - lo)%Q).

(** [for i, v in enumerate(values): if p(v): idx = i; break], from position
    [i]. *)
Fixpoint first_index (p : Q -> bool) (i : Z) (values : list Q) : option Z :=
  match values with
  | [] => None
  | v :: values' => if p v then Some i else first_index p (i + 1) values'
  end.

(** [np.argmax(values)]: the first position of the maximum; [ValueError]
    on an empty array. *)
Fixpoint argmax_from (best_idx : Z) (best : Q) (i : Z) (values : list Q) : Z :=
  match values with
  | [] => best_idx
  | v :: values' =>
      if Py.Qltb best v then argmax_from i v (i + 1) values'
      else argmax_from best_idx best (i + 1) values'
  end.

Definition argmax (values : list Q) : option Z :=
  match values with
  | [] => None
  | v :: values' => Some (argmax_from 0 v 1 values')
  end.

(** The three indices: the statements of [_detect_phenology_phases] up to
    "If no end found, use last data point". *)
Definition phase_indices (ndvi_values : list Q) (stats : index_stats)
    : option (option Z * Z * Z) :=
  let baseline := stat_min stats in
  let amplitude := stat_amplitude stats in
  let sos_value := (baseline + amplitude * sos_threshold)%Q in
  let eos_value := (baseline + amplitude * eos_threshold)%Q in
  let sos_idx := first_index (fun v => Py.Qleb sos_value v) 0 ndvi_values in
  do pos_idx <- argmax ndvi_values ;;
  let eos_idx :=
    first_index (fun v => Py.Qltb v eos_value) pos_idx
      (skipn (Z.to_nat pos_idx) ndvi_values) in
  let eos_idx :=
    match eos_idx with
    | Some i => i
    | None => len ndvi_values - 1
    end in
  Some (sos_idx, pos_idx, eos_idx).

(** One entry of the result: [{'date': ..., 'day_of_year': ...,
    'ndvi_value': ...}]. *)
Record phase : Set := mkPhase {
  phase_date : option Date.date;
  day_of_year : option Z;
  ndvi_value : option Q
}.

Record phases : Set := mkPhases {
  start_of_season : phase;
  peak_of_season : phase;
  end_of_season : phase;
  growing_season_length : option Z;
  green_up_duration : option Z;
  senescence_duration : option Z
}.

(** The entry for position [idx] of the arrays [dates] and [ndvi_values]. *)
Definition phase_at (dates : list date_object) (ndvi_values : list Q)
    (idx : Z) : option phase :=
  do d <- iloc dates idx ;;
  do text <- strftime d ;;
  do yday <- tm_yday d ;;
  do v <- iloc ndvi_values idx ;;
  Some (mkPhase (Some text) (Some yday) (Some v)).

Definition duration_between (dates : list date_object) (later earlier : Z)
    : option Z :=
  do a <- iloc dates later ;;
  do b <- iloc dates earlier ;;
  days_apart a b.

Section Phases.

(** How the dates of the frame reach the code as an array: the source
    writes [df['date'].values], that is [datetime64]. *)
Variable as_object : Date.date -> date_object.

Definition phases_body (df : list row) (basic_stats : option index_stats)
    : option phases :=
  let ndvi_values := map ndvi_smooth df in
  let dates := map (fun r => as_object (date r)) df in
  do stats <- basic_stats ;;
  do indices <- phase_indices ndvi_values stats ;;
  let '(sos_idx, pos_idx, eos_idx) := indices in
  do sos <- match sos_idx with
            | Some i => phase_at dates ndvi_values i
            | None => Some (mkPhase None None None)
            end ;;
  do pos <- phase_at dates ndvi_values pos_idx ;;
  do eos <- phase_at dates ndvi_values eos_idx ;;
  do season <- match sos_idx with
               | Some i =>
                   do n <- duration_between dates eos_idx i ;; Some (Some n)
               | None => Some None
               end ;;
  do green_up <- match sos_idx with
                 | Some i =>
                     do n <- duration_between dates pos_idx i ;;
                     Some (Some n)
                 | None => Some None
                 end ;;
  do senescence <- duration_between dates eos_idx pos_idx ;;
  Some (mkPhases sos pos eos season green_up (Some senescence)).

End Phases.

(** [_detect_phenology_phases]: [None] is the empty dictionary of the
    [except] clause. *)
Definition _detect_phenology_phases (df : list row)
    (basic_stats : option index_stats) : option phases :=
  phases_body datetime64 df basic_stats.

(** ** Quality: [_assess_data_quality], [_get_quality_rating] *)

Inductive rating : Set := excellent | good | fair | poor.

Definition _get_quality_rating (quality_score : Q) : rating :=
  if Py.Qleb (8 # 10) quality_score then excellent
  else if Py.Qleb (6 # 10) quality_score then good
  else if Py.Qleb (4 # 10) quality_score then fair
  else poor.

Record quality_metrics : Set := mkQuality {
  data_completeness : Q;
  temporal_completeness : Q;
  valid_observations : Z;
  total_observations : Z;
  max_gap_days_found : Z;
  mean_gap_days : Q;
  large_gap_count : Z;
  overall_quality_score : Q;
  quality_rating : rating
}.

(** [df['date'].max()], [df['date'].min()] as ordinals, for a frame that
    is not empty. *)
Definition ordinals (df : list row) : list Z :=
  map (fun r => Date.toordinal (date r)) df.

Definition max_ordinal (df : list row) : Z :=
  fold_right Z.max (hd 0 (ordinals df)) (ordinals df).

Definition min_ordinal (df : list row) : Z :=
  fold_right Z.min (hd 0 (ordinals df)) (ordinals df).

(** [df['date'].diff().dt.days.dropna()] *)
Fixpoint date_diffs_from (previous : Z) (l : list Z) : list Z :=
  match l with
  | [] => []
  | x :: l' => (x - previous) :: date_diffs_from x l'
  end.

Definition date_diffs (df : list row) : list Z :=
  match ordinals df with
  | [] => []
  | x :: l => date_diffs_from x l
  end.

Section Quality.

Variable sqrt : Q -> Q.

Definition temporal_completeness_of (df : list row) : Q :=
  if 1 <? len df then
    let date_range := max_ordinal df - min_ordinal df in
    let expected_obs := (inject_Z date_range / 16)%Q in
    if Py.Qltb 0 expected_obs
    then Py.min 1 (inject_Z (len df) / expected_obs)%Q
    else 0%Q
  else 0%Q.

Definition gap_count_of (df : list row) : Z :=
  if 1 <? len df
  then len (filter (fun d => max_gap_days <? d) (date_diffs df))
  else 0.

(** The list [quality_factors]. *)
Definition quality_factors (df : list row) : list Q :=
  let valid_obs := len df in
  [ Py.min 1 (inject_Z valid_obs / 20)%Q;
    temporal_completeness_of df;
    (if 0 <? valid_obs
     then Py.max 0 (1 - inject_Z (gap_count_of df) / inject_Z valid_obs)%Q
     else 0%Q);
    (match Stats.std sqrt (map (fun r => Some (ndvi_smooth r)) df) with
     | Some s => Py.min 1 (s / (2 # 10))%Q
     | None => 1%Q
     end) ].

(** [_assess_data_quality(df, original_data)], with
    [total_possible_obs = len(original_data['time_series'])]. *)
Definition _assess_data_quality (df : list row) (total_possible_obs : Z)
    : quality_metrics :=
  let valid_obs := len df in
  let temporal_completeness := temporal_completeness_of df in
  let diffs := date_diffs df in
  let max_gap :=
    if 1 <? len df
    then fold_right Z.max (hd 0 diffs) diffs else 0 in
  let mean_gap :=
    if 1 <? len df
    then Stats.mean (map inject_Z diffs) else 0%Q in
  let gap_count := gap_count_of df in
  let overall_quality := Stats.mean (quality_factors df) in
  mkQuality
    (if 0 <? total_possible_obs
     then (inject_Z valid_obs / inject_Z total_possible_obs)%Q else 0%Q)
    temporal_completeness valid_obs total_possible_obs max_gap mean_gap
    gap_count overall_quality (_get_quality_rating overall_quality).

End Quality.

(** [sos_value]: the level whose first crossing is the start of season. *)
Definition season_threshold (stats : index_stats) : Q :=
  (stat_min stats
   + stat_amplitude stats * sos_threshold)%Q.

End Phenology.

(** ** Forecast: [forecast_bloom_events] *)

Module Forecast.
Import Frame.

(** One record of [forecast_data]. *)
Record forecast_point : Set := mkPoint {
  point_date : Date.date;
  ndvi_forecast : Q;
  evi_forecast : Q
}.

(** One entry of [predicted_blooms]. *)
Record predicted_bloom : Set := mkPredicted {
  start_date : Date.date;
  peak_date : Date.date;
  end_date : Date.date;
  duration_days : Z;
  predicted_peak_ndvi : Q;
  predicted_peak_evi : Q;
  bloom_probability : Q;
  ndvi_min : Q;
  ndvi_max : Q;
  date_uncertainty_days : Z
}.

(** The result of [_extract_seasonal_patterns]. *)
Record seasonal_patterns : Set := mkPatterns {
  peak_month : Z;
  seasonal_amplitude : Q;
  monthly_averages : list (Z * (Q * Q));
  start_month : Z;
  end_month : Z
}.

(** [df.groupby('month')[['ndvi_smooth', 'evi_smooth']].mean()]: one line
    per month that has rows, in ascending order of month. *)
Definition monthly_avg (df : list row) : list (Z * (Q * Q)) :=
  flat_map
    (fun m =>
       match filter (fun r => Date.month (date r) =? m) df with
       | [] => []
       | rows =>
           [(m, (Stats.mean (map ndvi_smooth rows),
                 Stats.mean (map evi_smooth rows)))]
       end)
    [1; 2; 3; 4; 5; 6; 7; 8; 9; 10; 11; 12].

(** [monthly_avg['ndvi_smooth'].idxmax()], [.max()], [.min()] *)
Fixpoint month_of_max (best : Z * (Q * Q)) (l : list (Z * (Q * Q)))
    : Z * (Q * Q) :=
  match l with
  | [] => best
  | x :: l' =>
      month_of_max
        (if Py.Qltb (fst (snd best)) (fst (snd x)) then x else best) l'
  end.

(** [None] is the empty dictionary of the [except] clause ([idxmax] of an
    empty table raises). *)
Definition _extract_seasonal_patterns (df : list row)
    : option seasonal_patterns :=
  let table := monthly_avg df in
  match table with
  | [] => None
  | first :: others =>
      let peak_month := fst (month_of_max first others) in
      do hi <- Phenology.np_max (map (fun x => fst (snd x)) table) ;;
      do lo <- Phenology.np_min (map (fun x => fst (snd x)) table) ;;
      Some (mkPatterns peak_month (hi - lo)%Q table
              ((peak_month - 1) mod 12 + 1) ((peak_month + 1) mod 12 + 1))
  end.

(** [monthly_data.get(column, {}).get(month, default)] *)
Fixpoint lookup (month : Z) (table : list (Z * (Q * Q))) : option (Q * Q) :=
  match table with
  | [] => None
  | (m, v) :: table' => if m =? month then Some v else lookup month table'
  end.

Definition baseline (patterns : option seasonal_patterns) (month : Z)
    : Q * Q :=
  match patterns with
  | Some p =>
      match lookup month (monthly_averages p) with
      | Some v => v
      | None => (3 # 10, 2 # 10)
      end
  | None => (3 # 10, 2 # 10)
  end.

(** [max(0, min(1, v))] *)
Definition clip (v : Q) : Q := Py.max 0 (Py.min 1 v).

(** [df['date'].max()] of a frame that is not empty. *)
Definition last_date (first : row) (others : list row) : Date.date :=
  fold_left (fun best r => if Date.ltb best (date r) then date r else best)
    others (date first).

Section Noise.

(** The state of the generator behind [np.random], and a draw of
    [np.random.normal(loc, scale)]: the value and the next state. *)
Variable generator : Type.
Variable normal : Q -> Q -> generator -> Q * generator.

(** What a call reads besides its arguments: the generator and the clock
    ([datetime.now()], as a date; the readings of one call are taken to fall
    on the same day). *)
Record world : Type := mkWorld {
  random_state : generator;
  today : Date.date
}.

(** Whether [pd.date_range(start=last_date + timedelta(days=1),
    periods=forecast_days, freq='D')] builds its index: it raises when the
    range leaves the days pandas holds as time stamps, which depend on its
    version. *)
Variable in_bounds : Date.date -> Z -> bool.

(** The index of [pd.date_range]: one day after the other from the day
    after [last_date], none for a number of periods below 1. *)
Definition date_range (last_date : Date.date) (forecast_days : Z)
    : option (list Date.date) :=
  if in_bounds last_date forecast_days then
    Some (map (Date.add_days (Date.next_day last_date))
            (seq 0 (Z.to_nat forecast_days)))
  else None.

(** [for date in forecast_dates] *)
Fixpoint forecast_loop (patterns : option seasonal_patterns)
    (forecast_dates : list Date.date) (g : generator)
    : list forecast_point * generator :=
  match forecast_dates with
  | [] => ([], g)
  | date :: forecast_dates' =>
      let month := Date.month date in
      let '(baseline_ndvi, baseline_evi) := baseline patterns month in
      let '(noise_ndvi, g) := normal 0 (5 # 100) g in
      let '(noise_evi, g) := normal 0 (3 # 100) g in
      let point :=
        mkPoint date (clip (baseline_ndvi + noise_ndvi))
          (clip (baseline_evi + noise_evi)) in
      let '(points, g) := forecast_loop patterns forecast_dates' g in
      (point :: points, g)
  end.

(** [_generate_forecast]: an empty frame when a statement raises, before
    any number is drawn (the history is empty, so that [last_date] is not a
    date, or [pd.date_range] raises). *)
Definition _generate_forecast (df : list row) (forecast_days : Z)
    (patterns : option seasonal_patterns) (g : generator)
    : list forecast_point * generator :=
  match df with
  | [] => ([], g)
  | first :: others =>
      match date_range (last_date first others) forecast_days with
      | Some forecast_dates => forecast_loop patterns forecast_dates g
      | None => ([], g)
      end
  end.

(** The frame of the forecast in the row type of the detectors: a fresh
    frame has the labels 0, 1, 2, ...; [ndvi_forecast] and [evi_forecast]
    are held in the smoothed columns. *)
Definition forecast_frame (points : list forecast_point) : list row :=
  map (fun p =>
         mkRow (fst p) (point_date (snd p))
           (ndvi_forecast (snd p)) (evi_forecast (snd p))
           (ndvi_forecast (snd p)) (evi_forecast (snd p)))
    (combine (range (len points)) points).

Definition predicted_of (forecast_df : list row)
    (start_idx peak_idx end_idx : Z) : option predicted_bloom :=
  do s <- iloc forecast_df start_idx ;;
  do p <- iloc forecast_df peak_idx ;;
  do e <- iloc forecast_df end_idx ;;
  Some (mkPredicted (date s) (date p) (date e)
          (Date.days_between (date e) (date s))
          (ndvi_smooth p) (evi_smooth p) (7 # 10)
          (ndvi_smooth p - (1 # 10))%Q (ndvi_smooth p + (1 # 10))%Q 5).

Fixpoint forecast_bloom_loop (forecast_df : list row)
    (bloom_periods : list (Z * Z)) (forecast_blooms : list predicted_bloom)
    : option (list predicted_bloom) :=
  match bloom_periods with
  | [] => Some forecast_blooms
  | (start_idx, end_idx) :: rest =>
      if 2 <=? end_idx - start_idx then
        do peak_idx <-
          Threshold.peak_position ndvi_smooth forecast_df start_idx end_idx ;;
        do bloom <- predicted_of forecast_df start_idx peak_idx end_idx ;;
        forecast_bloom_loop forecast_df rest (forecast_blooms ++ [bloom])
      else forecast_bloom_loop forecast_df rest forecast_blooms
  end.

Definition _detect_forecast_blooms (points : list forecast_point)
    : list predicted_bloom :=
  let forecast_df := forecast_frame points in
  Py.try_except
    (forecast_bloom_loop forecast_df
       (Threshold._find_continuous_periods (Threshold.bloom_mask forecast_df))
       [])
    [].

(** [round(x, 2)], left open. *)
Variable round2 : Q -> Q.

Definition _calculate_forecast_confidence (df : list row)
    (patterns : option seasonal_patterns) : Q :=
  let data_quality := Py.min 1 (inject_Z (len df) / 100)%Q in
  let seasonal_strength :=
    match patterns with
    | Some p => seasonal_amplitude p
    | None => 0%Q
    end in
  let pattern_confidence := Py.min 1 (seasonal_strength * 2)%Q in
  round2 (data_quality * (6 # 10) + pattern_confidence * (4 # 10))%Q.

(** The dictionary [forecast_bloom_events] returns. *)
Record forecast : Type := mkForecast {
  forecast_period_days : Z;
  forecast_start_date : Date.date;
  forecast_end_date : Date.date;
  predicted_blooms : list predicted_bloom;
  forecast_confidence : Q;
  patterns_found : option seasonal_patterns;
  forecast_data : list forecast_point
}.

(** The dates [pd.to_datetime] holds. *)
Variable holds : Date.date -> bool.

(** What the steps after cleaning make of a frame that cleaning returned
    with its missing values (a column without a number): the predicted
    blooms, the confidence, the patterns and the forecast data, or [None]
    when a statement raises, and the generator after the draws.  Left
    open: the cells of the frames modelled here are numbers. *)
Variable object_frame_forecast :
  list raw -> Z -> generator ->
  option (list predicted_bloom * Q * option seasonal_patterns
          * list forecast_point) * generator.

(** [forecast_bloom_events(historical_data, latitude, longitude,
    forecast_days)]: [None] is the dictionary [{'error': ...}], for a
    history of fewer than 50 observations or when a statement raises.  The
    location is not read.  The two dates of the period are counted from the
    clock in the calendar of [Date.plus_days]: the clock is taken to read a
    day from which they can be counted (Python raises [OverflowError] past
    9999-12-31). *)
Definition forecast_bloom_events (time_series : list observation)
    (forecast_days : Z) (w : world) : option forecast * world :=
  if len time_series <? 50 then (None, w)
  else
    match to_datetime holds time_series with
    | None => (None, w)
    | Some _ =>
        let cleaned :=
          Preprocess._clean_time_series (DataFrame time_series) in
        let report blooms confidence patterns data :=
          mkForecast forecast_days
            (Date.plus_days (today w) 1)
            (Date.plus_days (today w) forecast_days)
            blooms confidence patterns data in
        if forallb Preprocess.present cleaned then
          let df := Preprocess.preprocess time_series in
          let patterns := _extract_seasonal_patterns df in
          let '(forecast_data, g) :=
            _generate_forecast df forecast_days patterns (random_state w) in
          let forecast_blooms := _detect_forecast_blooms forecast_data in
          let confidence := _calculate_forecast_confidence df patterns in
          (Some (report forecast_blooms confidence patterns forecast_data),
           mkWorld g (today w))
        else
          let '(result, g) :=
            object_frame_forecast cleaned forecast_days (random_state w) in
          (option_map
             (fun '(blooms, confidence, patterns, data) =>
                report blooms confidence patterns data)
             result,
           mkWorld g (today w))
    end.

(** [np.random.seed(...)]: the generator is put in a given state. *)
Definition seed (g : generator) (w : world) : world :=
  mkWorld g (today w).

End Noise.

(** A small congruential generator, for examples: the draw is one of seven
    values around [loc], [scale] apart at most. *)
Definition lcg_normal (loc scale : Q) (g : Z) : Q * Z :=
  ((loc + scale * (inject_Z (g mod 7 - 3) / 3))%Q,
   (g * 1103515245 + 12345) mod 2147483648).

(** For examples whose cleaned frame has no missing value: the error
    dictionary, without a draw. *)
Definition no_object_frame (cleaned : list raw) (forecast_days : Z) (g : Z)
    : option (list predicted_bloom * Q * option seasonal_patterns
              * list forecast_point) * Z :=
  (None, g).

(** Fifty observations, sixteen days apart, alternating low and high. *)
Definition history : list observation :=
  Preprocess.every 16 (Date.mkDate 2022 1 1)
    (flat_map (fun _ => [(3 # 10, 2 # 10); (6 # 10, 5 # 10)]%Q) (seq 0 25)).

(** A forecast point with both indices in [0, 1]. *)
Definition unit_point (p : forecast_point) : Prop :=
  (0 <= ndvi_forecast p <= 1)%Q /\
  (0 <= evi_forecast p <= 1)%Q.

(** [d] is the latest date of the frame. *)
Definition latest (df : list row) (d : Date.date) : Prop :=
  In d (map date df) /\
  Forall (fun r => Date.leb (date r) d = true) df.

(** [bloom_mask] of [_detect_forecast_blooms], on the forecast points. *)
Definition forecast_mask (points : list forecast_point)
    : list bool :=
  map (fun p =>
         Py.Qltb Bloom.ndvi_bloom_threshold (ndvi_forecast p) &&
         Py.Qltb Bloom.evi_bloom_threshold (evi_forecast p))
    points.

(** A predicted bloom made of the maximal run from [s] to [e] of forecast
    points above both thresholds, with a point of the largest NDVI of the
    run as its peak. *)
Definition predicted_from_run (points : list forecast_point)
    (s e : Z) (b : predicted_bloom) : Prop :=
  exists p ps pp pe,
    Threshold.is_run (forecast_mask points) s e /\ 2 <= e - s /\
    s <= p <= e /\
    iloc points s = Some ps /\ iloc points p = Some pp /\
    iloc points e = Some pe /\
    (forall k q, s <= k <= e -> iloc points k = Some q ->
                 (ndvi_forecast q <= ndvi_forecast pp)%Q) /\
    b = mkPredicted (point_date ps)
          (point_date pp) (point_date pe)
          (Date.days_between (point_date pe)
             (point_date ps))
          (ndvi_forecast pp) (evi_forecast pp) (7 # 10)
          (ndvi_forecast pp - (1 # 10))%Q
          (ndvi_forecast pp + (1 # 10))%Q 5.

Definition predicted_from_runs (points : list forecast_point)
    (b : predicted_bloom) : Prop :=
  exists s e, predicted_from_run points s e b.

(** A predicted bloom that starts after the last date of the history and
    ends within the forecast days, its duration being the days it spans. *)
Definition within_forecast (df : list row) (forecast_days : Z)
    (b : predicted_bloom) : Prop :=
  exists last,
    latest df last /\
    Date.toordinal last < Date.toordinal (start_date b) /\
    Date.toordinal (start_date b)
    <= Date.toordinal (peak_date b) /\
    Date.toordinal (peak_date b)
    <= Date.toordinal (end_date b) /\
    Date.toordinal (end_date b)
    <= Date.toordinal last + forecast_days /\
    duration_days b
    = Date.toordinal (end_date b)
      - Date.toordinal (start_date b) /\
    2 <= duration_days b < forecast_days.

(** The rows of a month, and their means ([groupby('month').mean()]). *)
Definition rows_of_month (df : list row) (m : Z) : list row :=
  filter (fun r => Date.month (date r) =? m) df.

Definition month_mean (df : list row) (m : Z) : Q * Q :=
  (Stats.mean (map ndvi_smooth (rows_of_month df m)),
   Stats.mean (map evi_smooth (rows_of_month df m))).

(** What [_extract_seasonal_patterns] says of the frame. *)
Definition patterns_of (df : list row) (p : seasonal_patterns)
    : Prop :=
  monthly_averages p = monthly_avg df /\
  1 <= peak_month p <= 12 /\
  rows_of_month df (peak_month p) <> [] /\
  lookup (peak_month p) (monthly_averages p)
  = Some (month_mean df (peak_month p)) /\
  (forall m, 1 <= m <= 12 -> rows_of_month df m <> [] ->
             (fst (month_mean df m)
              <= fst (month_mean df (peak_month p)))%Q) /\
  (exists m, 1 <= m <= 12 /\ rows_of_month df m <> [] /\
             (seasonal_amplitude p
              == fst (month_mean df (peak_month p))
                 - fst (month_mean df m))%Q) /\
  (0 <= seasonal_amplitude p)%Q /\
  start_month p = peak_month p /\
  end_month p
  = (if peak_month p <=? 10 then peak_month p + 2
     else peak_month p - 10).

(** The line of [monthly_avg] for month [m], if the month has rows. *)
Definition entry (df : list row) (m : Z) : list (Z * (Q * Q)) :=
  match rows_of_month df m with
  | [] => []
  | _ :: _ => [(m, month_mean df m)]
  end.

(** The value [_calculate_forecast_confidence] rounds. *)
Definition confidence_before_rounding (df : list row)
    (patterns : option seasonal_patterns) : Q :=
  let data_quality := Py.min 1 (inject_Z (len df) / 100)%Q in
  let seasonal_strength :=
    match patterns with
    | Some p => seasonal_amplitude p
    | None => 0%Q
    end in
  let pattern_confidence := Py.min 1 (seasonal_strength * 2)%Q in
  (data_quality * (6 # 10) + pattern_confidence * (4 # 10))%Q.

End Forecast.

(** ** The service entry point: [detect_bloom_events] *)

Module Events.
Import Frame.
Import String.

(** The result of [_determine_bloom_stage]. *)
Inductive stage : Set :=
  | pre_bloom | early_bloom | peak_bloom | late_bloom | post_bloom | unknown.

(** [_determine_bloom_stage(bloom, df)]; [current_date] is
    [datetime.now().date()].  The frame is not read. *)
Definition stage_body (bloom : Bloom.t) (current_date : Date.date)
    : option stage :=
  let current_date := Date.toordinal current_date in
  do start_date <- Py.strptime (Bloom.start_date bloom) ;;
  do peak_date <- Py.strptime (Bloom.peak_date bloom) ;;
  do end_date <- Py.strptime (Bloom.end_date bloom) ;;
  Some (if current_date <? start_date then pre_bloom
        else if (start_date <=? current_date) && (current_date <? peak_date)
        then early_bloom
        else if current_date =? peak_date then peak_bloom
        else if (peak_date <? current_date) && (current_date <=? end_date)
        then late_bloom
        else post_bloom).

Definition _determine_bloom_stage (bloom : Bloom.t) (current_date : Date.date)
    : stage :=
  Py.try_except (stage_body bloom current_date) unknown.

Local Open Scope string_scope.

(** The lists of [_get_species_hints]. *)
Definition tropical_hints : list string :=
  ["Tropical flowering trees"; "Hibiscus"; "Bougainvillea"].
Definition subtropical_hints : list string :=
  ["Cherry blossom"; "Citrus trees"; "Oleander"].
Definition temperate_hints : list string :=
  ["Apple blossom"; "Wildflowers"; "Deciduous trees"].
Definition arctic_hints : list string := ["Arctic willow"; "Tundra flowers"].
Definition intense_hints : list string :=
  ["Agricultural crops"; "Orchard trees"].
Definition moderate_hints : list string :=
  ["Wildflower meadows"; "Grasslands"].
Definition long_hints : list string :=
  ["Perennial flowers"; "Long-blooming shrubs"].
Definition short_hints : list string :=
  ["Annual flowers"; "Fruit tree blossoms"].

Local Close Scope string_scope.

(** [_get_species_hints(bloom, latitude)] *)
Definition _get_species_hints (bloom : Bloom.t) (latitude : Q) : list string :=
  let abs_lat := Qabs latitude in
  let hints :=
    if Py.Qltb abs_lat (235 # 10) then tropical_hints
    else if Py.Qltb abs_lat 40 then subtropical_hints
    else if Py.Qltb abs_lat 60 then temperate_hints
    else arctic_hints in
  let hints :=
    if Py.Qltb (8 # 10) (Bloom.bloom_intensity bloom)
    then hints ++ intense_hints
    else if Py.Qltb (6 # 10) (Bloom.bloom_intensity bloom)
    then hints ++ moderate_hints
    else hints in
  let hints :=
    if 60 <? Bloom.duration_days bloom then hints ++ long_hints
    else if Bloom.duration_days bloom <? 30 then hints ++ short_hints
    else hints in
  firstn 3 hints.

(** One entry of [final_blooms].  The text
    [f"bloom_{latitude}_{longitude}_{bloom['start_date']}"] of the key [id]
    is held as its three parts. *)
Record bloom_info : Set := mkInfo {
  id : Q * Q * Date.date;
  location : Q * Q;
  event : Bloom.t;
  bloom_stage : stage;
  species_hints : list string
}.

Section Detect.

Variable sqrt : Q -> Q.
Variable keep_by_distance : list Q -> list Z -> Z -> bool.
Variable keep_by_prominence : list Q -> list Z -> Z -> bool.

(** The dates [pd.to_datetime] holds. *)
Variable holds : Date.date -> bool.

(** The entries the steps after cleaning make of a frame that cleaning
    returned with its missing values (a column without a number).  Left
    open: the cells of the frames modelled here are numbers. *)
Variable object_frame_events :
  list raw -> Q -> Q -> Date.date -> list bloom_info.

(** The candidates of the three methods, in the order they are appended
    to [bloom_events]. *)
Definition candidates (df : list row) : list Bloom.t :=
  Threshold._detect_threshold_blooms df
  ++ Peak._detect_peak_blooms keep_by_distance keep_by_prominence df
  ++ ChangePoint._detect_change_point_blooms sqrt df.

Definition detect_body (time_series : list observation)
    (latitude longitude : Q) (current_date : Date.date)
    : option (list bloom_info) :=
  do _ <- to_datetime holds time_series ;;
  let cleaned := Preprocess._clean_time_series (DataFrame time_series) in
  if forallb Preprocess.present cleaned then
    let df := Preprocess.preprocess time_series in
    let merged_blooms := Bloom._merge_bloom_events (candidates df) in
    Some (map (fun bloom =>
                 mkInfo (latitude, longitude, Bloom.start_date bloom)
                   (latitude, longitude) bloom
                   (_determine_bloom_stage bloom current_date)
                   (_get_species_hints bloom latitude))
            merged_blooms)
  else
    Some (object_frame_events cleaned latitude longitude current_date).

(** [detect_bloom_events(vegetation_data, latitude, longitude)], with
    [time_series = vegetation_data.get('time_series', [])] and the date the
    clock gives. *)
Definition detect_bloom_events (time_series : list observation)
    (latitude longitude : Q) (current_date : Date.date) : list bloom_info :=
  match time_series with
  | [] => []
  | _ => Py.try_except
           (detect_body time_series latitude longitude current_date) []
  end.

End Detect.

(** The order of the stages in time. *)
Definition stage_rank (s : stage) : Z :=
  match s with
  | pre_bloom => 0
  | early_bloom => 1
  | peak_bloom => 2
  | late_bloom => 3
  | post_bloom => 4
  | unknown => 5
  end.

(** The confidence scores the three detectors give. *)
Definition confidences : list Q := [6 # 10; 7 # 10; 8 # 10]%Q.

(** A candidate built from three rows of the frame. *)
Definition candidate_of_rows (df : list row) (b : Bloom.t) : Prop :=
  exists s p e c m,
    Threshold.candidate_at df s p e c m b /\ In c confidences.

(** A date of a year that [strftime('%Y-%m-%d')] prints on four digits, so
    that [strptime] reads the text back and the order of the texts is the
    order of the days. *)
Definition dated (d : Date.date) : Prop :=
  Date.valid d /\ 1000 <= Date.year d.

(** A valid date that is the date of an observation. *)
Definition observed (time_series : list observation) (d : Date.date) : Prop :=
  Date.valid d /\ In d (map obs_date time_series).

(** An event whose dates are observation dates, whose duration is the
    number of days from its start to its end, and whose confidence is one of
    the three scores. *)
Definition sound_event (time_series : list observation) (b : Bloom.t)
    : Prop :=
  observed time_series (Bloom.start_date b) /\
  observed time_series (Bloom.peak_date b) /\
  observed time_series (Bloom.end_date b) /\
  Bloom.duration_days b
  = Date.days_between (Bloom.end_date b) (Bloom.start_date b) /\
  In (Bloom.confidence_score b) confidences.

(** What [detect_bloom_events] says of one entry of its result. *)
Definition reported (time_series : list observation) (latitude longitude : Q)
    (current_date : Date.date) (i : bloom_info) : Prop :=
  let b := event i in
  id i = (latitude, longitude, Bloom.start_date b) /\
  location i = (latitude, longitude) /\
  bloom_stage i = _determine_bloom_stage b current_date /\
  bloom_stage i <> unknown /\
  species_hints i = _get_species_hints b latitude /\
  (2 <= List.length (species_hints i) <= 3)%nat /\
  sound_event time_series b /\
  Bloom.min_bloom_duration <= Bloom.duration_days b.


End Events.

(** ** Climate zones: [_get_climate_zone], [_get_seasonal_context] *)

Module Climate.
Import String.

Inductive zone : Set := tropical | subtropical | temperate | subarctic | arctic.

Definition _get_climate_zone (latitude : Q) : zone :=
  let abs_lat := Qabs latitude in
  if Py.Qleb abs_lat (235 # 10) then tropical
  else if Py.Qleb abs_lat 35 then subtropical
  else if Py.Qleb abs_lat 50 then temperate
  else if Py.Qleb abs_lat (665 # 10) then subarctic
  else arctic.

Inductive hemisphere : Set := northern | southern.

Record seasonal_context : Set := mkContext {
  climate_zone : zone;
  context_hemisphere : hemisphere;
  expected_seasons : list (string * list Z);
  context_year : Z
}.

Definition _get_seasonal_context (latitude : Q) (year : Z)
    : seasonal_context :=
  let climate_zone := _get_climate_zone latitude in
  let hemisphere := if Py.Qleb 0 latitude then northern else southern in
  let north :=
    match hemisphere with
    | northern => true
    | southern => false
    end in
  let expected_seasons :=
    match climate_zone with
    | tropical =>
        [ ("wet_season"%string,
           if north then [5; 6; 7; 8; 9; 10] else [11; 12; 1; 2; 3; 4]);
          ("dry_season"%string,
           if north then [11; 12; 1; 2; 3; 4] else [5; 6; 7; 8; 9; 10]) ]
    | subtropical | temperate =>
        [ ("growing_season"%string,
           if north then [3; 4; 5; 6; 7; 8; 9; 10]
           else [9; 10; 11; 12; 1; 2; 3; 4]);
          ("dormant_season"%string,
           if north then [11; 12; 1; 2] else [5; 6; 7; 8]) ]
    | subarctic | arctic =>
        [ ("short_growing_season"%string,
           if north then [5; 6; 7; 8; 9] else [11; 12; 1; 2; 3]);
          ("long_dormant_season"%string,
           if north then [10; 11; 12; 1; 2; 3; 4]
           else [4; 5; 6; 7; 8; 9; 10]) ]
    end in
  mkContext climate_zone hemisphere expected_seasons year.

(** The month six months later. *)
Definition opposite_month (m : Z) : Z := (m + 5) mod 12 + 1.

(** The zones from the equator to the pole. *)
Definition zone_rank (z : zone) : Z :=
  match z with
  | tropical => 0
  | subtropical => 1
  | temperate => 2
  | subarctic => 3
  | arctic => 4
  end.

Definition months : list Z := [1; 2; 3; 4; 5; 6; 7; 8; 9; 10; 11; 12].

(** The seasons with every month moved by half a year. *)
Definition shift_seasons (l : list (string * list Z))
    : list (string * list Z) :=
  map (fun p => (fst p, map opposite_month (snd p))) l.

End Climate.

(** * Properties *)

(** ** Lemmas on dates *)

Module DateFacts.
Import Date.

Lemma days_before_year_succ y :
  days_before_year (y + 1) =
  days_before_year y + 365 + (if is_leap y then 1 else 0).
Proof.
  unfold days_before_year, is_leap.
  replace (y + 1 - 1) with y by lia.
  destruct (Z.eqb_spec (y mod 4) 0), (Z.eqb_spec (y mod 100) 0),
    (Z.eqb_spec (y mod 400) 0); cbn [negb orb andb];
    Z.div_mod_to_equations; lia.
Qed.

Lemma days_before_year_mono a b :
  a <= b -> days_before_year a <= days_before_year b.
Proof.
  unfold days_before_year. intros H.
  Z.div_mod_to_equations. lia.
Qed.

Lemma valid_inv d :
  valid d ->
  1 <= year d <= 9999 /\ 1 <= month d <= 12 /\
  1 <= day d <= days_in_month (year d) (month d).
Proof.
  unfold valid, validb. intros H.
  repeat (apply andb_prop in H; destruct H as [H ?]). lia.
Qed.

Ltac month_cases m :=
  let H := fresh in
  assert (H : m = 1 \/ m = 2 \/ m = 3 \/ m = 4 \/ m = 5 \/ m = 6 \/
              m = 7 \/ m = 8 \/ m = 9 \/ m = 10 \/ m = 11 \/ m = 12) by lia;
  repeat (destruct H as [H | H]); subst m.

Lemma days_before_month_next y m :
  1 <= m <= 12 ->
  days_before_month y m + days_in_month y m =
  if m =? 12 then 365 + (if is_leap y then 1 else 0)
  else days_before_month y (m + 1).
Proof.
  intros Hm. month_cases m;
    unfold days_before_month, days_in_month; cbn;
    destruct (is_leap y); reflexivity.
Qed.

Lemma days_before_month_mono y m n :
  1 <= m -> m <= n -> n <= 12 ->
  days_before_month y m <= days_before_month y n.
Proof.
  intros H1 H2 H3.
  month_cases m; month_cases n; try lia;
    unfold days_before_month; cbn; destruct (is_leap y); lia.
Qed.

Lemma days_before_month_bound y m :
  1 <= m <= 12 ->
  0 <= days_before_month y m /\
  days_before_month y m + days_in_month y m <=
  365 + (if is_leap y then 1 else 0).
Proof.
  intros Hm. month_cases m;
    unfold days_before_month, days_in_month; cbn;
    destruct (is_leap y); lia.
Qed.

(** On valid dates the order of the texts is the order of the days. *)
Lemma ltb_toordinal a b :
  valid a -> valid b -> ltb a b = true -> toordinal a < toordinal b.
Proof.
  intros Ha Hb. apply valid_inv in Ha, Hb.
  destruct Ha as (Hya & Hma & Hda), Hb as (Hyb & Hmb & Hdb).
  unfold ltb, toordinal. intros H.
  apply orb_prop in H. destruct H as [H | H].
  - apply Z.ltb_lt in H.
    pose proof (days_before_month_bound (year a) (month a) Hma) as [_ Ba].
    pose proof (days_before_month_bound (year b) (month b) Hmb) as [Bb _].
    pose proof (days_before_year_succ (year a)) as Hs.
    pose proof (days_before_year_mono (year a + 1) (year b) ltac:(lia)).
    lia.
  - apply andb_prop in H. destruct H as [Hy H].
    apply Z.eqb_eq in Hy. rewrite Hy in *.
    apply orb_prop in H. destruct H as [H | H].
    + apply Z.ltb_lt in H.
      pose proof (days_before_month_next (year b) (month a) Hma) as Hn.
      destruct (Z.eqb_spec (month a) 12); [lia |].
      pose proof (days_before_month_mono (year b) (month a + 1) (month b)
                    ltac:(lia) ltac:(lia) ltac:(lia)).
      lia.
    + apply andb_prop in H. destruct H as [Hm H].
      apply Z.eqb_eq in Hm. apply Z.ltb_lt in H. rewrite Hm. lia.
Qed.

Lemma ltb_iff a b :
  ltb a b = true <->
  year a < year b \/
  (year a = year b /\
   (month a < month b \/ (month a = month b /\ day a < day b))).
Proof.
  unfold ltb.
  rewrite orb_true_iff, andb_true_iff, orb_true_iff, andb_true_iff,
    !Z.ltb_lt, !Z.eqb_eq.
  reflexivity.
Qed.

Lemma leb_iff a b :
  leb a b = true <->
  year a < year b \/
  (year a = year b /\
   (month a < month b \/ (month a = month b /\ day a <= day b))).
Proof.
  unfold leb. rewrite negb_true_iff, <- not_true_iff_false, ltb_iff. lia.
Qed.

Lemma ltb_irrefl a : ltb a a = false.
Proof.
  apply not_true_iff_false. rewrite ltb_iff. lia.
Qed.

Lemma ltb_false_cases a b :
  ltb a b = false -> ltb b a = true \/ a = b.
Proof.
  rewrite <- not_true_iff_false, !ltb_iff. intros H.
  destruct a as [ya ma da], b as [yb mb db]; cbn in *.
  destruct (Z.eq_dec ya yb), (Z.eq_dec ma mb), (Z.eq_dec da db);
    try (left; lia).
  right. congruence.
Qed.

Lemma leb_toordinal a b :
  valid a -> valid b -> leb a b = true -> toordinal a <= toordinal b.
Proof.
  intros Ha Hb. unfold leb. intros H. apply negb_true_iff in H.
  destruct (ltb_false_cases _ _ H) as [Hlt | ->]; [| lia].
  pose proof (ltb_toordinal _ _ Ha Hb Hlt). lia.
Qed.

Lemma leb_total a b : leb a b = true \/ leb b a = true.
Proof. rewrite !leb_iff. lia. Qed.

Lemma leb_trans a b c :
  leb a b = true -> leb b c = true -> leb a c = true.
Proof. rewrite !leb_iff. lia. Qed.

Lemma leb_refl a : leb a a = true.
Proof. rewrite leb_iff. lia. Qed.

End DateFacts.

(** ** Python values *)

Module PyFacts.

Lemma Qltb_lt a b : Py.Qltb a b = true <-> (a < b)%Q.
Proof. unfold Py.Qltb, Qlt. apply Z.ltb_lt. Qed.

Lemma Qltb_ge a b : Py.Qltb a b = false <-> (b <= a)%Q.
Proof. unfold Py.Qltb, Qle. apply Z.ltb_ge. Qed.

Lemma Qleb_le a b : Py.Qleb a b = true <-> (a <= b)%Q.
Proof. apply Qle_bool_iff. Qed.

Lemma max_cases a b :
  (Py.max a b = a /\ (b <= a)%Q) \/ (Py.max a b = b /\ (a < b)%Q).
Proof.
  unfold Py.max. destruct (Py.Qltb a b) eqn:E.
  - right. split; [reflexivity | now apply Qltb_lt].
  - left. split; [reflexivity | now apply Qltb_ge].
Qed.

Lemma min_cases a b :
  (Py.min a b = a /\ (a <= b)%Q) \/ (Py.min a b = b /\ (b < a)%Q).
Proof.
  unfold Py.min. destruct (Py.Qltb b a) eqn:E.
  - right. split; [reflexivity | now apply Qltb_lt].
  - left. split; [reflexivity | now apply Qltb_ge].
Qed.

Lemma strptime_valid d :
  Date.valid d -> Py.strptime d = Some (Date.toordinal d).
Proof. unfold Py.strptime, Date.valid. intros ->. reflexivity. Qed.

Lemma strptime_Some d n :
  Py.strptime d = Some n -> Date.valid d /\ n = Date.toordinal d.
Proof.
  unfold Py.strptime, Date.valid.
  destruct (Date.validb d); [| discriminate].
  intros [= <-]. split; reflexivity.
Qed.

Lemma max_str_valid a b :
  Date.valid a -> Date.valid b -> Date.valid (Py.max_str a b).
Proof. unfold Py.max_str. destruct (Date.ltb a b); auto. Qed.

Lemma max_str_cases a b :
  (Py.max_str a b = a /\ Date.leb b a = true) \/
  (Py.max_str a b = b /\ Date.ltb a b = true).
Proof.
  unfold Py.max_str, Date.leb. destruct (Date.ltb a b); auto.
Qed.

End PyFacts.

(** ** The event merger *)

Module MergeFacts.
Import Bloom.

(** *** The sort *)

Lemma insert_by_start_perm x l : Permutation (insert_by_start x l) (x :: l).
Proof.
  induction l as [| y l IH]; cbn; [reflexivity |].
  destruct (Date.leb (start_date x) (start_date y)); [reflexivity |].
  rewrite IH. apply perm_swap.
Qed.

Lemma sorted_perm l : Permutation (sorted l) l.
Proof.
  induction l as [| x l IH]; cbn; [reflexivity |].
  rewrite insert_by_start_perm. now constructor.
Qed.

Lemma insert_by_start_sorted x l :
  StronglySorted le_start l -> StronglySorted le_start (insert_by_start x l).
Proof.
  induction 1 as [| y l Hs IH Hy]; cbn.
  - repeat constructor.
  - destruct (Date.leb (start_date x) (start_date y)) eqn:E.
    + constructor; [now constructor |].
      constructor; [exact E |].
      eapply Forall_impl; [| exact Hy].
      intros z Hz. eapply DateFacts.leb_trans; eassumption.
    + constructor; [exact IH |].
      rewrite (insert_by_start_perm x l). constructor; [| exact Hy].
      destruct (DateFacts.leb_total (start_date x) (start_date y));
        [congruence | assumption].
Qed.

Lemma sorted_sorted l : StronglySorted le_start (sorted l).
Proof.
  induction l; cbn; [constructor | now apply insert_by_start_sorted].
Qed.

Lemma sorted_Forall (P : t -> Prop) l : Forall P l -> Forall P (sorted l).
Proof.
  intros H. rewrite Forall_forall in *. intros x Hx. apply H.
  eapply Permutation_in; [apply sorted_perm | exact Hx].
Qed.

(** The sort is stable: candidates with the same start date keep their
    order. *)
Lemma insert_by_start_filter (p : t -> bool) x l :
  (forall y, In y l -> p y = true -> p x = true ->
             Date.leb (start_date x) (start_date y) = true) ->
  filter p (insert_by_start x l) = filter p (x :: l).
Proof.
  induction l as [| y l IH]; intros H; cbn; [reflexivity |].
  destruct (Date.leb (start_date x) (start_date y)) eqn:E; [reflexivity |].
  cbn. destruct (p y) eqn:Py.
  - destruct (p x) eqn:Px.
    + rewrite (H y (or_introl eq_refl) Py eq_refl) in E. discriminate.
    + f_equal. rewrite IH; cbn; [now rewrite Px |].
      intros; discriminate.
  - rewrite IH; [reflexivity |]. intros z Hz. apply H. now right.
Qed.

Lemma sorted_stable d l :
  let same b :=
    Date.leb d (start_date b) && Date.leb (start_date b) d in
  filter same (sorted l) = filter same l.
Proof.
  cbn. induction l as [| x l IH]; [reflexivity |].
  cbn [sorted fold_right]. rewrite insert_by_start_filter.
  - cbn. fold (sorted l). now rewrite IH.
  - intros y _ Hy Hx.
    apply andb_prop in Hy, Hx. destruct Hy as [Hy _], Hx as [_ Hx].
    eapply DateFacts.leb_trans; eassumption.
Qed.

(** *** One merge step *)

Lemma merge_fields_start c b : start_date (merge_fields c b) = start_date c.
Proof. reflexivity. Qed.

Lemma merge_fields_peak_date c b : peak_date (merge_fields c b) = peak_date c.
Proof. reflexivity. Qed.

Lemma merge_fields_method c b :
  detection_method (merge_fields c b) = detection_method c.
Proof. reflexivity. Qed.

Lemma merge_fields_end c b :
  end_date (merge_fields c b) = Py.max_str (end_date c) (end_date b).
Proof. reflexivity. Qed.

Lemma merge_fields_wf c b :
  well_formed c -> well_formed b -> well_formed (merge_fields c b).
Proof.
  intros (Hs & Hp & He) (_ & _ & He'). repeat split; cbn; auto.
  now apply PyFacts.max_str_valid.
Qed.

Lemma update_duration_wf c :
  well_formed c ->
  update_duration c =
  Some (set_duration_days c
          (Date.toordinal (end_date c) - Date.toordinal (start_date c))).
Proof.
  intros (Hs & _ & He). unfold update_duration.
  rewrite (PyFacts.strptime_valid _ Hs), (PyFacts.strptime_valid _ He).
  reflexivity.
Qed.

Lemma set_duration_days_wf c n :
  well_formed c -> well_formed (set_duration_days c n).
Proof. intros (Hs & Hp & He). repeat split; assumption. Qed.

Lemma merged_with_wf c b :
  well_formed c -> well_formed b -> well_formed (merged_with c b).
Proof.
  intros Hc Hb. apply set_duration_days_wf. now apply merge_fields_wf.
Qed.

Lemma merge_loop_cons merged c b rest :
  well_formed c -> well_formed b ->
  merge_loop merged c (b :: rest) =
  if Date.toordinal (start_date b) - Date.toordinal (end_date c) <=? 7
  then merge_loop merged (merged_with c b) rest
  else merge_loop (merged ++ [c]) b rest.
Proof.
  intros Hc Hb. cbn [merge_loop].
  destruct Hc as (Hcs & Hcp & Hce), Hb as (Hbs & Hbp & Hbe).
  rewrite (PyFacts.strptime_valid _ Hce), (PyFacts.strptime_valid _ Hbs).
  cbn [Py.bind].
  destruct (_ <=? 7); [| reflexivity].
  rewrite update_duration_wf; [reflexivity |].
  apply merge_fields_wf; repeat split; assumption.
Qed.

Lemma merge_loop_groups_cons merged c g b rest :
  well_formed c -> well_formed b ->
  merge_loop_groups merged c g (b :: rest) =
  if Date.toordinal (start_date b) - Date.toordinal (end_date c) <=? 7
  then merge_loop_groups merged (merged_with c b) (g ++ [b]) rest
  else merge_loop_groups (merged ++ [(c, g)]) b [b] rest.
Proof.
  intros Hc Hb. cbn [merge_loop_groups].
  destruct Hc as (Hcs & Hcp & Hce), Hb as (Hbs & Hbp & Hbe).
  rewrite (PyFacts.strptime_valid _ Hce), (PyFacts.strptime_valid _ Hbs).
  cbn [Py.bind].
  destruct (_ <=? 7); [| reflexivity].
  rewrite update_duration_wf; [reflexivity |].
  apply merge_fields_wf; repeat split; assumption.
Qed.

(** Erasing the recorded groups gives the scan of the source. *)
Lemma merge_loop_groups_erase rest :
  forall merged c g,
    option_map (map fst) (merge_loop_groups merged c g rest) =
    merge_loop (map fst merged) c rest.
Proof.
  induction rest as [| b rest IH]; intros merged c g; cbn.
  - now rewrite map_app.
  - destruct (Py.strptime (end_date c)); [| reflexivity].
    destruct (Py.strptime (start_date b)); [| reflexivity].
    cbn. destruct (_ <=? 7).
    + destruct (update_duration (merge_fields c b)); [| reflexivity].
      cbn. apply IH.
    + rewrite IH, map_app. reflexivity.
Qed.

Lemma merge_groups_erase l :
  option_map (map fst) (merge_groups l) = merge_scan l.
Proof.
  unfold merge_groups, merge_scan.
  destruct (sorted l); [reflexivity |]. apply merge_loop_groups_erase.
Qed.

(** *** The scan *)

Lemma is_max_single f c : is_max f c [c].
Proof.
  split; [now left |]. constructor; [apply Qle_refl | constructor].
Qed.

Lemma is_max_step f c g b e :
  is_max f c g -> f e = Py.max (f c) (f b) -> is_max f e (g ++ [b]).
Proof.
  intros [Hin Hall] He. unfold is_max. rewrite He. split.
  - rewrite map_app, in_app_iff.
    destruct (PyFacts.max_cases (f c) (f b)) as [[-> _] | [-> _]];
      [left; exact Hin | right; now left].
  - apply Forall_app. split.
    + eapply Forall_impl; [| exact Hall]. cbn. intros x Hx.
      destruct (PyFacts.max_cases (f c) (f b)) as [[-> _] | [-> Hlt]];
        [exact Hx |].
      eapply Qle_trans; [exact Hx | now apply Qlt_le_weak].
    + constructor; [| constructor].
      destruct (PyFacts.max_cases (f c) (f b)) as [[-> Hle] | [-> _]];
        [exact Hle | apply Qle_refl].
Qed.

Lemma summarises_single c : summarises c [c].
Proof.
  exists c, []. repeat split; try apply is_max_single; repeat constructor;
    apply Qle_refl.
Qed.

Lemma summarises_step c g b :
  summarises c g -> summarises (merged_with c b) (g ++ [b]).
Proof.
  intros (c0 & g' & -> & Hs & Hp & Hm & M1 & M2 & M3 & M4).
  exists c0, (g' ++ [b]). split; [reflexivity |].
  split; [exact Hs |]. split; [exact Hp |]. split; [exact Hm |].
  repeat split;
    match goal with
    | |- In _ _ => eapply is_max_step; [eassumption | reflexivity]
    | |- Forall _ _ => eapply is_max_step; [eassumption | reflexivity]
    end.
Qed.

Lemma merge_loop_groups_spec rest :
  forall merged c g,
    well_formed c -> Forall well_formed rest ->
    Forall summarised merged -> summarises c g ->
    exists gs,
      merge_loop_groups merged c g rest = Some gs /\
      Forall summarised gs /\
      concat (map snd gs) = concat (map snd merged) ++ g ++ rest.
Proof.
  induction rest as [| b rest IH]; intros merged c g Hc Hrest Hm Hcg.
  - exists (merged ++ [(c, g)]). split; [reflexivity |]. split.
    + apply Forall_app. split; [exact Hm |]. now repeat constructor.
    + rewrite map_app, concat_app. cbn. now rewrite !app_nil_r.
  - inversion Hrest as [| ? ? Hb Hrest']; subst.
    rewrite merge_loop_groups_cons by assumption.
    destruct (_ <=? 7).
    + destruct (IH merged (merged_with c b) (g ++ [b])) as (gs & E & F & C);
        auto using merged_with_wf, summarises_step.
      exists gs. split; [exact E |]. split; [exact F |].
      rewrite C, <- !app_assoc. reflexivity.
    + destruct (IH (merged ++ [(c, g)]) b [b]) as (gs & E & F & C);
        auto using summarises_single.
      { apply Forall_app. split; [exact Hm |]. now repeat constructor. }
      exists gs. split; [exact E |]. split; [exact F |].
      rewrite C, map_app, concat_app. cbn.
      rewrite !app_nil_r, <- !app_assoc. reflexivity.
Qed.

Lemma merge_groups_spec l :
  Forall well_formed l ->
  exists gs,
    merge_groups l = Some gs /\
    Forall summarised gs /\
    concat (map snd gs) = sorted l.
Proof.
  intros Hl. apply sorted_Forall in Hl. unfold merge_groups.
  destruct (sorted l) as [| first rest].
  - exists []. repeat split; constructor.
  - inversion Hl; subst.
    destruct (merge_loop_groups_spec rest [] first [first])
      as (gs & E & F & C); auto using summarises_single.
    exists gs. repeat split; assumption.
Qed.

Lemma merge_body_groups l gs :
  merge_groups l = Some gs ->
  _merge_bloom_events l =
  filter (fun bloom => min_bloom_duration <=? duration_days bloom)
    (map fst gs).
Proof.
  intros E. unfold _merge_bloom_events, merge_body.
  rewrite <- merge_groups_erase, E. reflexivity.
Qed.

(** *** Order of the output *)

Lemma StronglySorted_snoc {A} (R : A -> A -> Prop) l x :
  StronglySorted R l -> Forall (fun a => R a x) l ->
  StronglySorted R (l ++ [x]).
Proof.
  induction 1 as [| a l Hs IH Ha]; intros Hx; cbn.
  - repeat constructor.
  - inversion Hx; subst. constructor; [now apply IH |].
    apply Forall_app. split; [exact Ha | now repeat constructor].
Qed.

Lemma StronglySorted_filter {A} (R : A -> A -> Prop) p l :
  StronglySorted R l -> StronglySorted R (filter p l).
Proof.
  induction 1 as [| a l Hs IH Ha]; cbn; [constructor |].
  destruct (p a); [| exact IH].
  constructor; [exact IH |].
  rewrite Forall_forall in *. intros x Hx. apply Ha.
  now apply filter_In in Hx.
Qed.

Lemma StronglySorted_consecutive {A} (R : A -> A -> Prop) l :
  StronglySorted R l ->
  forall i a b,
    nth_error l i = Some a -> nth_error l (S i) = Some b -> R a b.
Proof.
  induction 1 as [| x l Hs IH Hx]; intros i a b Ha Hb.
  - destruct i; discriminate.
  - destruct i as [| i].
    + cbn in Ha. injection Ha as <-. cbn in Hb.
      rewrite Forall_forall in Hx. apply Hx.
      destruct l; [discriminate |]. cbn in Hb. injection Hb as <-.
      now left.
    + cbn in Ha, Hb. eapply IH; eassumption.
Qed.

Lemma apart_later a c b :
  well_formed c -> well_formed b ->
  apart a c -> le_start c b -> apart a b.
Proof.
  intros (Hc & _) (Hb & _) [Hle Hgap] Hcb. split.
  - eapply DateFacts.leb_trans; eassumption.
  - unfold Date.days_between in *.
    pose proof (DateFacts.leb_toordinal _ _ Hc Hb Hcb). lia.
Qed.

Lemma merge_loop_apart rest :
  forall merged c,
    well_formed c -> Forall well_formed rest ->
    StronglySorted le_start (c :: rest) ->
    StronglySorted apart merged ->
    Forall (fun a => apart a c) merged ->
    exists out,
      merge_loop merged c rest = Some out /\ StronglySorted apart out.
Proof.
  induction rest as [| b rest IH]; intros merged c Hc Hrest Hs Hm Hmc.
  - exists (merged ++ [c]). split; [reflexivity |].
    now apply StronglySorted_snoc.
  - inversion Hrest as [| ? ? Hb Hrest']; subst.
    inversion Hs as [| ? ? Hs' Hc_le]; subst.
    inversion Hc_le as [| ? ? Hcb Hc_rest]; subst.
    inversion Hs' as [| ? ? Hs'' Hb_le]; subst.
    rewrite merge_loop_cons by assumption.
    destruct (Z.leb_spec
                (Date.toordinal (start_date b) - Date.toordinal (end_date c))
                7) as [Hnear | Hfar].
    + apply IH; auto using merged_with_wf.
      constructor; assumption.
    + apply IH; auto.
      * now apply StronglySorted_snoc.
      * apply Forall_app. split.
        -- eapply Forall_impl; [| exact Hmc]. cbn. intros a Ha.
           apply (apart_later a c b); assumption.
        -- constructor; [| constructor]. split; [exact Hcb |].
           unfold Date.days_between. lia.
Qed.

Lemma merge_scan_apart l :
  Forall well_formed l ->
  exists out, merge_scan l = Some out /\ StronglySorted apart out.
Proof.
  intros Hl. apply sorted_Forall in Hl.
  pose proof (sorted_sorted l) as Hs. unfold merge_scan.
  destruct (sorted l) as [| first rest].
  - exists []. split; [reflexivity | constructor].
  - inversion Hl; subst.
    apply merge_loop_apart; auto; constructor.
Qed.

Lemma StronglySorted_weaken {A} (R R' : A -> A -> Prop) l :
  (forall a b, R a b -> R' a b) ->
  StronglySorted R l -> StronglySorted R' l.
Proof.
  intros HR. induction 1; constructor; [assumption |].
  eapply Forall_impl; [| eassumption]. auto.
Qed.

(** *** The merger's results *)

Ltac well_formed_list :=
  repeat first [ reflexivity | apply Forall_nil | apply Forall_cons | split ].

(** C1, as stated, fails: two candidates of 100 days each, two days apart,
    are merged into one event of 202 days; the merger filters on the minimum
    duration only. *)
Lemma merged_duration_exceeds_max :
  Forall well_formed two_long_candidates /\
  Forall (fun c => min_bloom_duration <= duration_days c <= max_bloom_duration)
    two_long_candidates /\
  exists e,
    In e (_merge_bloom_events two_long_candidates) /\
    ~ (min_bloom_duration <= duration_days e <= max_bloom_duration).
Proof.
  split; [well_formed_list |]. split.
  - repeat constructor; cbn; discriminate.
  - eexists. split; [vm_compute; left; reflexivity |].
    cbn. unfold max_bloom_duration. lia.
Qed.

(** C1, amended: every event the merger returns has [duration_days] of at
    least [min_bloom_duration] (14); the merger sets no upper bound. *)
Theorem merged_duration_at_least_min (bloom_events : list t) :
  Forall well_formed bloom_events ->
  forall e,
    In e (_merge_bloom_events bloom_events) ->
    min_bloom_duration <= duration_days e.
Proof.
  intros Hl e He.
  destruct (merge_groups_spec _ Hl) as (gs & E & _ & _).
  rewrite (merge_body_groups _ _ E) in He.
  apply filter_In in He. destruct He as [_ He]. now apply Z.leb_le.
Qed.

Lemma merged_duration_at_least_min_witness :
  Forall well_formed two_long_candidates /\
  forall e,
    In e (_merge_bloom_events two_long_candidates) ->
    min_bloom_duration <= duration_days e.
Proof.
  split; [well_formed_list |].
  apply (merged_duration_at_least_min two_long_candidates).
  well_formed_list.
Defined.

Lemma group_member l gs e g c :
  merge_groups l = Some gs -> concat (map snd gs) = sorted l ->
  In (e, g) gs -> In c g -> In c l.
Proof.
  intros _ C Hin Hc.
  eapply Permutation_in; [apply sorted_perm |].
  rewrite <- C. apply in_concat. exists g. split; [| exact Hc].
  apply in_map_iff. now exists (e, g).
Qed.

Lemma merged_event_group l gs e :
  merge_groups l = Some gs ->
  In e (_merge_bloom_events l) -> exists g, In (e, g) gs.
Proof.
  intros E He. rewrite (merge_body_groups _ _ E) in He.
  apply filter_In in He. destruct He as [He _].
  apply in_map_iff in He. destruct He as ([e' g] & <- & Hin).
  now exists g.
Qed.

(** C2: the events the merger returns are in ascending order of start date
    (as texts, and as days), and of two consecutive events the later one
    starts more than seven days after the earlier one ends, so that their
    spans are disjoint. *)
Theorem merged_events_ordered_and_apart (bloom_events : list t) :
  Forall well_formed bloom_events ->
  let out := _merge_bloom_events bloom_events in
  StronglySorted le_start out /\
  forall i a b,
    nth_error out i = Some a -> nth_error out (S i) = Some b ->
    Date.toordinal (start_date a) <= Date.toordinal (start_date b) /\
    7 < Date.days_between (start_date b) (end_date a) /\
    Date.toordinal (end_date a) < Date.toordinal (start_date b).
Proof.
  intros Hl out.
  destruct (merge_scan_apart _ Hl) as (merged & E & Hs).
  destruct (merge_groups_spec _ Hl) as (gs & Eg & Hsum & C).
  assert (Hout : StronglySorted apart out).
  { unfold out, _merge_bloom_events, merge_body. rewrite E. cbn.
    now apply StronglySorted_filter. }
  split.
  - eapply StronglySorted_weaken; [| exact Hout]. now intros a b [H _].
  - intros i a b Ha Hb.
    destruct (StronglySorted_consecutive _ _ Hout i a b Ha Hb) as [Hle Hgap].
    assert (Hstart : forall e, In e out -> Date.valid (start_date e)).
    { intros e He.
      destruct (merged_event_group _ _ _ Eg He) as (g & Hin).
      rewrite Forall_forall in Hsum.
      destruct (Hsum _ Hin) as (c0 & g' & Hg & Hs0 & _). cbn in Hg, Hs0.
      rewrite Hs0.
      rewrite Forall_forall in Hl.
      apply (Hl c0). eapply group_member; eauto.
      rewrite Hg. now left. }
    apply nth_error_In in Ha, Hb.
    pose proof (DateFacts.leb_toordinal _ _ (Hstart a Ha) (Hstart b Hb) Hle).
    unfold Date.days_between in *. lia.
Qed.

Lemma merged_events_ordered_and_apart_witness :
  Forall well_formed separate_candidates /\
  _merge_bloom_events separate_candidates = [winter_bloom; spring_bloom] /\
  StronglySorted le_start (_merge_bloom_events separate_candidates) /\
  Date.toordinal (start_date winter_bloom)
  <= Date.toordinal (start_date spring_bloom) /\
  7 < Date.days_between (start_date spring_bloom) (end_date winter_bloom) /\
  Date.toordinal (end_date winter_bloom)
  < Date.toordinal (start_date spring_bloom).
Proof.
  assert (H : Forall well_formed separate_candidates) by well_formed_list.
  split; [exact H |]. split; [reflexivity |].
  destruct (merged_events_ordered_and_apart separate_candidates H)
    as (Hsorted & Hgap).
  split; [exact Hsorted |].
  apply (Hgap 0%nat winter_bloom spring_bloom); reflexivity.
Defined.

(** C3: in every event the merger returns, [peak_ndvi], [peak_evi],
    [bloom_intensity] and [confidence_score] are each the largest value of
    that field among the candidates that were merged into the event; the
    groups of merged candidates are consecutive pieces of the sorted
    candidate list. *)
Theorem merged_scores_are_group_maxima (bloom_events : list t) :
  Forall well_formed bloom_events ->
  exists groups,
    merge_groups bloom_events = Some groups /\
    concat (map snd groups) = sorted bloom_events /\
    forall e,
      In e (_merge_bloom_events bloom_events) ->
      exists g,
        In (e, g) groups /\
        is_max peak_ndvi e g /\ is_max peak_evi e g /\
        is_max bloom_intensity e g /\ is_max confidence_score e g.
Proof.
  intros Hl.
  destruct (merge_groups_spec _ Hl) as (gs & E & Hsum & C).
  exists gs. split; [exact E |]. split; [exact C |].
  intros e He. destruct (merged_event_group _ _ _ E He) as (g & Hin).
  exists g. split; [exact Hin |].
  rewrite Forall_forall in Hsum.
  destruct (Hsum _ Hin) as (c0 & g' & _ & _ & _ & _ & M). exact M.
Qed.

Lemma merged_scores_are_group_maxima_witness :
  Forall well_formed two_long_candidates /\
  exists groups,
    merge_groups two_long_candidates = Some groups /\
    concat (map snd groups) = sorted two_long_candidates /\
    forall e,
      In e (_merge_bloom_events two_long_candidates) ->
      exists g,
        In (e, g) groups /\
        is_max peak_ndvi e g /\ is_max peak_evi e g /\
        is_max bloom_intensity e g /\ is_max confidence_score e g.
Proof.
  split; [well_formed_list |].
  apply (merged_scores_are_group_maxima two_long_candidates).
  well_formed_list.
Defined.



End MergeFacts.

(** ** Data frames *)

Module FrameFacts.
Import Frame.

Lemma iloc_nonneg {A} (l : list A) i :
  0 <= i -> iloc l i = nth_error l (Z.to_nat i).
Proof.
  intros H. unfold iloc. destruct (Z.ltb_spec i 0); [lia | reflexivity].
Qed.

Lemma iloc_Some_bound {A} (l : list A) i x :
  0 <= i -> iloc l i = Some x -> i < len l.
Proof.
  intros H. rewrite iloc_nonneg by exact H. intros E.
  assert (E' : nth_error l (Z.to_nat i) <> None) by congruence.
  apply nth_error_Some in E'. unfold len. lia.
Qed.

Lemma iloc_in_bounds {A} (l : list A) i :
  0 <= i < len l -> exists x, iloc l i = Some x.
Proof.
  intros H. rewrite iloc_nonneg by lia.
  destruct (nth_error l (Z.to_nat i)) as [x |] eqn:E; [now exists x |].
  apply nth_error_None in E. unfold len in H. lia.
Qed.

Lemma iloc_app_l {A} (pre rest : list A) k :
  0 <= k < len pre -> iloc (pre ++ rest) k = iloc pre k.
Proof.
  intros H. rewrite !iloc_nonneg by lia.
  apply nth_error_app1. unfold len in H. lia.
Qed.

Lemma iloc_app_head {A} (pre : list A) b rest :
  iloc (pre ++ b :: rest) (len pre) = Some b.
Proof.
  rewrite iloc_nonneg by (unfold len; lia).
  unfold len. rewrite Nat2Z.id, nth_error_app2 by lia.
  now rewrite Nat.sub_diag.
Qed.

Lemma len_app {A} (a b : list A) : len (a ++ b) = len a + len b.
Proof. unfold len. rewrite length_app. lia. Qed.

Lemma len_cons {A} (x : A) l : len (x :: l) = len l + 1.
Proof. unfold len. cbn [length]. lia. Qed.

Lemma nth_error_slice {A} (df : list A) s e o :
  0 <= s -> (o < Z.to_nat (e - s))%nat ->
  nth_error (iloc_slice df s e) o = iloc df (s + Z.of_nat o).
Proof.
  intros Hs Ho. unfold iloc_slice.
  rewrite nth_error_firstn.
  destruct (Nat.ltb_spec o (Z.to_nat (e - s))); [| lia].
  rewrite nth_error_skipn, iloc_nonneg by lia.
  f_equal. lia.
Qed.

Lemma slice_In {A} (df : list A) s e r :
  0 <= s ->
  In r (iloc_slice df s e) ->
  exists k, s <= k < e /\ iloc df k = Some r.
Proof.
  intros Hs Hr. apply In_nth_error in Hr. destruct Hr as (o & Ho).
  assert (Hlt : (o < Z.to_nat (e - s))%nat).
  { assert (H : nth_error (iloc_slice df s e) o <> None) by congruence.
    apply nth_error_Some in H. unfold iloc_slice in H.
    rewrite length_firstn in H. lia. }
  rewrite nth_error_slice in Ho by assumption.
  exists (s + Z.of_nat o). split; [lia | exact Ho].
Qed.

Lemma len_nonneg {A} (l : list A) : 0 <= len l.
Proof. unfold len. lia. Qed.

Lemma iloc_cons_succ {A} (x : A) l i :
  0 <= i -> iloc (x :: l) (i + 1) = iloc l i.
Proof.
  intros H. rewrite !iloc_nonneg by lia.
  replace (Z.to_nat (i + 1)) with (S (Z.to_nat i)) by lia. reflexivity.
Qed.

Lemma iloc_skipn {A} (l : list A) a k :
  0 <= a -> 0 <= k -> iloc (skipn (Z.to_nat a) l) k = iloc l (a + k).
Proof.
  intros Ha Hk. rewrite !iloc_nonneg by lia.
  rewrite nth_error_skipn. f_equal. lia.
Qed.

Lemma len_skipn {A} (l : list A) a :
  0 <= a <= len l -> len (skipn (Z.to_nat a) l) = len l - a.
Proof. intros H. unfold len in *. rewrite length_skipn. lia. Qed.

Lemma iloc_map {A B} (f : A -> B) l i :
  iloc (map f l) i = option_map f (iloc l i).
Proof.
  unfold iloc, len. rewrite length_map.
  destruct (i <? 0); [destruct (_ <? 0); [reflexivity |] |];
    apply nth_error_map.
Qed.

End FrameFacts.

(** ** Pre-processing *)

Module PreprocessFacts.
Import Frame Preprocess FrameFacts.

Lemma mask_range_in_range v : opt_in_range (mask_range v).
Proof.
  destruct v as [x |]; cbn; [| exact I].
  destruct (Py.Qltb x (-1)) eqn:E1; [exact I |].
  destruct (Py.Qltb 1 x) eqn:E2; [exact I |].
  apply PyFacts.Qltb_ge in E1, E2. split; assumption.
Qed.

Lemma next_valid_spec l j w :
  Forall opt_in_range l -> next_valid l = Some (j, w) ->
  1 <= j /\ in_range w.
Proof.
  revert j w. induction l as [| [x |] l IH]; intros j w Hl; cbn.
  - discriminate.
  - intros [= <- <-]. inversion Hl; subst. split; [lia | assumption].
  - destruct (next_valid l) as [[j' w'] |]; [| discriminate].
    intros [= <- <-]. inversion Hl; subst.
    destruct (IH j' w' H2 eq_refl). split; [lia | assumption].
Qed.

Lemma between_in_range v w k j :
  in_range v -> in_range w -> 1 <= k -> 1 <= j ->
  in_range (v + (w - v) * inject_Z k / inject_Z (k + j))%Q.
Proof.
  intros [Hv1 Hv2] [Hw1 Hw2] Hk Hj.
  assert (Hk' : (0 < inject_Z k)%Q) by (rewrite <- (Zlt_Qlt 0); lia).
  assert (Hj' : (0 < inject_Z j)%Q) by (rewrite <- (Zlt_Qlt 0); lia).
  rewrite inject_Z_plus.
  set (a := inject_Z k) in *. set (b := inject_Z j) in *.
  assert (Hab : (0 < a + b)%Q) by lra.
  assert (E : (v + (w - v) * a / (a + b) == (v * b + w * a) / (a + b))%Q).
  { field. lra. }
  unfold in_range. rewrite E. split.
  - apply Qle_shift_div_l; [exact Hab |]. nra.
  - apply Qle_shift_div_r; [exact Hab |]. nra.
Qed.

Lemma interpolate_from_length limit l :
  forall prev, length (interpolate_from limit prev l) = length l.
Proof.
  induction l as [| [x |] l IH]; intros prev; cbn; [reflexivity | |].
  - now rewrite IH.
  - destruct prev as [[v k] |]; cbn; now rewrite IH.
Qed.

Lemma interpolate_from_in_range limit l :
  Forall opt_in_range l ->
  forall prev,
    match prev with Some (v, k) => in_range v /\ 0 <= k | None => True end ->
    Forall opt_in_range (interpolate_from limit prev l).
Proof.
  induction 1 as [| [x |] l Hx Hl IH]; intros prev Hprev; cbn.
  - constructor.
  - constructor; [exact Hx |]. apply IH. split; [exact Hx | lia].
  - destruct prev as [[v k] |].
    + destruct Hprev as [Hv Hk]. constructor.
      * destruct (k + 1 <=? limit); [| exact I].
        destruct (next_valid l) as [[j w] |] eqn:E; [| exact Hv].
        destruct (next_valid_spec _ _ _ Hl E) as [Hj Hw].
        apply between_in_range; auto; lia.
      * apply IH. split; [exact Hv | lia].
    + constructor; [exact I |]. now apply IH.
Qed.

Lemma interpolate_length limit l : length (interpolate limit l) = length l.
Proof. apply interpolate_from_length. Qed.

Lemma interpolate_in_range limit l :
  Forall opt_in_range (interpolate limit (map mask_range l)).
Proof.
  apply interpolate_from_in_range; [| exact I].
  apply Forall_forall. intros v Hv. apply in_map_iff in Hv.
  destruct Hv as (u & <- & _). apply mask_range_in_range.
Qed.

Lemma assign_spec df :
  forall n e,
    length n = length df -> length e = length df ->
    map raw_date (assign df n e) = map raw_date df /\
    map raw_label (assign df n e) = map raw_label df /\
    map raw_ndvi (assign df n e) = n /\
    map raw_evi (assign df n e) = e.
Proof.
  unfold assign.
  induction df as [| r df IH]; intros [| x n] [| y e] Hn He;
    try discriminate; cbn.
  - repeat split.
  - injection Hn as Hn. injection He as He.
    destruct (IH n e Hn He) as (H1 & H2 & H3 & H4).
    rewrite H1, H2, H3, H4. repeat split.
Qed.

Lemma numbers_length df : (length (numbers df) <= length df)%nat.
Proof.
  unfold numbers. induction df as [| r df IH]; cbn; [lia |].
  rewrite length_app. destruct (raw_ndvi r), (raw_evi r); cbn; lia.
Qed.

Lemma numbers_In c df :
  In c (numbers df) ->
  exists r,
    In r df /\ raw_label r = clean_label c /\ raw_date r = clean_date c /\
    raw_ndvi r = Some (clean_ndvi c) /\ raw_evi r = Some (clean_evi c).
Proof.
  unfold numbers. rewrite in_flat_map. intros (r & Hr & Hc). exists r.
  destruct (raw_ndvi r) as [n |] eqn:En, (raw_evi r) as [e |] eqn:Ee;
    cbn in Hc; try contradiction.
  destruct Hc as [<- | []]. cbn. repeat split; assumption.
Qed.

Lemma numbers_sorted (R : Date.date -> Date.date -> Prop) df :
  StronglySorted R (map raw_date df) ->
  StronglySorted R (map clean_date (numbers df)).
Proof.
  induction df as [| r df IH]; cbn; intros H; [constructor |].
  inversion H as [| ? ? Hs Hr]; subst. specialize (IH Hs).
  fold (numbers df).
  destruct (raw_ndvi r), (raw_evi r); cbn; try exact IH.
  constructor; [exact IH |].
  rewrite Forall_forall in *. intros d Hd. apply Hr.
  apply in_map_iff in Hd. destruct Hd as (c & <- & Hc).
  apply numbers_In in Hc. destruct Hc as (r' & Hr' & _ & <- & _).
  now apply in_map.
Qed.

(** *** The two ways out of [_clean_time_series] *)

Lemma numbers_dropna df : numbers (dropna df) = numbers df.
Proof.
  unfold numbers, dropna, present.
  induction df as [| r df IH]; [reflexivity |]. cbn.
  destruct (raw_ndvi r) as [n |] eqn:En, (raw_evi r) as [e |] eqn:Ee; cbn;
    rewrite ?En, ?Ee; cbn; now rewrite IH.
Qed.

Lemma dropna_present df : Forall (fun r => present r = true) (dropna df).
Proof.
  apply Forall_forall. intros r Hr. now apply filter_In in Hr.
Qed.

Lemma object_column column :
  float64 column = false -> Forall (fun v => v = None) column.
Proof.
  unfold float64. induction column as [| [x |] column IH]; cbn; intros H;
    [constructor | discriminate | constructor; auto].
Qed.

Lemma mask_range_missing column :
  Forall (fun v => v = None) column ->
  Forall (fun v => v = None) (map mask_range column).
Proof.
  induction 1 as [| v column -> _ IH]; cbn; constructor; auto.
Qed.

Lemma interpolate_missing limit column :
  Forall (fun v => v = None) column ->
  Forall (fun v => v = None) (interpolate limit column).
Proof.
  unfold interpolate.
  induction 1 as [| v column -> _ IH]; cbn; constructor; auto.
Qed.

Lemma assign_length df n e :
  length n = length df -> length e = length df ->
  length (assign df n e) = length df.
Proof.
  intros Hn He. unfold assign.
  rewrite length_map, !length_combine. lia.
Qed.

Lemma assign_missing df :
  forall n e,
    Forall (fun v => v = None) n \/ Forall (fun v => v = None) e ->
    Forall (fun r => present r = false) (assign df n e).
Proof.
  unfold assign, present.
  induction df as [| r df IH]; intros [| vn n] [| ve e] H; cbn;
    try constructor.
  - cbn. destruct H as [H | H]; inversion H; subst; [reflexivity |].
    now destruct vn.
  - apply IH. destruct H as [H | H]; inversion H; auto.
Qed.

Lemma numbers_missing df :
  Forall (fun r => present r = false) df -> numbers df = [].
Proof.
  unfold numbers, present.
  induction 1 as [| r df Hr _ IH]; [reflexivity |]. cbn.
  destruct (raw_ndvi r), (raw_evi r); try discriminate; exact IH.
Qed.

(** When both columns hold a number, no statement raises: the missing
    values are interpolated and the rows that still miss one are
    dropped. *)
Lemma clean_ran df :
  float64 (map raw_ndvi df) = true -> float64 (map raw_evi df) = true ->
  _clean_time_series df = dropna (interpolated df) /\
  Forall (fun r => present r = true) (_clean_time_series df).
Proof.
  intros Hn He. unfold _clean_time_series, interpolated.
  rewrite Hn, He. split; [reflexivity | apply dropna_present].
Qed.

(** When a column holds no number, [interpolate] raises on it and the
    [except] clause returns every row, each with a missing cell. *)
Lemma clean_returned df :
  float64 (map raw_ndvi df) && float64 (map raw_evi df) = false ->
  length (_clean_time_series df) = length df /\
  Forall (fun r => present r = false) (_clean_time_series df) /\
  numbers (_clean_time_series df) = [].
Proof.
  intros H. unfold _clean_time_series.
  assert (Hframe :
    forall n e,
      length n = length df -> length e = length df ->
      Forall (fun v => v = None) n \/ Forall (fun v => v = None) e ->
      length (assign df n e) = length df /\
      Forall (fun r => present r = false) (assign df n e) /\
      numbers (assign df n e) = []).
  { intros n e Ln Le Hmiss. split; [now apply assign_length |].
    pose proof (assign_missing df n e Hmiss) as Hm.
    split; [exact Hm | now apply numbers_missing]. }
  destruct (float64 (map raw_ndvi df)) eqn:Hn.
  - destruct (float64 (map raw_evi df)) eqn:He; [discriminate |].
    apply Hframe;
      [now rewrite interpolate_length, !length_map
      | now rewrite !length_map |].
    right. now apply mask_range_missing, object_column.
  - apply Hframe; [now rewrite !length_map .. |].
    left. now apply mask_range_missing, object_column.
Qed.

(** Read as rows of numbers, the cleaned frame is the interpolated frame
    on both ways out. *)
Lemma clean_numbers df :
  numbers (_clean_time_series df) = numbers (interpolated df).
Proof.
  destruct (float64 (map raw_ndvi df) && float64 (map raw_evi df)) eqn:H.
  - apply andb_true_iff in H as (Hn & He).
    destruct (clean_ran df Hn He) as (-> & _). apply numbers_dropna.
  - destruct (clean_returned df H) as (_ & _ & ->). symmetry.
    apply numbers_missing. unfold interpolated. apply assign_missing.
    apply andb_false_iff in H as [H | H]; [left | right];
      now apply interpolate_missing, mask_range_missing, object_column.
Qed.

Lemma clean_values_in_range df c :
  In c (numbers (_clean_time_series df)) ->
  in_range (clean_ndvi c) /\ in_range (clean_evi c).
Proof.
  rewrite clean_numbers. unfold interpolated.
  intros Hc. apply numbers_In in Hc.
  destruct Hc as (r & Hr & _ & _ & Hn & He).
  destruct (assign_spec df
              (interpolate 3 (map mask_range (map raw_ndvi df)))
              (interpolate 3 (map mask_range (map raw_evi df))))
    as (_ & _ & En & Ee);
    [now rewrite interpolate_length, !length_map .. |].
  pose proof (interpolate_in_range 3 (map raw_ndvi df)) as Rn.
  pose proof (interpolate_in_range 3 (map raw_evi df)) as Re.
  rewrite <- En in Rn. rewrite <- Ee in Re.
  rewrite Forall_forall in Rn, Re. split.
  - specialize (Rn (raw_ndvi r) (in_map _ _ _ Hr)). now rewrite Hn in Rn.
  - specialize (Re (raw_evi r) (in_map _ _ _ Hr)). now rewrite He in Re.
Qed.

Lemma clean_dates_sorted (R : Date.date -> Date.date -> Prop) df :
  StronglySorted R (map raw_date df) ->
  StronglySorted R (map clean_date (numbers (_clean_time_series df))).
Proof.
  intros H. rewrite clean_numbers. unfold interpolated.
  apply numbers_sorted.
  destruct (assign_spec df
              (interpolate 3 (map mask_range (map raw_ndvi df)))
              (interpolate 3 (map mask_range (map raw_evi df))))
    as (-> & _);
    [now rewrite interpolate_length, !length_map .. | exact H].
Qed.

Lemma clean_length df :
  (length (numbers (_clean_time_series df)) <= length df)%nat.
Proof.
  rewrite clean_numbers. unfold interpolated.
  etransitivity; [apply numbers_length |].
  unfold assign. rewrite length_map, !length_combine, !interpolate_length,
    !length_map. lia.
Qed.

Lemma range_length n : length (range n) = Z.to_nat n.
Proof. unfold range. now rewrite length_map, length_seq. Qed.

Lemma savgol_filter_length x w : length (savgol_filter x w) = length x.
Proof.
  unfold savgol_filter. rewrite length_map, range_length. unfold len. lia.
Qed.

Lemma with_smooth_spec df :
  forall a b,
    length a = length df -> length b = length df ->
    map date (with_smooth df a b) = map clean_date df /\
    map label (with_smooth df a b) = map clean_label df /\
    map ndvi (with_smooth df a b) = map clean_ndvi df /\
    map evi (with_smooth df a b) = map clean_evi df /\
    map ndvi_smooth (with_smooth df a b) = a /\
    map evi_smooth (with_smooth df a b) = b.
Proof.
  unfold with_smooth.
  induction df as [| r df IH]; intros [| x a] [| y b] Ha Hb;
    try discriminate; cbn.
  - repeat split.
  - injection Ha as Ha. injection Hb as Hb.
    destruct (IH a b Ha Hb) as (H1 & H2 & H3 & H4 & H5 & H6).
    rewrite H1, H2, H3, H4, H5, H6. repeat split.
Qed.

Lemma smooth_columns df :
  map date (_smooth_time_series df) = map clean_date df /\
  map label (_smooth_time_series df) = map clean_label df /\
  map ndvi (_smooth_time_series df) = map clean_ndvi df /\
  map evi (_smooth_time_series df) = map clean_evi df.
Proof.
  unfold _smooth_time_series.
  destruct (5 <=? window_length_of (len df)).
  - destruct (with_smooth_spec df
                (savgol_filter (map clean_ndvi df) (window_length_of (len df)))
                (savgol_filter (map clean_evi df) (window_length_of (len df))))
      as (H1 & H2 & H3 & H4 & _);
      [now rewrite savgol_filter_length, length_map .. |].
    repeat split; assumption.
  - destruct (with_smooth_spec df (map clean_ndvi df) (map clean_evi df))
      as (H1 & H2 & H3 & H4 & _); [now rewrite length_map .. |].
    repeat split; assumption.
Qed.

Lemma smooth_short df :
  len df < 12 ->
  map ndvi_smooth (_smooth_time_series df) = map clean_ndvi df /\
  map evi_smooth (_smooth_time_series df) = map clean_evi df.
Proof.
  intros Hn. unfold _smooth_time_series.
  assert (E : (5 <=? window_length_of (len df)) = false).
  { apply Z.leb_gt. unfold window_length_of.
    assert (0 <= len df) by (unfold len; lia).
    assert (len df / 3 <= 3) by (Z.div_mod_to_equations; lia).
    destruct (Z.eqb_spec ((Z.min 11 (len df / 3)) mod 2) 0);
      Z.div_mod_to_equations; lia. }
  rewrite E.
  destruct (with_smooth_spec df (map clean_ndvi df) (map clean_evi df))
    as (_ & _ & _ & _ & H5 & H6); [now rewrite length_map .. |].
  split; assumption.
Qed.

Lemma insert_by_date_perm x l : Permutation (insert_by_date x l) (x :: l).
Proof.
  induction l as [| y l IH]; cbn; [reflexivity |].
  destruct (Date.leb (obs_date x) (obs_date y)); [reflexivity |].
  rewrite IH. apply perm_swap.
Qed.

Lemma sort_values_perm l : Permutation (sort_values l) l.
Proof.
  induction l as [| x l IH]; cbn; [reflexivity |].
  rewrite insert_by_date_perm. now constructor.
Qed.

Lemma insert_by_date_sorted x l :
  StronglySorted date_le (map obs_date l) ->
  StronglySorted date_le (map obs_date (insert_by_date x l)).
Proof.
  induction l as [| y l IH]; cbn; intros H.
  - repeat constructor.
  - inversion H as [| ? ? Hs Hy]; subst.
    destruct (Date.leb (obs_date x) (obs_date y)) eqn:E; cbn.
    + constructor; [exact H |].
      constructor; [exact E |].
      eapply Forall_impl; [| exact Hy].
      intros z Hz. eapply DateFacts.leb_trans; eassumption.
    + constructor; [now apply IH |].
      rewrite (Permutation_map obs_date (insert_by_date_perm x l)). cbn.
      constructor; [| exact Hy].
      destruct (DateFacts.leb_total (obs_date x) (obs_date y));
        [congruence | assumption].
Qed.

Lemma sort_values_sorted l :
  StronglySorted date_le (map obs_date (sort_values l)).
Proof.
  induction l; cbn; [constructor | now apply insert_by_date_sorted].
Qed.

Lemma map_snd_combine {A B} (a : list A) :
  forall b : list B, length a = length b -> map snd (combine a b) = b.
Proof.
  induction a as [| x a IH]; intros [| y b] H; try discriminate; cbn;
    [reflexivity |].
  f_equal. apply IH. now injection H.
Qed.

Lemma reset_index_dates l : map raw_date (reset_index l) = map obs_date l.
Proof.
  unfold reset_index. rewrite map_map. cbn.
  rewrite <- (map_map snd obs_date), map_snd_combine; [reflexivity |].
  rewrite range_length. unfold len. lia.
Qed.

Lemma reset_index_length l : length (reset_index l) = length l.
Proof.
  unfold reset_index.
  rewrite length_map, length_combine, range_length. unfold len. lia.
Qed.

Lemma DataFrame_sorted ts :
  StronglySorted date_le (map raw_date (DataFrame ts)).
Proof.
  unfold DataFrame. rewrite reset_index_dates. apply sort_values_sorted.
Qed.

Lemma DataFrame_length ts : length (DataFrame ts) = length ts.
Proof.
  unfold DataFrame. rewrite reset_index_length.
  apply Permutation_length, sort_values_perm.
Qed.

Lemma StronglySorted_map {A B} (f : A -> B) (R : B -> B -> Prop) l :
  StronglySorted R (map f l) <-> StronglySorted (fun a b => R (f a) (f b)) l.
Proof.
  induction l as [| x l IH]; cbn; split; intros H; try constructor;
    inversion H; subst; try (now apply IH).
  - rewrite Forall_map in *. assumption.
  - rewrite Forall_map. assumption.
Qed.

Lemma raw_ext (a : list raw) :
  forall b,
    map raw_label a = map raw_label b -> map raw_date a = map raw_date b ->
    map raw_ndvi a = map raw_ndvi b -> map raw_evi a = map raw_evi b ->
    a = b.
Proof.
  induction a as [| [l d n e] a IH]; intros [| [l' d' n' e'] b];
    cbn; intros Hl Hd Hn He; try discriminate; [reflexivity |].
  injection Hl as -> Hl. injection Hd as -> Hd.
  injection Hn as -> Hn. injection He as -> He.
  f_equal. now apply IH.
Qed.

Lemma numbers_columns df :
  Forall (fun r => present r = true) df ->
  map clean_label (numbers df) = map raw_label df /\
  map clean_date (numbers df) = map raw_date df /\
  map Some (map clean_ndvi (numbers df)) = map raw_ndvi df /\
  map Some (map clean_evi (numbers df)) = map raw_evi df.
Proof.
  unfold numbers, present.
  induction 1 as [| r df Hr _ (Il & Id & In' & Ie)]; [now repeat split |].
  cbn. destruct (raw_ndvi r), (raw_evi r); try discriminate. cbn.
  now rewrite Il, Id, In', Ie.
Qed.

(** A frame without a missing cell is given back by smoothing its rows of
    numbers and forgetting the smoothed columns. *)
Lemma unsmoothed_smooth df :
  Forall (fun r => present r = true) df ->
  map unsmoothed (_smooth_time_series (numbers df)) = df.
Proof.
  intros H.
  destruct (smooth_columns (numbers df)) as (Hd & Hl & Hn & He).
  destruct (numbers_columns df H) as (Cl & Cd & Cn & Ce).
  apply raw_ext; rewrite map_map.
  - rewrite <- Cl, <- Hl. now apply map_ext.
  - rewrite <- Cd, <- Hd. now apply map_ext.
  - rewrite <- Cn, <- Hn, map_map. now apply map_ext.
  - rewrite <- Ce, <- He, map_map. now apply map_ext.
Qed.

(** C5, as stated, fails: two observations of one day are both kept, so the
    dates are not strictly ascending; the smoothed NDVI of a series whose
    values all lie in [-1, 1] exceeds 1; without the sort of the callers,
    cleaning and smoothing keep the rows in the order given; and when no
    observation holds a value, [interpolate] raises and cleaning returns
    the rows with their missing values. *)
Lemma preprocess_not_strict_nor_bounded :
  (exists i a b,
      nth_error (preprocess repeated_day) i = Some a /\
      nth_error (preprocess repeated_day) (S i) = Some b /\
      date a = date b) /\
  (exists r, In r (preprocess plateau) /\ ~ in_range (ndvi_smooth r)) /\
  (exists a b,
      _smooth_time_series
        (numbers (_clean_time_series (reset_index later_first)))
      = [a; b] /\
      Date.ltb (date b) (date a) = true) /\
  _clean_time_series (DataFrame all_missing)
  = [ mkRaw 0 (Date.mkDate 2024 1 1) None None;
      mkRaw 1 (Date.mkDate 2024 1 17) None None ].
Proof.
  split; [| split; [| split]].
  - exists 0%nat. eexists. eexists.
    split; [vm_compute; reflexivity |].
    split; [vm_compute; reflexivity | reflexivity].
  - eexists. split.
    + vm_compute. do 6 right. left. reflexivity.
    + intros [_ H]. vm_compute in H. apply H. reflexivity.
  - eexists. eexists. split; [vm_compute; reflexivity | reflexivity].
  - reflexivity.
Qed.

(** C5, amended: for every raw observation sequence, the rows of numbers
    of the series produced by the callers' sort followed by
    [_clean_time_series] and [_smooth_time_series] have their dates in
    ascending order (equal dates are kept), every [ndvi] and [evi] in
    [-1, 1], and are at most as many as the input; [ndvi_smooth] and
    [evi_smooth] are the unsmoothed columns when fewer than 12 rows remain,
    and are not clipped otherwise.  When each of the two columns holds a
    number, these rows are the whole cleaned frame, which has no missing
    value; when a column holds none, cleaning returns every row of the
    input, each with a missing value. *)
Theorem preprocess_invariants (time_series : list observation) :
  let df := DataFrame time_series in
  let cleaned := _clean_time_series df in
  let out := preprocess time_series in
  StronglySorted (fun a b => date_le (date a) (date b)) out /\
  Forall (fun r => in_range (ndvi r) /\ in_range (evi r)) out /\
  (length out <= length time_series)%nat /\
  (len out < 12 ->
   Forall (fun r => ndvi_smooth r = ndvi r /\ evi_smooth r = evi r) out) /\
  (float64 (map raw_ndvi df) = true -> float64 (map raw_evi df) = true ->
   Forall (fun r => present r = true) cleaned /\
   cleaned = map unsmoothed out) /\
  (float64 (map raw_ndvi df) && float64 (map raw_evi df) = false ->
   length cleaned = length time_series /\
   Forall (fun r => present r = false) cleaned /\ out = []).
Proof.
  intros df cleaned out. unfold out, preprocess. fold df. fold cleaned.
  set (c := numbers cleaned).
  destruct (smooth_columns c) as (Hd & Hl & Hn & He).
  assert (Hlen : length (_smooth_time_series c) = length c).
  { rewrite <- (length_map date), Hd, length_map. reflexivity. }
  split; [| split; [| split; [| split; [| split]]]].
  - apply StronglySorted_map. rewrite Hd.
    apply clean_dates_sorted, DataFrame_sorted.
  - apply Forall_forall. intros r Hr.
    pose proof (in_map ndvi _ _ Hr) as H1. rewrite Hn in H1.
    pose proof (in_map evi _ _ Hr) as H2. rewrite He in H2.
    apply in_map_iff in H1, H2.
    destruct H1 as (c1 & <- & Hc1), H2 as (c2 & <- & Hc2).
    split; [apply (clean_values_in_range df c1 Hc1)
           | apply (clean_values_in_range df c2 Hc2)].
  - rewrite Hlen, <- (DataFrame_length time_series). apply clean_length.
  - intros Hshort.
    assert (Hc : len c < 12) by (unfold len in *; lia).
    destruct (smooth_short c Hc) as [Sn Se].
    rewrite <- Hn in Sn. rewrite <- He in Se.
    revert Sn Se. generalize (_smooth_time_series c).
    induction l as [| r l IH]; cbn; intros Sn Se; constructor.
    + injection Sn as Sn _. injection Se as Se _. split; assumption.
    + injection Sn as _ Sn. injection Se as _ Se. now apply IH.
  - intros Fn Fe. destruct (clean_ran df Fn Fe) as (_ & Hp).
    split; [exact Hp |]. symmetry. now apply unsmoothed_smooth.
  - intros Hobj. destruct (clean_returned df Hobj) as (Hl' & Hm & Hnone).
    split; [unfold cleaned; rewrite Hl'; apply DataFrame_length |].
    split; [exact Hm |].
    unfold c, cleaned. now rewrite Hnone.
Qed.

Lemma map_fst_combine {A B} (a : list A) :
  forall b : list B, length a = length b -> map fst (combine a b) = a.
Proof.
  induction a as [| x a IH]; intros [| y b] H; try discriminate; cbn;
    [reflexivity |].
  f_equal. apply IH. now injection H.
Qed.

Lemma reset_index_labels l : map raw_label (reset_index l) = range (len l).
Proof.
  unfold reset_index. rewrite map_map. cbn.
  rewrite <- (map_map fst (fun x => x)), map_id, map_fst_combine;
    [reflexivity |].
  rewrite range_length. unfold len. lia.
Qed.

Lemma numbers_full df :
  length (numbers df) = length df ->
  map clean_label (numbers df) = map raw_label df.
Proof.
  induction df as [| r df IH]; [reflexivity |].
  pose proof (numbers_length df) as Hle.
  change (numbers (r :: df))
    with ((match raw_ndvi r, raw_evi r with
           | Some n, Some e => [mkClean (raw_label r) (raw_date r) n e]
           | _, _ => []
           end) ++ numbers df).
  destruct (raw_ndvi r), (raw_evi r); cbn; intros H; try lia.
  f_equal. apply IH. lia.
Qed.

Lemma iloc_range n i : 0 <= i < n -> iloc (range n) i = Some i.
Proof.
  intros H. rewrite iloc_nonneg by lia. unfold range.
  rewrite nth_error_map.
  rewrite (nth_error_nth' _ 0%nat) by (rewrite length_seq; lia).
  rewrite seq_nth by lia. cbn. f_equal. lia.
Qed.

Lemma labels_of_full_frame ts :
  length (preprocess ts) = length ts ->
  map label (preprocess ts) = range (len ts).
Proof.
  intros H. unfold preprocess in *. rewrite clean_numbers in *.
  destruct (smooth_columns (numbers (interpolated (DataFrame ts))))
    as (Hd & Hl & _).
  rewrite Hl.
  assert (Hlen : length (numbers (interpolated (DataFrame ts)))
                 = length (DataFrame ts)).
  { rewrite <- (length_map label), Hl, length_map in H.
    rewrite DataFrame_length. exact H. }
  unfold interpolated in *.
  set (df := DataFrame ts) in *.
  set (n := interpolate 3 (map mask_range (map raw_ndvi df))) in *.
  set (e := interpolate 3 (map mask_range (map raw_evi df))) in *.
  destruct (assign_spec df n e) as (_ & Hlab & _);
    [unfold n; now rewrite interpolate_length, !length_map
    | unfold e; now rewrite interpolate_length, !length_map |].
  rewrite numbers_full.
  - rewrite Hlab. unfold df, DataFrame. rewrite reset_index_labels.
    f_equal. unfold len. f_equal.
    apply Permutation_length, sort_values_perm.
  - rewrite Hlen. unfold assign.
    rewrite length_map, !length_combine. unfold n, e.
    rewrite !interpolate_length, !length_map. lia.
Qed.

(** When cleaning drops no row, the labels of the frame are consecutive. *)
Lemma full_frame_contiguous ts :
  length (preprocess ts) = length ts ->
  Threshold.contiguous (preprocess ts).
Proof.
  intros H i r r' Hi Hr Hr'.
  pose proof (labels_of_full_frame ts H) as Hl.
  assert (Hb : i + 1 < len (preprocess ts))
    by (eapply iloc_Some_bound; [lia | exact Hr']).
  assert (Hn : len (preprocess ts) = len ts) by (unfold len; now rewrite H).
  pose proof (iloc_map label (preprocess ts) i) as E.
  pose proof (iloc_map label (preprocess ts) (i + 1)) as E'.
  rewrite Hl, Hr, iloc_range in E by lia.
  rewrite Hl, Hr', iloc_range in E' by lia.
  cbn in E, E'. injection E as E. injection E' as E'. lia.
Qed.

End PreprocessFacts.

(** ** The detectors *)

Module ThresholdFacts.
Import Frame FrameFacts.
Import Threshold.

Lemma find_periods_all_false mask :
  Forall (fun b => b = false) mask ->
  forall i periods,
    find_periods_from mask i None periods = (periods, None).
Proof.
  induction 1 as [| b mask Hb _ IH]; intros i periods; cbn;
    [reflexivity |].
  subst b. apply IH.
Qed.

Lemma no_periods_all_false mask :
  Forall (fun b => b = false) mask -> _find_continuous_periods mask = [].
Proof.
  intros H. unfold _find_continuous_periods.
  now rewrite find_periods_all_false.
Qed.

Lemma find_periods_from_runs M mask :
  forall pre start_idx periods,
    M = pre ++ mask ->
    open_run M (len pre) start_idx ->
    Forall (fun p => is_run M (fst p) (snd p)) periods ->
    Forall (fun p => is_run M (fst p) (snd p))
      (fst (find_periods_from mask (len pre) start_idx periods)) /\
    open_run M (len M)
      (snd (find_periods_from mask (len pre) start_idx periods)).
Proof.
  induction mask as [| b mask IH]; intros pre start_idx periods HM Hopen Hp.
  - cbn. rewrite app_nil_r in HM. subst pre. now split.
  - assert (Hb : iloc M (len pre) = Some b) by (subst M; apply iloc_app_head).
    assert (HM' : M = (pre ++ [b]) ++ mask) by (now rewrite <- app_assoc).
    assert (Hlen : len (pre ++ [b]) = len pre + 1)
      by (rewrite len_app; reflexivity).
    assert (Hi : 0 <= len pre) by (unfold len; lia).
    assert (HiM : len pre < len M).
    { subst M. rewrite len_app, len_cons. unfold len. lia. }
    cbn [find_periods_from].
    destruct b, start_idx as [s |]; rewrite <- Hlen.
    + (* the run goes on *)
      apply IH; auto. rewrite Hlen. destruct Hopen as (Hs & Hall & Hleft).
      split; [lia |]. split; [| exact Hleft].
      intros k Hk. destruct (Z.eq_dec k (len pre)) as [-> | ?];
        [exact Hb | apply Hall; lia].
    + (* a run opens *)
      apply IH; auto. rewrite Hlen. split; [lia |]. split.
      * intros k Hk. replace k with (len pre) by lia. exact Hb.
      * destruct Hopen as [H0 | Hprev]; [left; exact H0 | right; exact Hprev].
    + (* the run closes *)
      apply IH; auto.
      * rewrite Hlen. right.
        now replace (len pre + 1 - 1) with (len pre) by lia.
      * apply Forall_app. split; [exact Hp |]. constructor; [| constructor].
        destruct Hopen as (Hs & Hall & Hleft). cbn [fst snd].
        split; [lia |]. split; [lia |]. split; [| split].
        -- intros k Hk. apply Hall. lia.
        -- exact Hleft.
        -- right. now replace (len pre - 1 + 1) with (len pre) by lia.
    + (* no run *)
      apply IH; auto.
      rewrite Hlen. right. now replace (len pre + 1 - 1) with (len pre) by lia.
Qed.

Lemma periods_are_runs mask :
  Forall (fun p => is_run mask (fst p) (snd p)) (_find_continuous_periods mask).
Proof.
  unfold _find_continuous_periods.
  pose proof (find_periods_from_runs mask mask [] None [] eq_refl
                (or_introl eq_refl) (Forall_nil _)) as [Hruns Hopen].
  change (len []) with 0 in *.
  destruct (find_periods_from mask 0 None []) as [periods start_idx].
  cbn [fst snd] in *.
  destruct start_idx as [s |]; [| exact Hruns].
  apply Forall_app. split; [exact Hruns |]. constructor; [| constructor].
  destruct Hopen as (Hs & Hall & Hleft). cbn [fst snd].
  split; [lia |]. split; [lia |]. split; [| split].
  - intros k Hk. apply Hall. lia.
  - exact Hleft.
  - now left.
Qed.

Lemma first_max_spec (f : row -> Q) l :
  forall best,
    exists o,
      nth_error (best :: l) o = Some (first_max f best l) /\
      forall r, In r (best :: l) -> (f r <= f (first_max f best l))%Q.
Proof.
  induction l as [| x l IH]; intros best; cbn [first_max].
  - exists 0%nat. split; [reflexivity |].
    intros r [<- | []]. apply Qle_refl.
  - destruct (Py.Qltb (f best) (f x)) eqn:E.
    + destruct (IH x) as (o & Ho & Hmax). exists (S o). split; [exact Ho |].
      intros r [<- | Hr]; [| now apply Hmax].
      apply PyFacts.Qltb_lt in E.
      eapply Qle_trans; [apply Qlt_le_weak, E | apply Hmax; now left].
    + destruct (IH best) as (o & Ho & Hmax).
      destruct o as [| o].
      * exists 0%nat. split; [exact Ho |].
        intros r [<- | [<- | Hr]].
        -- apply Hmax. now left.
        -- apply PyFacts.Qltb_ge in E.
           eapply Qle_trans; [exact E | apply Hmax; now left].
        -- apply Hmax. now right.
      * exists (S (S o)). split; [exact Ho |].
        intros r [<- | [<- | Hr]].
        -- apply Hmax. now left.
        -- apply PyFacts.Qltb_ge in E.
           eapply Qle_trans; [exact E | apply Hmax; now left].
        -- apply Hmax. now right.
Qed.

Lemma contiguous_labels df :
  contiguous df ->
  forall (o : nat) i r r',
    0 <= i -> iloc df i = Some r -> iloc df (i + Z.of_nat o) = Some r' ->
    label r' = label r + Z.of_nat o.
Proof.
  intros Hc. induction o as [| o IH]; intros i r r' Hi Hr Hr'.
  - replace (i + Z.of_nat 0) with i in Hr' by lia.
    rewrite Hr in Hr'. injection Hr' as <-. lia.
  - assert (Hb : i + Z.of_nat (S o) < len df)
      by (eapply iloc_Some_bound; [lia | exact Hr']).
    destruct (iloc_in_bounds df (i + Z.of_nat o) ltac:(lia)) as (m & Hm).
    pose proof (IH i r m Hi Hr Hm) as E.
    replace (i + Z.of_nat (S o)) with (i + Z.of_nat o + 1) in Hr' by lia.
    rewrite (Hc (i + Z.of_nat o) m r' ltac:(lia) Hm Hr'). lia.
Qed.

(** On a frame with consecutive labels, the peak position is that of a row
    with the largest value of the slice. *)
Lemma peak_position_contiguous f df s e :
  contiguous df -> 0 <= s <= e -> e < len df ->
  exists p rp,
    peak_position f df s e = Some p /\ s <= p <= e /\
    iloc df p = Some rp /\
    forall k r, s <= k <= e -> iloc df k = Some r -> (f r <= f rp)%Q.
Proof.
  intros Hc Hse He. unfold peak_position.
  destruct (iloc_in_bounds df s ltac:(lia)) as (rs & Hrs).
  assert (H0 : nth_error (iloc_slice df s (e + 1)) 0 = Some rs).
  { rewrite nth_error_slice by lia.
    now replace (s + Z.of_nat 0) with s by lia. }
  destruct (iloc_slice df s (e + 1)) as [| first rest] eqn:Eslice;
    [discriminate |].
  cbn in H0. injection H0 as ->.
  cbn [idxmax index0 Py.bind].
  destruct (first_max_spec f rest rs) as (o & Ho & Hmax).
  set (top := first_max f rs rest) in *.
  assert (Hlt : (o < Z.to_nat (e + 1 - s))%nat).
  { assert (H : nth_error (rs :: rest) o <> None) by congruence.
    apply nth_error_Some in H. rewrite <- Eslice in H.
    unfold iloc_slice in H. rewrite length_firstn in H. lia. }
  rewrite <- Eslice, nth_error_slice in Ho by lia.
  exists (s + Z.of_nat o), top.
  rewrite (contiguous_labels df Hc o s rs top ltac:(lia) Hrs Ho).
  split; [f_equal; lia |]. split; [lia |]. split; [exact Ho |].
  intros k r Hk Hr. apply Hmax. rewrite <- Eslice.
  apply nth_error_In with (n := Z.to_nat (k - s)).
  rewrite nth_error_slice by lia.
  now replace (s + Z.of_nat (Z.to_nat (k - s))) with k by lia.
Qed.

Lemma bloom_mask_length df : len (bloom_mask df) = len df.
Proof. unfold bloom_mask, len. now rewrite length_map. Qed.

Lemma threshold_loop_contiguous df :
  contiguous df ->
  forall periods blooms,
    Forall (fun p => is_run (bloom_mask df) (fst p) (snd p)) periods ->
    Forall (candidate_of_run df) blooms ->
    exists out,
      threshold_loop df periods blooms = Some out /\
      Forall (candidate_of_run df) out.
Proof.
  intros Hc. induction periods as [| [s e] periods IH]; intros blooms Hp Hb.
  - exists blooms. now split.
  - inversion Hp as [| ? ? Hrun Hp']; subst. cbn [fst snd] in Hrun.
    cbn [threshold_loop].
    destruct (Z.leb_spec 2 (e - s)) as [Hlong | Hshort]; [| now apply IH].
    pose proof Hrun as (Hse & He & _). rewrite bloom_mask_length in He.
    destruct (peak_position_contiguous ndvi_smooth df s e Hc Hse He)
      as (p & rp & -> & Hp_in & Hrp & Hmax).
    destruct (iloc_in_bounds df s ltac:(lia)) as (rs & Hrs).
    destruct (iloc_in_bounds df e ltac:(lia)) as (re & Hre).
    cbn [Py.bind]. unfold bloom_of. rewrite Hrs, Hrp, Hre. cbn [Py.bind].
    apply IH; [exact Hp' |].
    apply Forall_app. split; [exact Hb |]. constructor; [| constructor].
    exists s, p, e, rs, rp, re.
    split; [exact Hrun |]. split; [exact Hlong |]. split; [exact Hp_in |].
    split; [exact Hrs |]. split; [exact Hrp |]. split; [exact Hre |].
    split; [exact Hmax |]. cbn. repeat split.
Qed.

(** X14.  On a frame with consecutive labels the threshold detector does
    not raise, and each of its candidates is made of a maximal run of at least
    three samples above both thresholds, with the row of the largest
    smoothed NDVI of the run as its peak. *)
Theorem threshold_candidates_on_contiguous_frame df :
  contiguous df ->
  exists blooms,
    threshold_body df = Some blooms /\
    _detect_threshold_blooms df = blooms /\
    Forall (candidate_of_run df) blooms.
Proof.
  intros Hc.
  destruct (threshold_loop_contiguous df Hc
              (_find_continuous_periods (bloom_mask df)) []
              (periods_are_runs _) (Forall_nil _)) as (out & E & Hout).
  exists out. unfold _detect_threshold_blooms, threshold_body.
  rewrite E. repeat split. exact Hout.
Qed.

End ThresholdFacts.

Module PeakFacts.
Import Frame FrameFacts.
Import Peak.

Lemma get_In x i : 0 <= i < len x -> In (get x i) x.
Proof.
  intros H. unfold get. apply nth_In. unfold len in H. lia.
Qed.

Lemma local_maxima_flat x fuel :
  forall i midpoints,
    1 <= i ->
    (forall a b, In a x -> In b x -> (a == b)%Q) ->
    local_maxima_loop fuel x i (len x - 1) midpoints = midpoints.
Proof.
  induction fuel as [| fuel IH]; intros i midpoints Hi Hx; cbn;
    [reflexivity |].
  destruct (Z.ltb_spec i (len x - 1)); [| reflexivity].
  assert (E : Py.Qltb (get x (i - 1)) (get x i) = false).
  { apply PyFacts.Qltb_ge. apply Qle_lteq. right.
    apply Hx; apply get_In; lia. }
  rewrite E. apply IH; [lia | exact Hx].
Qed.

Lemma no_local_maxima_flat x :
  (forall a b, In a x -> In b x -> (a == b)%Q) -> _local_maxima_1d x = [].
Proof. intros H. apply local_maxima_flat; [lia | exact H]. Qed.

Lemma plateau_end_ge fuel x i i_max :
  forall i_ahead, i_ahead <= plateau_end fuel x i i_ahead i_max.
Proof.
  induction fuel as [| fuel IH]; intros i_ahead; cbn; [lia |].
  destruct (_ && _); [| lia].
  specialize (IH (i_ahead + 1)). lia.
Qed.

(** The inner loop stops by itself within [i_max - i_ahead] steps: any
    larger fuel gives the same result. *)
Lemma plateau_end_fuel x i i_max fuel :
  forall fuel' i_ahead,
    (Z.to_nat (i_max - i_ahead) <= fuel)%nat ->
    (Z.to_nat (i_max - i_ahead) <= fuel')%nat ->
    plateau_end fuel x i i_ahead i_max = plateau_end fuel' x i i_ahead i_max.
Proof.
  induction fuel as [| fuel IH]; intros fuel' i_ahead H H'.
  - destruct fuel' as [| fuel']; cbn; [reflexivity |].
    destruct (Z.ltb_spec i_ahead i_max); [lia | reflexivity].
  - destruct fuel' as [| fuel']; cbn.
    + destruct (Z.ltb_spec i_ahead i_max); [lia | reflexivity].
    + destruct (Z.ltb_spec i_ahead i_max); [| reflexivity]. cbn.
      destruct (Qeq_bool _ _); [| reflexivity].
      apply IH; lia.
Qed.

(** The outer loop stops by itself within [i_max - i] steps. *)
Lemma local_maxima_loop_fuel x i_max fuel :
  forall fuel' i midpoints,
    (Z.to_nat (i_max - i) <= fuel)%nat ->
    (Z.to_nat (i_max - i) <= fuel')%nat ->
    local_maxima_loop fuel x i i_max midpoints =
    local_maxima_loop fuel' x i i_max midpoints.
Proof.
  induction fuel as [| fuel IH]; intros fuel' i midpoints H H'.
  - destruct fuel' as [| fuel']; cbn; [reflexivity |].
    destruct (Z.ltb_spec i i_max); [lia | reflexivity].
  - destruct fuel' as [| fuel']; cbn.
    + destruct (Z.ltb_spec i i_max); [lia | reflexivity].
    + destruct (Z.ltb_spec i i_max); [| reflexivity].
      pose proof (plateau_end_ge (length x) x i i_max (i + 1)).
      destruct (Py.Qltb (get x (i - 1)) (get x i)); [| apply IH; lia].
      destruct (Py.Qltb _ (get x i)); apply IH; lia.
Qed.

Lemma local_maxima_enough_fuel x extra :
  _local_maxima_1d x =
  local_maxima_loop (length x + extra) x 1 (len x - 1) [].
Proof.
  unfold _local_maxima_1d. apply local_maxima_loop_fuel; unfold len; lia.
Qed.

End PeakFacts.

Module StatsFacts.
Import Frame.
Import Stats.

Lemma sumQ_nonneg l : Forall (fun x => (0 <= x)%Q) l -> (0 <= sumQ l)%Q.
Proof.
  unfold sumQ. induction 1 as [| x l Hx _ IH]; cbn; [apply Qle_refl | lra].
Qed.

Lemma sumQ_zero l :
  Forall (fun x => (0 <= x)%Q) l -> (sumQ l == 0)%Q ->
  Forall (fun x => (x == 0)%Q) l.
Proof.
  induction 1 as [| x l Hx Hl IH]; intros H; constructor;
    pose proof (sumQ_nonneg l Hl) as Hn; unfold sumQ in *; cbn in H.
  - lra.
  - apply IH. lra.
Qed.

Lemma Qsquare_nonneg a : (0 <= a * a)%Q.
Proof.
  destruct (Qlt_le_dec a 0) as [Hneg | Hpos].
  - setoid_replace (a * a)%Q with ((- a) * (- a))%Q by ring.
    apply Qmult_le_0_compat; lra.
  - now apply Qmult_le_0_compat.
Qed.

Lemma squares_nonneg m l :
  Forall (fun x => (0 <= x)%Q) (map (fun x => (x - m) * (x - m))%Q l).
Proof.
  apply Forall_forall. intros y Hy. apply in_map_iff in Hy.
  destruct Hy as (x & <- & _). apply Qsquare_nonneg.
Qed.

Lemma variance_nonneg ddof l :
  ddof < len l -> (0 <= variance ddof l)%Q.
Proof.
  intros H. unfold variance.
  assert (Hk : (0 < inject_Z (len l - ddof))%Q)
    by (rewrite <- (Zlt_Qlt 0); lia).
  apply Qle_shift_div_l; [exact Hk |].
  rewrite Qmult_0_l. apply sumQ_nonneg, squares_nonneg.
Qed.

Lemma variance_zero ddof l :
  ddof < len l -> (variance ddof l == 0)%Q ->
  Forall (fun x => (x == mean l)%Q) l.
Proof.
  intros H. unfold variance. set (m := mean l). intros E.
  assert (Hk : (0 < inject_Z (len l - ddof))%Q)
    by (rewrite <- (Zlt_Qlt 0); lia).
  set (S := sumQ (map (fun x => (x - m) * (x - m))%Q l)) in *.
  assert (HS : (S == 0)%Q).
  { assert (E' : (S == S / inject_Z (len l - ddof)
                        * inject_Z (len l - ddof))%Q) by (field; lra).
    rewrite E', E. ring. }
  pose proof (sumQ_zero _ (squares_nonneg m l) HS) as Hz.
  rewrite Forall_map in Hz.
  eapply Forall_impl; [| exact Hz]. cbn. intros x Hx.
  destruct (Qmult_integral _ _ Hx); lra.
Qed.

Lemma valid_values_In x column :
  In (Some x) column -> In x (valid_values column).
Proof.
  intros H. unfold valid_values. apply in_flat_map.
  exists (Some x). split; [exact H | now left].
Qed.

Lemma diff_from_length l : forall p, length (diff_from p l) = length l.
Proof. induction l; intros p; cbn; [reflexivity | now rewrite IHl]. Qed.

Lemma diff_length l : length (diff l) = length l.
Proof. destruct l; cbn; [reflexivity | now rewrite diff_from_length]. Qed.

Lemma diff_from_flat c l :
  Forall (fun x => (x == c)%Q) l ->
  forall p, (p == c)%Q ->
    Forall (fun v => exists d, v = Some d /\ (d == 0)%Q) (diff_from p l).
Proof.
  induction 1 as [| x l Hx _ IH]; intros p Hp; cbn; constructor.
  - eexists. split; [reflexivity |]. lra.
  - now apply IH.
Qed.

Lemma diff_flat c l :
  Forall (fun x => (x == c)%Q) l ->
  Forall (fun v => match v with Some d => (d == 0)%Q | None => True end)
    (diff l).
Proof.
  intros H. destruct l as [| x l]; cbn; [constructor |].
  inversion H; subst. constructor; [exact I |].
  eapply Forall_impl; [| apply (diff_from_flat c); eassumption].
  cbn. intros v (d & -> & Hd). exact Hd.
Qed.

End StatsFacts.

Module ChangePointFacts.
Import Frame.
Import Stats ChangePoint.

Lemma labels_where_none df cond :
  Forall (fun b => b = false) cond -> labels_where df cond = [].
Proof.
  intros H. unfold labels_where.
  replace (filter (fun p => snd p) (combine df cond)) with (@nil (row * bool));
    [reflexivity |].
  symmetry. revert df. induction H as [| b cond Hb _ IH]; intros [| r df];
    cbn; try reflexivity.
  subst b. cbn. apply IH.
Qed.

Lemma change_loop_no_decrease df increase_points :
  change_loop df increase_points [] [] = Some [].
Proof. induction increase_points; cbn; auto. Qed.

Section WithSqrt.

Variable sqrt : Q -> Q.
Hypothesis sqrt_nonneg : forall x, (0 <= sqrt x)%Q.
Hypothesis sqrt_pos : forall x, (0 < x)%Q -> (0 < sqrt x)%Q.

Lemma std_nonneg column s : std sqrt column = Some s -> (0 <= s)%Q.
Proof.
  unfold std. destruct (_ <? 2); [discriminate |].
  intros [= <-]. apply sqrt_nonneg.
Qed.

Lemma std_zero column s :
  std sqrt column = Some s -> (s == 0)%Q ->
  exists m, Forall (fun x => (x == m)%Q) (valid_values column).
Proof.
  unfold std. destruct (Z.ltb_spec (len (valid_values column)) 2);
    [discriminate |].
  intros [= <-] Hs. exists (mean (valid_values column)).
  apply (StatsFacts.variance_zero 1); [lia |].
  pose proof (StatsFacts.variance_nonneg 1 (valid_values column) ltac:(lia))
    as Hv.
  destruct (Qlt_le_dec 0 (variance 1 (valid_values column))) as [Hpos | Hle].
  - pose proof (sqrt_pos _ Hpos). lra.
  - lra.
Qed.

Lemma change_body_flat df c :
  Forall (fun r => (ndvi_smooth r == c)%Q) df ->
  change_body sqrt df = Some [].
Proof.
  intros H. unfold change_body.
  set (D := diff (map ndvi_smooth df)).
  assert (HD : Forall (fun v => match v with
                                | Some d => (d == 0)%Q
                                | None => True
                                end) D).
  { apply (StatsFacts.diff_flat c). now rewrite Forall_map. }
  rewrite labels_where_none; [reflexivity |].
  rewrite Forall_map. eapply Forall_impl; [| exact HD].
  cbn. intros [d |] Hd; [| reflexivity].
  destruct (std sqrt D) as [s |] eqn:E; cbn; [| reflexivity].
  apply PyFacts.Qltb_ge. pose proof (std_nonneg _ _ E). lra.
Qed.

Lemma change_body_zero_std df s :
  std sqrt (diff (map ndvi_smooth df)) = Some s -> (s == 0)%Q ->
  change_body sqrt df = Some [].
Proof.
  intros E Hs. unfold change_body.
  set (D := diff (map ndvi_smooth df)) in *.
  destruct (std_zero _ _ E Hs) as (m & Hm).
  rewrite E. cbn [scale].
  rewrite Forall_forall in Hm.
  destruct (Qlt_le_dec 0 m) as [Hpos | Hneg].
  - rewrite (labels_where_none df
               (map (fun d => lt d (Some (s * -1 * (15 # 10))%Q)) D)).
    + apply change_loop_no_decrease.
    + rewrite Forall_map. apply Forall_forall. intros [x |] Hx; cbn;
        [| reflexivity].
      apply PyFacts.Qltb_ge.
      pose proof (Hm x (StatsFacts.valid_values_In _ _ Hx)). lra.
  - rewrite (labels_where_none df
               (map (fun d => gt d (Some (s * (15 # 10))%Q)) D));
      [reflexivity |].
    rewrite Forall_map. apply Forall_forall. intros [x |] Hx; cbn;
      [| reflexivity].
    apply PyFacts.Qltb_ge.
    pose proof (Hm x (StatsFacts.valid_values_In _ _ Hx)). lra.
Qed.

End WithSqrt.

End ChangePointFacts.

Module DetectorFacts.
Import Frame.
Import Stats Threshold Peak ChangePoint.

Lemma sqrt_up_nonneg x : (0 <= sqrt_up x)%Q.
Proof.
  unfold sqrt_up. apply Qle_shift_div_l; [reflexivity |].
  rewrite Qmult_0_l, <- (Zle_Qle 0). apply Z.sqrt_up_nonneg.
Qed.

Lemma sqrt_up_pos x : (0 < x)%Q -> (0 < sqrt_up x)%Q.
Proof.
  intros Hx. unfold sqrt_up. apply Qlt_shift_div_l; [reflexivity |].
  rewrite Qmult_0_l, <- (Zlt_Qlt 0). apply Z.sqrt_up_pos.
  rewrite Zlt_Qlt.
  eapply Qlt_le_trans; [| apply Qle_ceiling].
  apply Qmult_lt_0_compat; [exact Hx | reflexivity].
Qed.

Lemma constant_low_high :
  constant low_constant (1 # 10) (5 # 100) /\
  constant high_constant (9 # 10) (8 # 10).
Proof. split; vm_compute; repeat constructor. Qed.

(** C7, as stated, fails: on a constant series above both thresholds
    (NDVI 0.9, EVI 0.8, three samples) the threshold detector returns a
    candidate. *)
Lemma constant_high_series_has_candidate :
  constant high_constant (9 # 10) (8 # 10) /\
  _detect_threshold_blooms high_constant <> [].
Proof.
  split; [apply constant_low_high |]. vm_compute. discriminate.
Qed.

Section ConstantSeries.

Variable sqrt : Q -> Q.
Hypothesis sqrt_nonneg : forall x, (0 <= sqrt x)%Q.
Hypothesis sqrt_pos : forall x, (0 < x)%Q -> (0 < sqrt x)%Q.
Variable keep_by_distance : list Q -> list Z -> Z -> bool.
Variable keep_by_prominence : list Q -> list Z -> Z -> bool.

Lemma threshold_body_flat df c_ndvi c_evi :
  constant df c_ndvi c_evi ->
  (c_ndvi <= Bloom.ndvi_bloom_threshold)%Q \/
  (c_evi <= Bloom.evi_bloom_threshold)%Q ->
  threshold_body df = Some [].
Proof.
  intros Hc Hlow. unfold threshold_body.
  rewrite ThresholdFacts.no_periods_all_false; [reflexivity |].
  unfold bloom_mask. rewrite Forall_map.
  eapply Forall_impl; [| exact Hc]. cbn. intros r [Hn He].
  apply andb_false_iff.
  destruct Hlow as [H | H]; [left | right]; apply PyFacts.Qltb_ge; lra.
Qed.

Lemma peak_body_flat df c_ndvi c_evi :
  constant df c_ndvi c_evi ->
  peak_body keep_by_distance keep_by_prominence df = Some [].
Proof.
  intros Hc. unfold peak_body, find_peaks.
  rewrite PeakFacts.no_local_maxima_flat; [reflexivity |].
  intros a b Ha Hb. apply in_map_iff in Ha, Hb.
  destruct Ha as (ra & <- & Hra), Hb as (rb & <- & Hrb).
  unfold constant in Hc. rewrite Forall_forall in Hc.
  destruct (Hc ra Hra) as [-> _], (Hc rb Hrb) as [-> _]. reflexivity.
Qed.

(** C7, amended: on a cleaned series whose smoothed NDVI and EVI are
    constant, the peak detector and the change-point detector return the
    empty list without raising, and so does the threshold detector when the
    constant NDVI is at most 0.4 or the constant EVI at most 0.3 (as for
    NDVI 0.1 and EVI 0.05); and on any series whose smoothed-NDVI first
    differences have standard deviation 0, the change-point detector
    returns the empty list. *)
Theorem constant_series_no_candidates (df : list row) (c_ndvi c_evi : Q) :
  constant df c_ndvi c_evi ->
  ((c_ndvi <= Bloom.ndvi_bloom_threshold)%Q \/
   (c_evi <= Bloom.evi_bloom_threshold)%Q ->
   threshold_body df = Some [] /\ _detect_threshold_blooms df = []) /\
  (peak_body keep_by_distance keep_by_prominence df = Some [] /\
   _detect_peak_blooms keep_by_distance keep_by_prominence df = []) /\
  (change_body sqrt df = Some [] /\
   _detect_change_point_blooms sqrt df = []) /\
  (forall df' s,
      std sqrt (diff (map ndvi_smooth df')) = Some s -> (s == 0)%Q ->
      change_body sqrt df' = Some [] /\
      _detect_change_point_blooms sqrt df' = []).
Proof.
  intros Hc. split; [| split; [| split]].
  - intros Hlow. unfold _detect_threshold_blooms.
    rewrite (threshold_body_flat df c_ndvi c_evi Hc Hlow). now split.
  - unfold _detect_peak_blooms.
    rewrite (peak_body_flat df c_ndvi c_evi Hc). now split.
  - unfold _detect_change_point_blooms.
    rewrite (ChangePointFacts.change_body_flat sqrt sqrt_nonneg df c_ndvi);
      [now split |].
    eapply Forall_impl; [| exact Hc]. now intros r [H _].
  - intros df' s E Hs. unfold _detect_change_point_blooms.
    rewrite (ChangePointFacts.change_body_zero_std sqrt sqrt_pos df' s E Hs).
    now split.
Qed.

End ConstantSeries.

(** C6 (defect of the code): on the pre-processed [gap_series] the frame
    has the labels 0, 1, 2, 3, 4, 6, 7, the whole frame is one run above
    both thresholds, and the largest smoothed NDVI, 0.9, is at position 5
    (label 6).  The detector adds the label difference 6 - 0 to the start
    position and reports position 6: a [peak_date] and a [peak_ndvi], 0.5,
    that are not those of the maximum of the run. *)
Theorem threshold_peak_misses_maximum :
  let df := Preprocess.preprocess gap_series in
  exists bloom top,
    map label df = [0; 1; 2; 3; 4; 6; 7] /\
    _find_continuous_periods (bloom_mask df) = [(0, 6)] /\
    _detect_threshold_blooms df = [bloom] /\
    iloc df 5 = Some top /\
    (forall r, In r df -> r <> top ->
               (ndvi_smooth r < ndvi_smooth top)%Q) /\
    Bloom.peak_date bloom <> date top /\
    (Bloom.peak_ndvi bloom < ndvi_smooth top)%Q.
Proof.
  cbv zeta. eexists. eexists.
  split; [vm_compute; reflexivity |].
  split; [vm_compute; reflexivity |].
  split; [vm_compute; reflexivity |].
  split; [vm_compute; reflexivity |].
  split; [| split; [discriminate | reflexivity]].
  intros r Hr Hne. vm_compute in Hr.
  repeat (destruct Hr as [<- | Hr]; [try reflexivity; now elim Hne |]).
  contradiction.
Qed.

Lemma constant_series_no_candidates_witness :
  constant low_constant (1 # 10) (5 # 100) /\
  _detect_threshold_blooms low_constant = [] /\
  _detect_peak_blooms (fun _ _ _ => true) (fun _ _ _ => true) low_constant
  = [] /\
  _detect_change_point_blooms sqrt_up low_constant = [].
Proof.
  destruct (constant_series_no_candidates sqrt_up sqrt_up_nonneg sqrt_up_pos
              (fun _ _ _ => true) (fun _ _ _ => true)
              low_constant (1 # 10) (5 # 100) (proj1 constant_low_high))
    as (Ht & Hp & Hc & _).
  split; [exact (proj1 constant_low_high) |].
  split; [apply Ht; left; discriminate |].
  split; [apply Hp | apply Hc].
Defined.

End DetectorFacts.

(** ** The forecaster *)

Module ForecastFacts.
Import Frame Forecast.

Section Noise.

Variable generator : Type.
Variable normal : Q -> Q -> generator -> Q * generator.
Variable in_bounds : Date.date -> Z -> bool.
Variable round2 : Q -> Q.
Variable holds : Date.date -> bool.
Variable object_frame_forecast :
  list raw -> Z -> generator ->
  option (list predicted_bloom * Q * option seasonal_patterns
          * list forecast_point) * generator.

(** C9: two runs of [forecast_bloom_events] on the same history and number
    of days, started with the generator in the same state, produce the same
    [forecast_data] and the same [predicted_blooms] (and leave the
    generator in the same state), whatever the clock reads. *)
Theorem forecast_determined_by_seed (time_series : list observation)
    (forecast_days : Z) (w1 w2 : world generator) :
  random_state generator w1 = random_state generator w2 ->
  let r1 :=
    forecast_bloom_events generator normal in_bounds round2 holds
      object_frame_forecast time_series forecast_days
      w1 in
  let r2 :=
    forecast_bloom_events generator normal in_bounds round2 holds
      object_frame_forecast time_series forecast_days
      w2 in
  option_map (forecast_data) (fst r1) = option_map (forecast_data) (fst r2) /\
  option_map (predicted_blooms) (fst r1)
  = option_map (predicted_blooms) (fst r2) /\
  random_state generator (snd r1) = random_state generator (snd r2).
Proof.
  intros Hseed. cbv zeta. unfold forecast_bloom_events.
  destruct (len time_series <? 50); [now repeat split |].
  destruct (to_datetime holds time_series); [| now repeat split].
  rewrite Hseed.
  destruct (forallb Preprocess.present _).
  - destruct (_generate_forecast generator normal in_bounds _ _ _ _)
      as [points g].
    now repeat split.
  - destruct (object_frame_forecast _ _ _) as [[[[[blooms c] p] data] |] g];
      now repeat split.
Qed.

(** Two runs in a row, the generator seeded alike before each. *)
Corollary forecast_repeatable (time_series : list observation)
    (forecast_days : Z) (g : generator) (w : world generator) :
  let r1 :=
    forecast_bloom_events generator normal in_bounds round2 holds
      object_frame_forecast time_series forecast_days
      (seed generator g w) in
  let r2 :=
    forecast_bloom_events generator normal in_bounds round2 holds
      object_frame_forecast time_series forecast_days
      (seed generator g (snd r1)) in
  option_map (forecast_data) (fst r1) = option_map (forecast_data) (fst r2) /\
  option_map (predicted_blooms) (fst r1)
  = option_map (predicted_blooms) (fst r2).
Proof.
  cbv zeta. unfold forecast_bloom_events, seed. cbn [random_state today].
  destruct (len time_series <? 50); [now split |].
  destruct (to_datetime holds time_series); [| now split].
  destruct (forallb Preprocess.present _).
  - destruct (_generate_forecast generator normal in_bounds _ _ _ _)
      as [points g'].
    cbn [snd fst random_state today]. now split.
  - destruct (object_frame_forecast _ _ _) as [[[[[blooms c] p] data] |] g'];
      cbn [snd fst random_state today]; now split.
Qed.

End Noise.

Lemma forecast_determined_by_seed_witness :
  let run :=
    forecast_bloom_events Z lcg_normal nanoseconds_range (fun x => x)
      nanoseconds no_object_frame history 30 in
  let w1 := mkWorld Z 42 (Date.mkDate 2024 3 1) in
  let w2 := mkWorld Z 42 (Date.mkDate 2025 9 30) in
  random_state Z w1 = random_state Z w2 /\
  option_map (forecast_data) (fst (run w1))
  = option_map (forecast_data) (fst (run w2)).
Proof.
  cbv zeta. split; [reflexivity |].
  apply (forecast_determined_by_seed Z lcg_normal nanoseconds_range
           (fun x => x) nanoseconds no_object_frame history 30
           (mkWorld Z 42 (Date.mkDate 2024 3 1))
           (mkWorld Z 42 (Date.mkDate 2025 9 30))).
  reflexivity.
Defined.

End ForecastFacts.

(** ** Quality and phenology *)

Module QualityFacts.
Import Frame Phenology FrameFacts.

Lemma min_one_unit x : (0 <= x)%Q -> (0 <= Py.min 1 x <= 1)%Q.
Proof.
  intros Hx. destruct (PyFacts.min_cases 1 x) as [[-> H] | [-> H]]; lra.
Qed.

Lemma max_zero_unit x : (x <= 1)%Q -> (0 <= Py.max 0 x <= 1)%Q.
Proof.
  intros Hx. destruct (PyFacts.max_cases 0 x) as [[-> H] | [-> H]]; lra.
Qed.

Lemma ratio_nonneg a b : 0 <= a -> 0 < b -> (0 <= inject_Z a / inject_Z b)%Q.
Proof.
  intros Ha Hb. apply Qle_shift_div_l.
  - rewrite <- (Zlt_Qlt 0). exact Hb.
  - rewrite Qmult_0_l, <- (Zle_Qle 0). exact Ha.
Qed.

Lemma ratio_le_one a b : a <= b -> 0 < b -> (inject_Z a / inject_Z b <= 1)%Q.
Proof.
  intros Ha Hb. apply Qle_shift_div_r.
  - rewrite <- (Zlt_Qlt 0). exact Hb.
  - rewrite Qmult_1_l, <- Zle_Qle. exact Ha.
Qed.

Lemma temporal_completeness_unit df :
  (0 <= temporal_completeness_of df <= 1)%Q.
Proof.
  unfold temporal_completeness_of.
  destruct (1 <? len df); [| lra].
  set (e := (inject_Z (max_ordinal df - min_ordinal df) / 16)%Q).
  destruct (Py.Qltb 0 e) eqn:E; [| lra].
  apply PyFacts.Qltb_lt in E. apply min_one_unit.
  apply Qle_shift_div_l; [exact E |].
  rewrite Qmult_0_l, <- (Zle_Qle 0). apply len_nonneg.
Qed.

Lemma date_diffs_from_length l :
  forall p, length (date_diffs_from p l) = length l.
Proof. induction l; intros p; cbn; [reflexivity | now rewrite IHl]. Qed.

Lemma date_diffs_length df : (length (date_diffs df) <= length df)%nat.
Proof.
  unfold date_diffs, ordinals. destruct df as [| r df]; cbn; [lia |].
  rewrite date_diffs_from_length, length_map. lia.
Qed.

Lemma gap_count_bounds df : 0 <= gap_count_of df <= len df.
Proof.
  unfold gap_count_of.
  destruct (1 <? len df); [| split; [lia | apply len_nonneg]].
  pose proof (filter_length_le (fun d => max_gap_days <? d) (date_diffs df)).
  pose proof (date_diffs_length df).
  unfold len. lia.
Qed.

Lemma gap_factor_unit df :
  (0 <= (if 0 <? len df
         then Py.max 0 (1 - inject_Z (gap_count_of df) / inject_Z (len df))
         else 0) <= 1)%Q.
Proof.
  destruct (Z.ltb_spec 0 (len df)); [| lra].
  pose proof (gap_count_bounds df) as [H0 H1].
  apply max_zero_unit.
  pose proof (ratio_nonneg _ _ H0 H). lra.
Qed.

Section WithSqrt.

Variable sqrt : Q -> Q.
Hypothesis sqrt_nonneg : forall x, (0 <= sqrt x)%Q.

Lemma variability_factor_unit column :
  (0 <= match Stats.std sqrt column with
        | Some s => Py.min 1 (s / (2 # 10))
        | None => 1
        end <= 1)%Q.
Proof.
  destruct (Stats.std sqrt column) as [s |] eqn:E; [| lra].
  apply min_one_unit.
  pose proof (ChangePointFacts.std_nonneg sqrt sqrt_nonneg _ _ E).
  apply Qle_shift_div_l; [reflexivity | lra].
Qed.

Lemma quality_factors_unit df :
  Forall (fun f => (0 <= f <= 1)%Q) (quality_factors sqrt df).
Proof.
  unfold quality_factors.
  constructor;
    [| constructor; [| constructor; [| constructor; [| constructor]]]].
  - apply min_one_unit. apply Qle_shift_div_l; [reflexivity |].
    rewrite Qmult_0_l, <- (Zle_Qle 0). apply len_nonneg.
  - apply temporal_completeness_unit.
  - apply gap_factor_unit.
  - apply variability_factor_unit.
Qed.

End WithSqrt.

Lemma rating_spec score :
  (_get_quality_rating score = excellent <-> (8 # 10 <= score)%Q) /\
  (_get_quality_rating score = good <->
   (6 # 10 <= score)%Q /\ (score < 8 # 10)%Q) /\
  (_get_quality_rating score = fair <->
   (4 # 10 <= score)%Q /\ (score < 6 # 10)%Q) /\
  (_get_quality_rating score = poor <-> (score < 4 # 10)%Q).
Proof.
  unfold _get_quality_rating, Py.Qleb.
  destruct (Qle_bool (8 # 10) score) eqn:E8;
    [apply Qle_bool_iff in E8
    | apply not_true_iff_false in E8; rewrite Qle_bool_iff in E8];
  (destruct (Qle_bool (6 # 10) score) eqn:E6;
    [apply Qle_bool_iff in E6
    | apply not_true_iff_false in E6; rewrite Qle_bool_iff in E6]);
  (destruct (Qle_bool (4 # 10) score) eqn:E4;
    [apply Qle_bool_iff in E4
    | apply not_true_iff_false in E4; rewrite Qle_bool_iff in E4]);
  repeat split; intros; try discriminate; try reflexivity; try lra.
Qed.

Lemma min_is_Qmin a b : (Py.min a b == Qmin a b)%Q.
Proof.
  destruct (PyFacts.min_cases a b) as [[-> H] | [-> H]].
  - symmetry. now apply Q.min_l.
  - symmetry. apply Q.min_r. now apply Qlt_le_weak.
Qed.

Lemma max_is_Qmax a b : (Py.max a b == Qmax a b)%Q.
Proof.
  destruct (PyFacts.max_cases a b) as [[-> H] | [-> H]].
  - symmetry. now apply Q.max_l.
  - symmetry. apply Q.max_r. now apply Qlt_le_weak.
Qed.

Section Score.

Variable sqrt : Q -> Q.
Hypothesis sqrt_nonneg : forall x, (0 <= sqrt x)%Q.

(** C8: the overall quality score is the mean of four factors,
    min(1, valid/20), the temporal completeness, max(0, 1 - gaps/valid)
    (for a series that is not empty) and min(1, std/0.2) (when the standard
    deviation is defined); each factor, and so the score, lies in [0, 1];
    and the rating is excellent, good, fair or poor according to the
    thresholds 0.8, 0.6 and 0.4. *)
Theorem quality_score_is_mean_of_unit_factors (df : list row)
    (total_possible_obs : Z) :
  let m := _assess_data_quality sqrt df total_possible_obs in
  let score := overall_quality_score m in
  exists f1 f2 f3 f4,
    quality_factors sqrt df = [f1; f2; f3; f4] /\
    (score == (f1 + f2 + f3 + f4) / 4)%Q /\
    (f1 == Qmin 1 (inject_Z (valid_observations m) / 20))%Q /\
    f2 = temporal_completeness m /\
    (0 < valid_observations m ->
     (f3 == Qmax 0 (1 - inject_Z (large_gap_count m)
                        / inject_Z (valid_observations m)))%Q) /\
    (forall s,
        Stats.std sqrt (map (fun r => Some (ndvi_smooth r)) df) = Some s ->
        (f4 == Qmin 1 (s / (2 # 10)))%Q) /\
    Forall (fun f => (0 <= f <= 1)%Q) [f1; f2; f3; f4] /\
    (0 <= score <= 1)%Q /\
    (quality_rating m = excellent <-> (8 # 10 <= score)%Q) /\
    (quality_rating m = good <-> (6 # 10 <= score)%Q /\ (score < 8 # 10)%Q) /\
    (quality_rating m = fair <-> (4 # 10 <= score)%Q /\ (score < 6 # 10)%Q) /\
    (quality_rating m = poor <-> (score < 4 # 10)%Q).
Proof.
  cbv zeta. cbn [overall_quality_score quality_rating valid_observations
                   large_gap_count temporal_completeness _assess_data_quality].
  pose proof (quality_factors_unit sqrt sqrt_nonneg df) as Hunit.
  remember (quality_factors sqrt df) as fs eqn:Hfs.
  unfold quality_factors in Hfs.
  destruct fs as [| f1 [| f2 [| f3 [| f4 [| ? ?]]]]]; try discriminate.
  injection Hfs as -> -> -> ->.
  eexists. eexists. eexists. eexists.
  split; [reflexivity |].
  assert (Hmean : (Stats.mean
                     [Py.min 1 (inject_Z (len df) / 20);
                      temporal_completeness_of df;
                      (if 0 <? len df
                       then Py.max 0
                              (1 - inject_Z (gap_count_of df)
                                   / inject_Z (len df))
                       else 0);
                      match Stats.std sqrt
                              (map (fun r => Some (ndvi_smooth r)) df) with
                      | Some s => Py.min 1 (s / (2 # 10))
                      | None => 1
                      end]
                   == (Py.min 1 (inject_Z (len df) / 20)
                       + temporal_completeness_of df
                       + (if 0 <? len df
                          then Py.max 0
                                 (1 - inject_Z (gap_count_of df)
                                      / inject_Z (len df))
                          else 0)
                       + match Stats.std sqrt
                                 (map (fun r => Some (ndvi_smooth r)) df) with
                         | Some s => Py.min 1 (s / (2 # 10))
                         | None => 1
                         end) / 4)%Q).
  { unfold Stats.mean, sumQ, len. cbn. field. }
  split; [exact Hmean |].
  split; [apply min_is_Qmin |].
  split; [reflexivity |].
  split.
  { intros Hpos. apply Z.ltb_lt in Hpos. rewrite Hpos. apply max_is_Qmax. }
  split.
  { intros s ->. apply min_is_Qmin. }
  split; [exact Hunit |].
  split.
  { rewrite Hmean.
    inversion Hunit as [| ? ? H1 Hu1]; subst.
    inversion Hu1 as [| ? ? H2 Hu2]; subst.
    inversion Hu2 as [| ? ? H3 Hu3]; subst.
    inversion Hu3 as [| ? ? H4 _]; subst.
    split.
    - apply Qle_shift_div_l; [reflexivity | lra].
    - apply Qle_shift_div_r; [reflexivity | lra]. }
  apply rating_spec.
Qed.

End Score.

Lemma quality_score_is_mean_of_unit_factors_witness :
  let m := _assess_data_quality Stats.sqrt_up ChangePoint.low_constant 3 in
  (0 <= overall_quality_score m <= 1)%Q.
Proof.
  destruct (quality_score_is_mean_of_unit_factors Stats.sqrt_up
              DetectorFacts.sqrt_up_nonneg ChangePoint.low_constant 3)
    as (f1 & f2 & f3 & f4 & _ & _ & _ & _ & _ & _ & _ & H & _).
  exact H.
Defined.

End QualityFacts.


Module PhenologyFacts.
Import Frame Phenology FrameFacts.

Lemma first_index_Some p l :
  forall i k,
    first_index p i l = Some k ->
    i <= k < i + len l /\
    (exists v, iloc l (k - i) = Some v /\ p v = true) /\
    (forall j v, i <= j < k -> iloc l (j - i) = Some v -> p v = false).
Proof.
  induction l as [| x l IH]; intros i k; cbn [first_index]; [discriminate |].
  destruct (p x) eqn:E.
  - intros [= <-]. rewrite len_cons. pose proof (len_nonneg l).
    split; [lia |]. split.
    + exists x. rewrite Z.sub_diag. now split.
    + intros j v Hj. lia.
  - intros H. destruct (IH _ _ H) as (Hk & (v & Hv & Hpv) & Hbefore).
    rewrite len_cons. split; [lia |]. split.
    + exists v. split; [| exact Hpv].
      replace (k - i) with (k - (i + 1) + 1) by lia.
      rewrite iloc_cons_succ by lia. exact Hv.
    + intros j w Hj Hw. destruct (Z.eq_dec j i) as [-> | Hne].
      * rewrite Z.sub_diag in Hw. cbn in Hw. now injection Hw as <-.
      * apply (Hbefore j w); [lia |].
        replace (j - i) with (j - (i + 1) + 1) in Hw by lia.
        rewrite iloc_cons_succ in Hw by lia. exact Hw.
Qed.

Lemma first_index_None p l :
  forall i, first_index p i l = None -> Forall (fun v => p v = false) l.
Proof.
  induction l as [| x l IH]; intros i; cbn [first_index]; [constructor |].
  destruct (p x) eqn:E; [discriminate |].
  intros H. constructor; [exact E | eapply IH, H].
Qed.

Lemma argmax_from_spec l :
  forall pre best_idx best,
    0 <= best_idx < len pre ->
    iloc (pre ++ l) best_idx = Some best ->
    (forall j v, 0 <= j < len pre -> iloc (pre ++ l) j = Some v ->
                 (v <= best)%Q) ->
    (forall j v, 0 <= j < best_idx -> iloc (pre ++ l) j = Some v ->
                 (v < best)%Q) ->
    let p := argmax_from best_idx best (len pre) l in
    exists vmax,
      0 <= p < len (pre ++ l) /\
      iloc (pre ++ l) p = Some vmax /\
      (forall j v, 0 <= j -> iloc (pre ++ l) j = Some v -> (v <= vmax)%Q) /\
      (forall j v, 0 <= j < p -> iloc (pre ++ l) j = Some v -> (v < vmax)%Q).
Proof.
  induction l as [| x l IH]; intros pre best_idx best Hb Hbest Hle Hlt.
  - cbn. exists best. rewrite app_nil_r in *. split; [lia |].
    split; [exact Hbest |]. split; [| exact Hlt].
    intros j v Hj Hv. apply (Hle j v); [| exact Hv].
    split; [lia | eapply iloc_Some_bound; eassumption].
  - cbn [argmax_from].
    assert (Hx : iloc (pre ++ x :: l) (len pre) = Some x)
      by apply iloc_app_head.
    assert (Hlen : len (pre ++ [x]) = len pre + 1)
      by (rewrite len_app; reflexivity).
    pose proof (len_nonneg pre) as Hpre.
    replace (pre ++ x :: l) with ((pre ++ [x]) ++ l) in *
      by (now rewrite <- app_assoc).
    replace (len pre + 1) with (len (pre ++ [x])) by exact Hlen.
    destruct (Py.Qltb best x) eqn:C.
    + apply PyFacts.Qltb_lt in C. apply IH.
      * rewrite Hlen. lia.
      * exact Hx.
      * intros j v Hj Hv. rewrite Hlen in Hj.
        destruct (Z.eq_dec j (len pre)) as [-> | Hne].
        -- rewrite Hx in Hv. injection Hv as <-. apply Qle_refl.
        -- apply Qlt_le_weak. eapply Qle_lt_trans; [| exact C].
           apply (Hle j v); [lia | exact Hv].
      * intros j v Hj Hv. eapply Qle_lt_trans; [| exact C].
        apply (Hle j v); [lia | exact Hv].
    + apply PyFacts.Qltb_ge in C. apply IH.
      * rewrite Hlen. lia.
      * exact Hbest.
      * intros j v Hj Hv. rewrite Hlen in Hj.
        destruct (Z.eq_dec j (len pre)) as [-> | Hne].
        -- rewrite Hx in Hv. injection Hv as <-. exact C.
        -- apply (Hle j v); [lia | exact Hv].
      * exact Hlt.
Qed.

Lemma argmax_spec values :
  values <> [] ->
  exists p vmax,
    argmax values = Some p /\ 0 <= p < len values /\
    iloc values p = Some vmax /\
    (forall j v, 0 <= j -> iloc values j = Some v -> (v <= vmax)%Q) /\
    (forall j v, 0 <= j < p -> iloc values j = Some v -> (v < vmax)%Q).
Proof.
  destruct values as [| x l]; [congruence |]. intros _.
  destruct (argmax_from_spec l [x] 0 x) as (vmax & H).
  - change (len [x]) with 1. lia.
  - reflexivity.
  - change (len [x]) with 1. intros j v Hj Hv.
    replace j with 0 in Hv by lia. cbn in Hv. injection Hv as <-.
    apply Qle_refl.
  - intros j v Hj. lia.
  - change (len [x]) with 1 in H. cbn [app] in H.
    exists (argmax_from 0 x 1 l), vmax. split; [reflexivity | exact H].
Qed.

(** The three indices: the peak is the first maximum, and the start of
    season, when there is one, comes no later and the end of season no
    earlier. *)
Lemma phase_indices_spec values stats :
  values <> [] ->
  exists sos pos eos vmax,
    phase_indices values stats = Some (sos, pos, eos) /\
    argmax values = Some pos /\
    0 <= pos <= eos /\ eos < len values /\
    iloc values pos = Some vmax /\
    (forall j v, 0 <= j -> iloc values j = Some v -> (v <= vmax)%Q) /\
    (forall j v, 0 <= j < pos -> iloc values j = Some v -> (v < vmax)%Q) /\
    (forall s, sos = Some s -> 0 <= s <= pos).
Proof.
  intros Hne.
  destruct (argmax_spec values Hne)
    as (pos & vmax & Ea & Hpos & Hv & Hmax & Hfirst).
  unfold phase_indices. rewrite Ea. cbn [Py.bind].
  set (sos_value := (stat_min stats + stat_amplitude stats * sos_threshold)%Q).
  set (eos_value := (stat_min stats + stat_amplitude stats * eos_threshold)%Q).
  eexists. eexists. eexists. exists vmax.
  split; [reflexivity |]. split; [reflexivity |].
  split;
    [| split;
       [| split; [exact Hv | split; [exact Hmax | split; [exact Hfirst |]]]]].
  - split; [lia |].
    destruct (first_index _ pos _) as [e |] eqn:Ee; [| lia].
    apply first_index_Some in Ee. lia.
  - destruct (first_index _ pos _) as [e |] eqn:Ee; [| lia].
    apply first_index_Some in Ee. rewrite len_skipn in Ee by lia. lia.
  - intros s Hs. apply first_index_Some in Hs.
    destruct Hs as (Hs & (v & Hsv & Hp) & Hbefore).
    rewrite Z.sub_0_r in Hsv. split; [lia |].
    destruct (Z.le_gt_cases s pos) as [| Hgt]; [assumption | exfalso].
    assert (Hpv : Py.Qleb sos_value vmax = false).
    { apply (Hbefore pos vmax); [lia |]. now rewrite Z.sub_0_r. }
    apply PyFacts.Qleb_le in Hp.
    assert (Hle : (sos_value <= vmax)%Q).
    { eapply Qle_trans; [exact Hp |]. apply (Hmax s v); [lia | exact Hsv]. }
    apply PyFacts.Qleb_le in Hle. congruence.
Qed.

Lemma phase_at_timestamp df idx r :
  iloc df idx = Some r ->
  phase_at (map (fun r => Timestamp (date r)) df) (map ndvi_smooth df) idx =
  Some (mkPhase (Some (date r))
          (Some (Date.days_before_month (Date.year (date r))
                   (Date.month (date r)) + Date.day (date r)))
          (Some (ndvi_smooth r))).
Proof.
  intros H. unfold phase_at. rewrite !iloc_map, H. reflexivity.
Qed.

Lemma duration_between_timestamp df a b ra rb :
  iloc df a = Some ra -> iloc df b = Some rb ->
  duration_between (map (fun r => Timestamp (date r)) df) a b =
  Some (Date.days_between (date ra) (date rb)).
Proof.
  intros Ha Hb. unfold duration_between. rewrite !iloc_map, Ha, Hb.
  reflexivity.
Qed.

Lemma StronglySorted_nth {A} (R : A -> A -> Prop) l :
  StronglySorted R l ->
  forall i j a b,
    (i < j)%nat -> nth_error l i = Some a -> nth_error l j = Some b -> R a b.
Proof.
  induction 1 as [| x l Hs IH Hx]; intros i j a b Hij Ha Hb.
  - destruct i; discriminate.
  - destruct j as [| j]; [lia |]. cbn in Hb.
    destruct i as [| i].
    + cbn in Ha. injection Ha as <-.
      rewrite Forall_forall in Hx. eapply Hx, nth_error_In, Hb.
    + cbn in Ha. eapply IH; [| eassumption | eassumption]. lia.
Qed.

Lemma sorted_dates_iloc df i j ri rj :
  StronglySorted Preprocess.date_le (map date df) ->
  0 <= i <= j -> iloc df i = Some ri -> iloc df j = Some rj ->
  Preprocess.date_le (date ri) (date rj).
Proof.
  intros Hs Hij Hi Hj.
  destruct (Z.eq_dec i j) as [-> | Hne].
  - rewrite Hi in Hj. injection Hj as <-. apply DateFacts.leb_refl.
  - rewrite iloc_nonneg in Hi, Hj by lia.
    apply (StronglySorted_nth _ _ Hs (Z.to_nat i) (Z.to_nat j)); [lia | |];
      rewrite nth_error_map; [now rewrite Hi | now rewrite Hj].
Qed.

(** Had the dates been read as [Timestamp]s (as [df.iloc[i]['date']] does in
    the detectors), the phases would be as the specification says: the peak
    of season is reported, at the first maximum of the smoothed NDVI, and on
    a frame in ascending order of date the start of season, when there is
    one, is not after the peak, nor the peak after the end of season. *)
Theorem phases_from_timestamps df stats :
  df <> [] ->
  exists ph pos rp,
    phases_body Timestamp df (Some stats) = Some ph /\
    argmax (map ndvi_smooth df) = Some pos /\
    iloc df pos = Some rp /\
    (forall j r, 0 <= j -> iloc df j = Some r ->
                 (ndvi_smooth r <= ndvi_smooth rp)%Q) /\
    (forall j r, 0 <= j < pos -> iloc df j = Some r ->
                 (ndvi_smooth r < ndvi_smooth rp)%Q) /\
    phase_date (peak_of_season ph) = Some (date rp) /\
    ndvi_value (peak_of_season ph) = Some (ndvi_smooth rp) /\
    (StronglySorted Preprocess.date_le (map date df) ->
     forall a b,
       phase_date (start_of_season ph) = Some a ->
       phase_date (end_of_season ph) = Some b ->
       Preprocess.date_le a (date rp) /\ Preprocess.date_le (date rp) b).
Proof.
  intros Hne.
  assert (Hv : map ndvi_smooth df <> [])
    by (destruct df; [congruence | discriminate]).
  destruct (phase_indices_spec (map ndvi_smooth df) stats Hv)
    as (sos & pos & eos & vmax & Ei & Ea & Hpe & He & Hvmax & Hmax & Hfirst
        & Hsos).
  assert (Hlen : len (map ndvi_smooth df) = len df)
    by (unfold len; now rewrite length_map).
  rewrite Hlen in He.
  destruct (iloc_in_bounds df pos ltac:(lia)) as (rp & Hrp).
  destruct (iloc_in_bounds df eos ltac:(lia)) as (re & Hre).
  assert (Evmax : vmax = ndvi_smooth rp).
  { rewrite iloc_map, Hrp in Hvmax. now injection Hvmax. }
  subst vmax.
  unfold phases_body. cbn [Py.bind]. rewrite Ei. cbn [Py.bind].
  rewrite (phase_at_timestamp df pos rp Hrp),
    (phase_at_timestamp df eos re Hre),
    (duration_between_timestamp df eos pos re rp Hre Hrp).
  assert (Hvalues :
            (forall j r, 0 <= j -> iloc df j = Some r ->
                         (ndvi_smooth r <= ndvi_smooth rp)%Q) /\
            (forall j r, 0 <= j < pos -> iloc df j = Some r ->
                         (ndvi_smooth r < ndvi_smooth rp)%Q)).
  { split; intros j r Hj Hr.
    - apply (Hmax j); [exact Hj |]. now rewrite iloc_map, Hr.
    - apply (Hfirst j); [exact Hj |]. now rewrite iloc_map, Hr. }
  destruct Hvalues as [Hall Hbefore].
  destruct sos as [s |].
  - destruct (Hsos s eq_refl) as [Hs0 Hsp].
    destruct (iloc_in_bounds df s ltac:(lia)) as (rs & Hrs).
    rewrite (phase_at_timestamp df s rs Hrs),
      (duration_between_timestamp df eos s re rs Hre Hrs),
      (duration_between_timestamp df pos s rp rs Hrp Hrs).
    cbn [Py.bind]. eexists. exists pos, rp.
    split; [reflexivity |]. split; [exact Ea |]. split; [exact Hrp |].
    split; [exact Hall |]. split; [exact Hbefore |].
    split; [reflexivity |]. split; [reflexivity |].
    intros Hsorted a b [= <-] [= <-]. split.
    + apply (sorted_dates_iloc df s pos); auto; lia.
    + apply (sorted_dates_iloc df pos eos); auto; lia.
  - cbn [Py.bind]. eexists. exists pos, rp.
    split; [reflexivity |]. split; [exact Ea |]. split; [exact Hrp |].
    split; [exact Hall |]. split; [exact Hbefore |].
    split; [reflexivity |]. split; [reflexivity |].
    intros _ a b H. discriminate.
Qed.


Lemma phase_at_datetime64 df ndvi_values idx :
  phase_at (map (fun r => datetime64 (date r)) df) ndvi_values idx = None.
Proof.
  unfold phase_at. rewrite iloc_map.
  destruct (iloc df idx); reflexivity.
Qed.

(** C4 (defect of the code): the dates are read from [df['date'].values],
    an array of [numpy.datetime64]; building the entry of the peak of
    season calls [strftime] on such a value, which raises; the [except]
    clause returns the empty dictionary.  No peak of season is reported,
    for any series. *)
Theorem phases_never_reported df basic_stats :
  _detect_phenology_phases df basic_stats = None.
Proof.
  unfold _detect_phenology_phases, phases_body.
  destruct basic_stats as [stats |]; [| reflexivity]. cbn [Py.bind].
  destruct (phase_indices _ stats) as [[[sos_idx pos_idx] eos_idx] |];
    [| reflexivity].
  cbn [Py.bind].
  destruct sos_idx as [i |]; rewrite ?phase_at_datetime64; reflexivity.
Qed.

End PhenologyFacts.

(** ** Climate zone and seasons *)

Module ClimateFacts.
Import Climate.

Lemma Qleb_false a b : Py.Qleb a b = false <-> (b < a)%Q.
Proof.
  rewrite <- not_true_iff_false, PyFacts.Qleb_le. split.
  - apply Qnot_le_lt.
  - apply Qlt_not_le.
Qed.

Ltac zone_cases :=
  unfold _get_climate_zone;
  repeat match goal with
         | |- context [Py.Qleb ?a ?b] =>
             let E := fresh "E" in
             destruct (Py.Qleb a b) eqn:E;
             [apply PyFacts.Qleb_le in E | apply Qleb_false in E]
         end.

Lemma climate_zone_opp a : _get_climate_zone (- a) = _get_climate_zone a.
Proof.
  pose proof (Qabs_opp a) as H. zone_cases; try reflexivity; exfalso; lra.
Qed.

(** X1.  The climate zone depends on the distance from the equator only,
    and a place at least as far from the equator is in the same zone or in
    one nearer the pole. *)
Theorem climate_zone_symmetric_monotone (a b : Q) :
  _get_climate_zone (- a) = _get_climate_zone a /\
  ((Qabs a <= Qabs b)%Q ->
   zone_rank (_get_climate_zone a) <= zone_rank (_get_climate_zone b)).
Proof.
  split.
  - apply climate_zone_opp.
  - intros H. zone_cases; cbn; try lia; exfalso; lra.
Qed.

(** X2.  In every zone and hemisphere the two expected seasons share the
    twelve months of the year with no month twice; the zone is that of the
    latitude; the hemisphere is northern from the equator on; and the
    seasons of a southern latitude are those of the same northern latitude
    half a year later. *)
Theorem seasonal_context_partitions_year (latitude : Q) (year : Z) :
  let c := _get_seasonal_context latitude year in
  Permutation (concat (map snd (expected_seasons c))) months /\
  climate_zone c = _get_climate_zone latitude /\
  (context_hemisphere c = northern <-> (0 <= latitude)%Q) /\
  ((latitude < 0)%Q ->
   expected_seasons c =
   shift_seasons (expected_seasons (_get_seasonal_context (- latitude) year))).
Proof.
  cbv zeta. unfold _get_seasonal_context.
  cbn [expected_seasons climate_zone context_hemisphere].
  split; [| split; [reflexivity | split]].
  - destruct (_get_climate_zone latitude), (Py.Qleb 0 latitude); cbn.
    all: unfold months.
    all: try reflexivity.
    all: apply (Permutation_sym), NoDup_Permutation_bis; try (cbn; lia);
      try (repeat constructor; cbn; intuition lia);
      try (intros x Hx; cbn in *; intuition lia).
  - destruct (Py.Qleb 0 latitude) eqn:E.
    + apply PyFacts.Qleb_le in E. split; [intros _; exact E | reflexivity].
    + apply Qleb_false in E. split; [discriminate | intros H; lra].
  - intros Hneg.
    rewrite climate_zone_opp.
    assert (E1 : Py.Qleb 0 latitude = false) by (apply Qleb_false; exact Hneg).
    assert (E2 : Py.Qleb 0 (- latitude) = true) by (apply PyFacts.Qleb_le; lra).
    rewrite E1, E2.
    destruct (_get_climate_zone latitude); reflexivity.
Qed.

End ClimateFacts.

(** ** Stage and species hints of an event *)

Module EventsFacts.
Import Events.

Lemma stage_body_wf bloom today :
  Bloom.well_formed bloom ->
  let now := Date.toordinal today in
  let s := Date.toordinal (Bloom.start_date bloom) in
  let p := Date.toordinal (Bloom.peak_date bloom) in
  let e := Date.toordinal (Bloom.end_date bloom) in
  _determine_bloom_stage bloom today =
  if now <? s then pre_bloom
  else if (s <=? now) && (now <? p) then early_bloom
  else if now =? p then peak_bloom
  else if (p <? now) && (now <=? e) then late_bloom
  else post_bloom.
Proof.
  intros (Hs & Hp & He). cbv zeta.
  unfold _determine_bloom_stage, stage_body.
  rewrite (PyFacts.strptime_valid _ Hs), (PyFacts.strptime_valid _ Hp),
    (PyFacts.strptime_valid _ He).
  reflexivity.
Qed.

Ltac stage_cases :=
  repeat match goal with
         | |- context [?a <? ?b] => destruct (Z.ltb_spec a b)
         | |- context [?a <=? ?b] => destruct (Z.leb_spec a b)
         | |- context [?a =? ?b] => destruct (Z.eqb_spec a b)
         end; cbn.

(** X3.  For an event with valid dates, start before peak before end, each
    of the five stages is reported exactly on its days, [unknown] never is,
    and the stage never goes back as the days pass. *)
Theorem bloom_stage_follows_the_calendar (bloom : Bloom.t)
    (today later : Date.date) :
  Bloom.well_formed bloom ->
  Date.toordinal (Bloom.start_date bloom)
  <= Date.toordinal (Bloom.peak_date bloom) ->
  Date.toordinal (Bloom.peak_date bloom)
  <= Date.toordinal (Bloom.end_date bloom) ->
  let now := Date.toordinal today in
  let stage := _determine_bloom_stage bloom today in
  (stage = pre_bloom <-> now < Date.toordinal (Bloom.start_date bloom)) /\
  (stage = early_bloom <->
   Date.toordinal (Bloom.start_date bloom) <= now
   < Date.toordinal (Bloom.peak_date bloom)) /\
  (stage = peak_bloom <-> now = Date.toordinal (Bloom.peak_date bloom)) /\
  (stage = late_bloom <->
   Date.toordinal (Bloom.peak_date bloom) < now
   <= Date.toordinal (Bloom.end_date bloom)) /\
  (stage = post_bloom <-> Date.toordinal (Bloom.end_date bloom) < now) /\
  (now <= Date.toordinal later ->
   stage_rank stage <= stage_rank (_determine_bloom_stage bloom later)) /\
  stage <> unknown.
Proof.
  intros Hwf Hsp Hpe. cbv zeta.
  rewrite !(stage_body_wf bloom _ Hwf). cbv zeta.
  set (s := Date.toordinal (Bloom.start_date bloom)) in *.
  set (p := Date.toordinal (Bloom.peak_date bloom)) in *.
  set (e := Date.toordinal (Bloom.end_date bloom)) in *.
  set (now := Date.toordinal today). set (next := Date.toordinal later).
  stage_cases; repeat split; intros; try discriminate; try reflexivity;
    try lia.
Qed.

Import String.

(** X4.  Two or three hints are returned; below 60 degrees they are the
    three of the zone of the latitude, whatever the event is, and from 60
    degrees on the first two are the arctic ones. *)
Theorem species_hints_come_from_the_zone (bloom : Bloom.t) (latitude : Q) :
  let hints := _get_species_hints bloom latitude in
  (2 <= List.length hints <= 3)%nat /\
  ((Qabs latitude < 235 # 10)%Q -> hints = tropical_hints) /\
  ((235 # 10 <= Qabs latitude)%Q -> (Qabs latitude < 40)%Q ->
   hints = subtropical_hints) /\
  ((40 <= Qabs latitude)%Q -> (Qabs latitude < 60)%Q ->
   hints = temperate_hints) /\
  ((60 <= Qabs latitude)%Q -> firstn 2 hints = arctic_hints).
Proof.
  cbv zeta. unfold _get_species_hints.
  destruct (Py.Qltb (Qabs latitude) (235 # 10)) eqn:E1;
    [apply PyFacts.Qltb_lt in E1 | apply PyFacts.Qltb_ge in E1];
  (destruct (Py.Qltb (Qabs latitude) 40) eqn:E2;
    [apply PyFacts.Qltb_lt in E2 | apply PyFacts.Qltb_ge in E2]);
  (destruct (Py.Qltb (Qabs latitude) 60) eqn:E3;
    [apply PyFacts.Qltb_lt in E3 | apply PyFacts.Qltb_ge in E3]);
  destruct (Py.Qltb (8 # 10) (Bloom.bloom_intensity bloom)),
    (Py.Qltb (6 # 10) (Bloom.bloom_intensity bloom)),
    (60 <? Bloom.duration_days bloom), (Bloom.duration_days bloom <? 30);
  cbn; repeat split; intros; try reflexivity; try lia; exfalso; lra.
Qed.

End EventsFacts.

(** ** Shape of the threshold candidates *)

Module ShapeFacts.
Import Frame FrameFacts Threshold.

Lemma iloc_In {A} (l : list A) i x : iloc l i = Some x -> In x l.
Proof.
  unfold iloc. destruct (i <? 0); [destruct (_ <? 0); [discriminate |] |];
    apply nth_error_In.
Qed.

Lemma bloom_of_spec df s p e c m b :
  bloom_of df s p e c m = Some b <-> candidate_at df s p e c m b.
Proof.
  unfold bloom_of, candidate_at. split.
  - destruct (iloc df s) as [rs |]; [| discriminate].
    destruct (iloc df p) as [rp |]; [| discriminate].
    destruct (iloc df e) as [re |]; [| discriminate].
    cbn. intros [= <-]. now exists rs, rp, re.
  - intros (rs & rp & re & -> & -> & -> & ->). reflexivity.
Qed.

Lemma threshold_loop_shape df :
  forall periods blooms out,
    Forall (fun p => is_run (bloom_mask df) (fst p) (snd p)) periods ->
    Forall (threshold_candidate df) blooms ->
    threshold_loop df periods blooms = Some out ->
    Forall (threshold_candidate df) out.
Proof.
  induction periods as [| [s e] periods IH]; intros blooms out Hp Hb;
    cbn [threshold_loop].
  - now intros [= <-].
  - inversion Hp as [| ? ? Hrun Hp']; subst. cbn [fst snd] in Hrun.
    destruct (Z.leb_spec 2 (e - s)) as [Hlong | Hshort]; [| now apply IH].
    destruct (peak_position ndvi_smooth df s e) as [p |] eqn:Ep;
      [| discriminate].
    cbn [Py.bind].
    destruct (bloom_of df s p e (7 # 10) Bloom.threshold) as [b |] eqn:Eb;
      [| discriminate].
    cbn [Py.bind]. apply IH; [exact Hp' |].
    apply Forall_app. split; [exact Hb |]. constructor; [| constructor].
    exists s, p, e. split; [exact Hrun |]. split; [exact Hlong |].
    split; [exact Ep |]. now apply bloom_of_spec.
Qed.

(** X5.  On any frame, every candidate of the threshold detector spans a
    maximal run of at least three samples above both thresholds: its dates
    are those of the rows at the start, at the peak position and at the end
    of the run, its confidence is 0.7 and its method [threshold]. *)
Theorem threshold_candidates_span_runs (df : list row) :
  Forall (threshold_candidate df) (_detect_threshold_blooms df).
Proof.
  unfold _detect_threshold_blooms, threshold_body.
  destruct (threshold_loop df _ []) as [out |] eqn:E; cbn; [| constructor].
  eapply threshold_loop_shape; [| | exact E].
  - apply ThresholdFacts.periods_are_runs.
  - constructor.
Qed.

End ShapeFacts.

Module PeriodFacts.
Import Frame FrameFacts Threshold.

Lemma find_periods_from_cover M mask :
  forall pre start_idx periods,
    M = pre ++ mask ->
    (forall s, start_idx = Some s -> 0 <= s < len pre) ->
    StronglySorted separated periods ->
    Forall (fun p => snd p + 1 < scan_bound start_idx (len pre)) periods ->
    (forall k, 0 <= k < len pre -> iloc M k = Some true ->
               covers periods k \/
               exists s, start_idx = Some s /\ s <= k) ->
    let r := find_periods_from mask (len pre) start_idx periods in
    StronglySorted separated (fst r) /\
    Forall (fun p => snd p + 1 < scan_bound (snd r) (len M)) (fst r) /\
    (forall s, snd r = Some s -> 0 <= s < len M) /\
    (forall k, 0 <= k < len M -> iloc M k = Some true ->
               covers (fst r) k \/ exists s, snd r = Some s /\ s <= k).
Proof.
  induction mask as [| b mask IH];
    intros pre start_idx periods HM Hs Hsorted Hbound Hcover.
  - cbn. rewrite app_nil_r in HM. subst pre.
    split; [assumption | split; [assumption | split; assumption]].
  - assert (Hb : iloc M (len pre) = Some b) by (subst M; apply iloc_app_head).
    assert (HM' : M = (pre ++ [b]) ++ mask) by (now rewrite <- app_assoc).
    assert (Hlen : len (pre ++ [b]) = len pre + 1)
      by (rewrite len_app; reflexivity).
    pose proof (len_nonneg pre) as Hpre.
    cbn [find_periods_from].
    destruct b, start_idx as [s |]; rewrite <- Hlen.
    + (* the run goes on *)
      apply IH; auto.
      * intros s' [= <-]. specialize (Hs s eq_refl). rewrite Hlen. lia.
      * intros k Hk Hkt. rewrite Hlen in Hk.
        destruct (Z.eq_dec k (len pre)) as [-> | Hne].
        -- right. exists s. split; [reflexivity |].
           specialize (Hs s eq_refl). lia.
        -- apply Hcover; [lia | exact Hkt].
    + (* a run opens *)
      apply IH; auto.
      * intros s' [= <-]. rewrite Hlen. lia.
      * intros k Hk Hkt. rewrite Hlen in Hk.
        destruct (Z.eq_dec k (len pre)) as [-> | Hne].
        -- right. exists (len pre). split; [reflexivity | lia].
        -- destruct (Hcover k ltac:(lia) Hkt) as [Hc | (s & Hs' & _)];
             [now left | discriminate].
    + (* the run closes *)
      specialize (Hs s eq_refl). cbn [scan_bound] in Hbound.
      apply IH; auto.
      * intros s' Hs'. discriminate.
      * apply MergeFacts.StronglySorted_snoc; [exact Hsorted |].
        eapply Forall_impl; [| exact Hbound]. intros p Hp. exact Hp.
      * cbn [scan_bound]. rewrite Hlen. apply Forall_app. split.
        -- eapply Forall_impl; [| exact Hbound]. cbn. intros p Hp. lia.
        -- constructor; [cbn; lia | constructor].
      * intros k Hk Hkt. rewrite Hlen in Hk. left.
        destruct (Z.eq_dec k (len pre)) as [-> | Hne]; [congruence |].
        destruct (Hcover k ltac:(lia) Hkt)
          as [(p & Hp & Hkp) | (s' & Hs' & Hle)].
        -- exists p. split; [apply in_or_app; now left | exact Hkp].
        -- injection Hs' as <-. exists (s, len pre - 1).
           split; [apply in_or_app; right; now left | cbn; lia].
    + (* no run *)
      apply IH; auto.
      * intros s' Hs'. discriminate.
      * cbn [scan_bound] in *. rewrite Hlen.
        eapply Forall_impl; [| exact Hbound]. cbn. intros p Hp. lia.
      * intros k Hk Hkt. rewrite Hlen in Hk.
        destruct (Z.eq_dec k (len pre)) as [-> | Hne]; [congruence |].
        apply Hcover; [lia | exact Hkt].
Qed.

(** X6.  The periods found in a mask are maximal runs of [true], in
    ascending order with at least one sample between two of them, and
    every [true] position lies in one of them. *)
Theorem continuous_periods_are_the_runs (mask : list bool) :
  let periods := _find_continuous_periods mask in
  Forall (fun p => is_run mask (fst p) (snd p)) periods /\
  StronglySorted separated periods /\
  (forall k, 0 <= k -> iloc mask k = Some true -> covers periods k).
Proof.
  cbv zeta. split; [apply ThresholdFacts.periods_are_runs |].
  unfold _find_continuous_periods.
  destruct (find_periods_from_cover mask mask [] None [] eq_refl)
    as (Hsorted & Hbound & Hs & Hcover).
  - discriminate.
  - constructor.
  - constructor.
  - intros k Hk. change (len []) with 0 in Hk. lia.
  - change (len (@nil bool)) with 0 in *.
    destruct (find_periods_from mask 0 None []) as [periods start_idx].
    cbn [fst snd] in *.
    destruct start_idx as [s |].
    + split.
      * apply MergeFacts.StronglySorted_snoc; [exact Hsorted |].
        eapply Forall_impl; [| exact Hbound]. intros p Hp. exact Hp.
      * intros k Hk Hkt.
        assert (Hlt : k < len mask) by (eapply iloc_Some_bound; eassumption).
        destruct (Hcover k ltac:(lia) Hkt)
          as [(p & Hp & Hkp) | (s' & Hs' & Hle)].
        -- exists p. split; [apply in_or_app; now left | exact Hkp].
        -- injection Hs' as <-. exists (s, len mask - 1).
           split; [apply in_or_app; right; now left | cbn; lia].
    + split; [exact Hsorted |].
      intros k Hk Hkt.
      assert (Hlt : k < len mask) by (eapply iloc_Some_bound; eassumption).
      destruct (Hcover k ltac:(lia) Hkt) as [Hc | (s' & Hs' & _)];
        [exact Hc | discriminate].
Qed.

End PeriodFacts.

(** ** Peak detector *)

Module PeakShapeFacts.
Import Frame FrameFacts.
Import Peak PeakFacts.

Lemma plateau_end_spec x i i_max fuel :
  forall i_ahead,
    i < i_ahead <= i_max ->
    (forall k, i <= k < i_ahead -> (get x k == get x i)%Q) ->
    i_ahead <= plateau_end fuel x i i_ahead i_max <= i_max /\
    (forall k, i <= k < plateau_end fuel x i i_ahead i_max ->
               (get x k == get x i)%Q).
Proof.
  induction fuel as [| fuel IH]; intros i_ahead Hi Heq; cbn.
  - split; [lia | exact Heq].
  - destruct (Z.ltb_spec i_ahead i_max); cbn [andb];
      [| split; [lia | exact Heq]].
    destruct (Qeq_bool (get x i_ahead) (get x i)) eqn:E;
      [| split; [lia | exact Heq]].
    apply Qeq_bool_iff in E.
    destruct (IH (i_ahead + 1)) as (Hr & Hall); [lia | |].
    + intros k Hk. destruct (Z.eq_dec k i_ahead) as [-> | Hne];
        [exact E | apply Heq; lia].
    + split; [lia | exact Hall].
Qed.

Lemma local_maxima_loop_spec x fuel :
  forall i midpoints,
    1 <= i ->
    Forall (local_maximum x) midpoints ->
    Forall (fun m => m < i) midpoints ->
    StronglySorted Z.lt midpoints ->
    Forall (local_maximum x)
      (local_maxima_loop fuel x i (len x - 1) midpoints) /\
    StronglySorted Z.lt (local_maxima_loop fuel x i (len x - 1) midpoints).
Proof.
  induction fuel as [| fuel IH]; intros i midpoints Hi Hm Hlt Hs; cbn;
    [now split |].
  assert (Hweak : Forall (fun m => m < i + 1) midpoints).
  { eapply Forall_impl; [| exact Hlt]. cbn. intros; lia. }
  destruct (Z.ltb_spec i (len x - 1)) as [Hin | _]; [| now split].
  destruct (Py.Qltb (get x (i - 1)) (get x i)) eqn:Eup;
    [| apply IH; [lia | assumption ..]].
  destruct (plateau_end_spec x i (len x - 1) (length x) (i + 1))
    as (Hr & Hall); [lia | |].
  { intros k Hk. replace k with i by lia. reflexivity. }
  set (r := plateau_end (length x) x i (i + 1) (len x - 1)) in *.
  destruct (Py.Qltb (get x r) (get x i)) eqn:Edown;
    [| apply IH; [lia | assumption ..]].
  apply PyFacts.Qltb_lt in Eup, Edown.
  assert (Hmid : i <= (i + (r - 1)) / 2 <= r - 1)
    by (Z.div_mod_to_equations; lia).
  apply IH.
  - lia.
  - apply Forall_app. split; [exact Hm |]. constructor; [| constructor].
    exists i, (r - 1). split; [lia |]. split; [lia |].
    split; [reflexivity |]. split; [intros k Hk; apply Hall; lia |].
    split; [exact Eup |]. now replace (r - 1 + 1) with r by lia.
  - apply Forall_app. split.
    + eapply Forall_impl; [| exact Hlt]. cbn. intros; lia.
    + constructor; [lia | constructor].
  - apply MergeFacts.StronglySorted_snoc; [exact Hs |].
    eapply Forall_impl; [| exact Hlt]. cbn. intros; lia.
Qed.

Lemma local_maximum_inside x m : local_maximum x m -> 1 <= m < len x - 1.
Proof.
  intros (i & j & Hij & Hj & -> & _). Z.div_mod_to_equations; lia.
Qed.

Lemma local_maximum_neighbours x m :
  local_maximum x m ->
  (get x (m - 1) <= get x m)%Q /\ (get x (m + 1) <= get x m)%Q.
Proof.
  intros (i & j & Hij & Hj & -> & Hall & Hup & Hdown).
  assert (Hmid : i <= (i + j) / 2 <= j) by (Z.div_mod_to_equations; lia).
  set (m := (i + j) / 2) in *.
  pose proof (Hall m Hmid) as Em. split.
  - destruct (Z.eq_dec m i) as [-> | Hne]; [lra |].
    rewrite (Hall (m - 1)) by lia. lra.
  - destruct (Z.eq_dec m j) as [E | Hne]; [rewrite E in *; lra |].
    rewrite (Hall (m + 1)) by lia. lra.
Qed.

(** X7.  The positions [_local_maxima_1d] reports are in ascending order;
    each is strictly inside the signal, is the midpoint of a plateau with a
    lower sample on each side, and holds a value at least as large as both
    of its neighbours. *)
Theorem local_maxima_are_maxima (x : list Q) :
  StronglySorted Z.lt (_local_maxima_1d x) /\
  Forall (fun m => 1 <= m < len x - 1 /\ local_maximum x m /\
                   (get x (m - 1) <= get x m)%Q /\
                   (get x (m + 1) <= get x m)%Q)
    (_local_maxima_1d x).
Proof.
  destruct (local_maxima_loop_spec x (length x) 1 []) as (Hall & Hs);
    [lia | constructor .. |].
  split; [exact Hs |].
  eapply Forall_impl; [| exact Hall]. cbn. intros m Hm.
  split; [now apply local_maximum_inside |].
  split; [exact Hm | now apply local_maximum_neighbours].
Qed.

Lemma find_peaks_spec kd kp x height :
  Forall (fun p => local_maximum x p /\ (height <= get x p)%Q)
    (find_peaks kd kp x height).
Proof.
  unfold find_peaks. apply Forall_forall. intros p Hp.
  apply filter_In in Hp as (Hp & _). apply filter_In in Hp as (Hp & _).
  apply filter_In in Hp as (Hp & Hh). split.
  - destruct (local_maxima_loop_spec x (length x) 1 []) as (Hall & _);
      [lia | constructor .. |].
    rewrite Forall_forall in Hall. now apply Hall.
  - now apply PyFacts.Qleb_le.
Qed.

Lemma iloc_functional {A} (l : list A) i a b :
  iloc l i = Some a -> iloc l i = Some b -> a = b.
Proof. congruence. Qed.

Lemma find_start_loop_spec df threshold initial_start :
  0 <= initial_start ->
  forall count i,
    i = initial_start + Z.of_nat count - 1 -> i < len df ->
    exists s,
      find_start_loop df threshold count i initial_start = Some s /\
      initial_start <= s <= i + 1 /\
      above df threshold s i /\
      (s = initial_start \/ below df threshold (s - 1)).
Proof.
  intros H0. induction count as [| count IH]; intros i Hi Hlen;
    cbn [find_start_loop].
  - exists initial_start. split; [reflexivity |]. split; [lia |].
    split; [intros k r Hk; lia | now left].
  - destruct (iloc_in_bounds df i ltac:(lia)) as (r & Hr).
    rewrite Hr. cbn [Py.bind].
    destruct (Py.Qltb (ndvi_smooth r) threshold) eqn:E.
    + apply PyFacts.Qltb_lt in E. exists (i + 1).
      split; [reflexivity |]. split; [lia |].
      split; [intros k r' Hk; lia |]. right. exists r.
      now replace (i + 1 - 1) with i by lia.
    + apply PyFacts.Qltb_ge in E.
      destruct (IH (i - 1) ltac:(lia) ltac:(lia))
        as (s & Hs & Hrange & Habove & Hstop).
      exists s. split; [exact Hs |]. split; [lia |].
      split; [| exact Hstop].
      intros k r' Hk Hr'. destruct (Z.eq_dec k i) as [-> | Hne].
      * now rewrite (iloc_functional _ _ _ _ Hr' Hr).
      * apply (Habove k); [lia | exact Hr'].
Qed.

Lemma find_end_loop_spec df threshold initial_end :
  initial_end < len df ->
  forall count i,
    i = initial_end - Z.of_nat count + 1 -> 0 <= i ->
    exists e,
      find_end_loop df threshold count i initial_end = Some e /\
      i - 1 <= e <= initial_end /\
      above df threshold i e /\
      (e = initial_end \/ below df threshold (e + 1)).
Proof.
  intros H0. induction count as [| count IH]; intros i Hi Hlen;
    cbn [find_end_loop].
  - exists initial_end. split; [reflexivity |]. split; [lia |].
    split; [intros k r Hk; lia | now left].
  - destruct (iloc_in_bounds df i ltac:(lia)) as (r & Hr).
    rewrite Hr. cbn [Py.bind].
    destruct (Py.Qltb (ndvi_smooth r) threshold) eqn:E.
    + apply PyFacts.Qltb_lt in E. exists (i - 1).
      split; [reflexivity |]. split; [lia |].
      split; [intros k r' Hk; lia |]. right. exists r.
      now replace (i - 1 + 1) with i by lia.
    + apply PyFacts.Qltb_ge in E.
      destruct (IH (i + 1) ltac:(lia) ltac:(lia))
        as (e & He & Hrange & Habove & Hstop).
      exists e. split; [exact He |]. split; [lia |].
      split; [| exact Hstop].
      intros k r' Hk Hr'. destruct (Z.eq_dec k i) as [-> | Hne].
      * now rewrite (iloc_functional _ _ _ _ Hr' Hr).
      * apply (Habove k); [lia | exact Hr'].
Qed.

Lemma find_bloom_start_spec df peak_idx initial_start rp :
  0 <= initial_start <= peak_idx -> iloc df peak_idx = Some rp ->
  exists s,
    _find_bloom_start df peak_idx initial_start = Some s /\
    initial_start <= s <= peak_idx /\
    above df (ndvi_smooth rp * (5 # 10)) s (peak_idx - 1) /\
    (s = initial_start \/ below df (ndvi_smooth rp * (5 # 10)) (s - 1)).
Proof.
  intros H Hp. unfold _find_bloom_start. rewrite Hp. cbn [Py.bind].
  assert (Hlen : peak_idx < len df) by (eapply iloc_Some_bound; [lia | eauto]).
  destruct (find_start_loop_spec df (ndvi_smooth rp * (5 # 10)) initial_start
              ltac:(lia) (Z.to_nat (peak_idx - initial_start)) (peak_idx - 1)
              ltac:(lia) ltac:(lia)) as (s & Hs & Hr & Ha & Hb).
  exists s. split; [exact Hs |]. split; [lia |]. now split.
Qed.

Lemma find_bloom_end_spec df peak_idx initial_end rp :
  0 <= peak_idx <= initial_end -> initial_end < len df ->
  iloc df peak_idx = Some rp ->
  exists e,
    _find_bloom_end df peak_idx initial_end = Some e /\
    peak_idx <= e <= initial_end /\
    above df (ndvi_smooth rp * (5 # 10)) (peak_idx + 1) e /\
    (e = initial_end \/ below df (ndvi_smooth rp * (5 # 10)) (e + 1)).
Proof.
  intros H Hlen Hp. unfold _find_bloom_end. rewrite Hp. cbn [Py.bind].
  destruct (find_end_loop_spec df (ndvi_smooth rp * (5 # 10)) initial_end
              Hlen (Z.to_nat (initial_end - peak_idx)) (peak_idx + 1)
              ltac:(lia) ltac:(lia)) as (e & He & Hr & Ha & Hb).
  exists e. split; [exact He |]. split; [lia |]. now split.
Qed.

(** X8.  For a peak position within the frame and a window around it,
    [_find_bloom_start] and [_find_bloom_end] do not raise; they return
    positions of the window on each side of the peak, between which every
    sample is at least half the peak value; a bound that was moved inside
    the window stands next to a sample below half the peak value. *)
Theorem bloom_window_stops_at_half_peak (df : list row)
    (peak_idx initial_start initial_end : Z) :
  0 <= initial_start <= peak_idx -> peak_idx <= initial_end < len df ->
  exists rp s e,
    iloc df peak_idx = Some rp /\
    _find_bloom_start df peak_idx initial_start = Some s /\
    _find_bloom_end df peak_idx initial_end = Some e /\
    initial_start <= s <= peak_idx /\ peak_idx <= e <= initial_end /\
    above df (ndvi_smooth rp * (5 # 10)) s (peak_idx - 1) /\
    above df (ndvi_smooth rp * (5 # 10)) (peak_idx + 1) e /\
    (s = initial_start \/ below df (ndvi_smooth rp * (5 # 10)) (s - 1)) /\
    (e = initial_end \/ below df (ndvi_smooth rp * (5 # 10)) (e + 1)).
Proof.
  intros Hs He.
  destruct (iloc_in_bounds df peak_idx ltac:(lia)) as (rp & Hp).
  destruct (find_bloom_start_spec df peak_idx initial_start rp Hs Hp)
    as (s & E1 & R1 & A1 & B1).
  destruct (find_bloom_end_spec df peak_idx initial_end rp ltac:(lia)
              ltac:(lia) Hp) as (e & E2 & R2 & A2 & B2).
  exists rp, s, e. repeat (split; [assumption |]). assumption.
Qed.

Lemma get_map_iloc df p rp :
  0 <= p -> iloc df p = Some rp ->
  get (map ndvi_smooth df) p = ndvi_smooth rp.
Proof.
  intros H0 Hp. rewrite iloc_nonneg in Hp by exact H0. unfold get.
  apply nth_error_nth. now apply map_nth_error.
Qed.

Lemma len_map {A B} (f : A -> B) l : len (map f l) = len l.
Proof. unfold len. now rewrite length_map. Qed.

Lemma peak_loop_spec df :
  forall peaks blooms,
    Forall (fun p => local_maximum (map ndvi_smooth df) p /\
                     (Bloom.ndvi_bloom_threshold
                      <= get (map ndvi_smooth df) p)%Q) peaks ->
    Forall (peak_candidate df) blooms ->
    exists out,
      peak_loop df peaks blooms = Some out /\
      Forall (peak_candidate df) out.
Proof.
  induction peaks as [| p peaks IH]; intros blooms Hp Hb;
    cbn [peak_loop].
  - exists blooms. now split.
  - inversion Hp as [| ? ? (Hmax & Hheight) Hp']; subst.
    pose proof (local_maximum_inside _ _ Hmax) as Hin.
    rewrite len_map in Hin.
    destruct (iloc_in_bounds df p ltac:(lia)) as (rp & Hrp).
    rewrite (get_map_iloc df p rp ltac:(lia) Hrp) in Hheight.
    destruct (find_bloom_start_spec df p (Z.max 0 (p - 5)) rp ltac:(lia) Hrp)
      as (s & -> & Hs & As & _).
    destruct (find_bloom_end_spec df p (Z.min (len df - 1) (p + 5)) rp
                ltac:(lia) ltac:(lia) Hrp) as (e & -> & He & Ae & _).
    cbn [Py.bind].
    destruct (iloc_in_bounds df e ltac:(lia)) as (re & Hre).
    destruct (iloc_in_bounds df s ltac:(lia)) as (rs & Hrs).
    rewrite Hre, Hrs. cbn [Py.bind].
    destruct (_ && _) eqn:Ed; [| now apply IH].
    apply andb_true_iff in Ed as (Ed1 & Ed2).
    apply Z.leb_le in Ed1, Ed2.
    unfold Threshold.bloom_of. rewrite Hrs, Hrp, Hre. cbn [Py.bind].
    apply IH; [exact Hp' |].
    apply Forall_app. split; [exact Hb |]. constructor; [| constructor].
    exists s, p, e, rp.
    split; [exact Hmax |]. split; [exact Hrp |]. split; [exact Hheight |].
    split; [lia |]. split; [lia |]. split; [lia |]. split; [lia |].
    split; [| split].
    + intros k r Hk Hr.
      destruct (Z.lt_trichotomy k p) as [Hlt | [-> | Hgt]].
      * apply (As k); [lia | exact Hr].
      * rewrite (iloc_functional _ _ _ _ Hr Hrp).
        unfold Bloom.ndvi_bloom_threshold in Hheight. lra.
      * apply (Ae k); [lia | exact Hr].
    + now exists rs, rp, re.
    + cbn. split; assumption.
Qed.

Section AnySelection.

Variable keep_by_distance : list Q -> list Z -> Z -> bool.
Variable keep_by_prominence : list Q -> list Z -> Z -> bool.

(** X9.  Whatever [find_peaks] selects by distance and prominence, the
    peak detector does not raise, and each of its candidates is built on a
    local maximum of the smoothed NDVI of at least 0.4, from a window of at
    most five samples on each side in which every sample is at least half
    the peak value; its duration is between 14 and 120 days, its confidence
    0.8 and its method [peak]. *)
Theorem peak_detector_never_raises (df : list row) :
  exists blooms,
    peak_body keep_by_distance keep_by_prominence df = Some blooms /\
    _detect_peak_blooms keep_by_distance keep_by_prominence df = blooms /\
    Forall (peak_candidate df) blooms.
Proof.
  destruct (peak_loop_spec df
              (find_peaks keep_by_distance keep_by_prominence
                 (map ndvi_smooth df) Bloom.ndvi_bloom_threshold) [])
    as (out & E & Hout); [apply find_peaks_spec | constructor |].
  exists out. unfold _detect_peak_blooms, peak_body. rewrite E.
  repeat split. exact Hout.
Qed.

End AnySelection.

End PeakShapeFacts.

(** ** Change-point detector *)

Module ChangeShapeFacts.
Import Frame FrameFacts.
Import Stats ChangePoint.

Lemma list_min_In others :
  forall first, In (list_min first others) (first :: others).
Proof.
  unfold list_min. induction others as [| x others IH]; intros first; cbn.
  - now left.
  - destruct (IH (Z.min first x)) as [E | H].
    + rewrite <- E. destruct (Z.min_spec first x) as [(_ & ->) | (_ & ->)];
        auto.
    + auto.
Qed.

Lemma change_loop_shape df decrease_points :
  forall increase_points blooms out,
    Forall (change_candidate df) blooms ->
    change_loop df increase_points decrease_points blooms = Some out ->
    Forall (change_candidate df) out.
Proof.
  induction increase_points as [| s rest IH]; intros blooms out Hb;
    cbn [change_loop].
  - now intros [= <-].
  - destruct (filter (fun idx => s <? idx) decrease_points)
      as [| first others] eqn:Ef; [now apply IH |].
    assert (Hlt : s < list_min first others).
    { pose proof (list_min_In others first) as Hin. rewrite <- Ef in Hin.
      apply filter_In in Hin as (_ & Hin). now apply Z.ltb_lt. }
    set (e := list_min first others) in *.
    destruct (Threshold.peak_position ndvi_smooth df s e) as [p |] eqn:Ep;
      [| discriminate].
    cbn [Py.bind].
    destruct (iloc df e) as [re |] eqn:Ere; [| discriminate].
    destruct (iloc df s) as [rs |] eqn:Ers; [| discriminate].
    cbn [Py.bind].
    destruct (_ && _) eqn:Ed; [| now apply IH].
    apply andb_true_iff in Ed as (Ed1 & Ed2). apply Z.leb_le in Ed1, Ed2.
    destruct (iloc df p) as [rp |] eqn:Erp; [| discriminate].
    cbn [Py.bind].
    destruct (Py.Qltb Bloom.ndvi_bloom_threshold (ndvi_smooth rp)) eqn:Eh;
      [| now apply IH].
    apply PyFacts.Qltb_lt in Eh.
    unfold Threshold.bloom_of. rewrite Ers, Erp, Ere. cbn [Py.bind].
    apply IH. apply Forall_app. split; [exact Hb |].
    constructor; [| constructor].
    exists s, p, e. split; [exact Hlt |]. split; [exact Ep |].
    split; [now exists rs, rp, re |]. cbn. split; [split |]; assumption.
Qed.

Lemma valid_values_diff_from l :
  forall p, length (valid_values (diff_from p l)) = length l.
Proof.
  induction l as [| x l IH]; intros p; cbn; [reflexivity | now f_equal].
Qed.

Lemma valid_values_diff l :
  len (valid_values (diff l)) = Z.max 0 (len l - 1).
Proof.
  unfold len. destruct l as [| x l]; cbn [diff]; [reflexivity |].
  change (valid_values (None :: diff_from x l))
    with (valid_values (diff_from x l)).
  rewrite valid_values_diff_from. cbn [length]. lia.
Qed.

Section AnySqrt.

Variable sqrt : Q -> Q.

(** X10.  Whatever the square root, each candidate of the change-point
    detector runs from an index label to a larger one, lasts between 14 and
    120 days, has a peak NDVI above 0.4, confidence 0.6 and method
    [change_point]; on a frame of fewer than three rows the standard
    deviation of the differences is NaN and there is no candidate. *)
Theorem change_point_candidates_shape (df : list row) :
  Forall (change_candidate df) (_detect_change_point_blooms sqrt df) /\
  (len df < 3 -> change_body sqrt df = Some []).
Proof.
  split.
  - unfold _detect_change_point_blooms.
    destruct (change_body sqrt df) as [out |] eqn:E; cbn; [| constructor].
    unfold change_body in E.
    eapply change_loop_shape; [| exact E]. constructor.
  - intros Hshort. unfold change_body.
    assert (Estd : std sqrt (diff (map ndvi_smooth df)) = None).
    { unfold std. rewrite valid_values_diff.
      unfold len in *. rewrite length_map.
      destruct (Z.ltb_spec (Z.max 0 (Z.of_nat (length df) - 1)) 2);
        [reflexivity | lia]. }
    rewrite Estd. cbn [scale].
    rewrite ChangePointFacts.labels_where_none; [reflexivity |].
    rewrite Forall_map. apply Forall_forall. intros [d |] _; reflexivity.
Qed.

End AnySqrt.

End ChangeShapeFacts.

(** ** Span of a merged event *)

Module MergeSpanFacts.
Import Bloom MergeFacts.

Lemma ltb_leb a b : Date.ltb a b = true -> Date.leb a b = true.
Proof. rewrite DateFacts.ltb_iff, DateFacts.leb_iff. lia. Qed.

(** A property of an event and of the candidates merged into it that holds
    for a single candidate and is kept by a merge step holds for every group
    of the scan. *)
Lemma merge_loop_groups_inv (P : t -> list t -> Prop) :
  (forall c, well_formed c -> P c [c]) ->
  (forall c g b, well_formed c -> well_formed b -> P c g ->
                 P (merged_with c b) (g ++ [b])) ->
  forall rest merged c g gs,
    well_formed c -> Forall well_formed rest ->
    Forall (fun p => P (fst p) (snd p)) merged -> P c g ->
    merge_loop_groups merged c g rest = Some gs ->
    Forall (fun p => P (fst p) (snd p)) gs.
Proof.
  intros Hsingle Hstep.
  induction rest as [| b rest IH]; intros merged c g gs Hc Hrest Hm Hcg.
  - cbn. intros [= <-]. apply Forall_app. split; [exact Hm |].
    now repeat constructor.
  - inversion Hrest as [| ? ? Hb Hrest']; subst.
    rewrite merge_loop_groups_cons by assumption.
    destruct (_ <=? 7).
    + apply IH; auto using merged_with_wf.
    + apply IH; auto.
      apply Forall_app. split; [exact Hm |]. now repeat constructor.
Qed.

Lemma merge_groups_inv (P : t -> list t -> Prop) l gs :
  (forall c, well_formed c -> P c [c]) ->
  (forall c g b, well_formed c -> well_formed b -> P c g ->
                 P (merged_with c b) (g ++ [b])) ->
  Forall well_formed l -> merge_groups l = Some gs ->
  Forall (fun p => P (fst p) (snd p)) gs.
Proof.
  intros Hsingle Hstep Hl. apply sorted_Forall in Hl. unfold merge_groups.
  destruct (sorted l) as [| first rest]; [intros [= <-]; constructor |].
  inversion Hl; subst.
  apply (merge_loop_groups_inv P Hsingle Hstep); auto.
Qed.

Lemma spans_single c : spans c [c].
Proof.
  split; [now left |]. split; [| now left].
  constructor; [apply DateFacts.leb_refl | constructor].
Qed.

Lemma spans_step c g b : spans c g -> spans (merged_with c b) (g ++ [b]).
Proof.
  intros (Hin & Hall & Hd).
  assert (Hend : end_date (merged_with c b)
                 = Py.max_str (end_date c) (end_date b)) by reflexivity.
  unfold spans. rewrite Hend. split; [| split].
  - rewrite map_app, in_app_iff.
    destruct (PyFacts.max_str_cases (end_date c) (end_date b))
      as [(-> & _) | (-> & _)]; [now left | right; now left].
  - apply Forall_app.
    destruct (PyFacts.max_str_cases (end_date c) (end_date b))
      as [(-> & Hle) | (-> & Hlt)]; split.
    + exact Hall.
    + constructor; [exact Hle | constructor].
    + eapply Forall_impl; [| exact Hall]. cbn. intros x Hx.
      eapply DateFacts.leb_trans; [exact Hx | now apply ltb_leb].
    + constructor; [apply DateFacts.leb_refl | constructor].
  - right. split; [| rewrite <- Hend; reflexivity].
    rewrite length_app. cbn.
    destruct g; [destruct Hin | cbn; lia].
Qed.

Lemma merge_groups_wf l gs :
  Forall well_formed l -> merge_groups l = Some gs ->
  Forall (fun p => well_formed (fst p)) gs.
Proof.
  apply (merge_groups_inv (fun e _ => well_formed e)); auto.
  intros c g b Hc Hb _. now apply merged_with_wf.
Qed.

Lemma merge_groups_spans l gs :
  Forall well_formed l -> merge_groups l = Some gs ->
  Forall (fun p => spans (fst p) (snd p)) gs.
Proof.
  apply merge_groups_inv.
  - intros c _. apply spans_single.
  - intros c g b _ _. apply spans_step.
Qed.

Lemma merged_wf l :
  Forall well_formed l -> Forall well_formed (_merge_bloom_events l).
Proof.
  intros Hl. destruct (merge_groups_spec l Hl) as (gs & E & _).
  rewrite (merge_body_groups l gs E).
  pose proof (merge_groups_wf l gs Hl E) as Hwf.
  apply Forall_forall. intros e He. apply filter_In in He as (He & _).
  apply in_map_iff in He as (p & <- & Hp).
  rewrite Forall_forall in Hwf. now apply Hwf.
Qed.

(** X11.  Every event the merger returns has three valid dates; its end
    date is the latest end date of the candidates merged into it; an event
    made of one candidate is that candidate unchanged, and the duration of
    an event made of several is the number of days from its start to its
    end. *)
Theorem merged_event_spans_its_group (bloom_events : list t) :
  Forall well_formed bloom_events ->
  exists groups,
    merge_groups bloom_events = Some groups /\
    forall e,
      In e (_merge_bloom_events bloom_events) ->
      exists g,
        In (e, g) groups /\ well_formed e /\ spans e g /\
        (forall c, In c g -> In c bloom_events).
Proof.
  intros Hl. destruct (merge_groups_spec bloom_events Hl) as (gs & E & _ & C).
  exists gs. split; [exact E |]. intros e He.
  destruct (merged_event_group bloom_events gs e E He) as (g & Hg).
  exists g. split; [exact Hg |].
  pose proof (merge_groups_wf _ _ Hl E) as Hwf.
  pose proof (merge_groups_spans _ _ Hl E) as Hsp.
  rewrite Forall_forall in Hwf, Hsp.
  split; [exact (Hwf _ Hg) |]. split; [exact (Hsp _ Hg) |].
  intros c Hc. eapply group_member; eassumption.
Qed.

Lemma sorted_id l : StronglySorted le_start l -> sorted l = l.
Proof.
  induction 1 as [| x l Hl IH Hx]; [reflexivity |].
  change (sorted (x :: l)) with (insert_by_start x (sorted l)).
  rewrite IH. destruct l as [| y l']; [reflexivity |].
  cbn. inversion Hx as [| ? ? Hxy _]; subst.
  unfold le_start in Hxy. now rewrite Hxy.
Qed.

Lemma merge_loop_apart_id rest :
  forall merged c,
    well_formed c -> Forall well_formed rest ->
    StronglySorted apart (c :: rest) ->
    merge_loop merged c rest = Some (merged ++ c :: rest).
Proof.
  induction rest as [| b rest IH]; intros merged c Hc Hrest Hs;
    [reflexivity |].
  inversion Hrest as [| ? ? Hb Hrest']; subst.
  inversion Hs as [| ? ? Hs' Hcb]; subst.
  inversion Hcb as [| ? ? (_ & Hgap) _]; subst.
  rewrite merge_loop_cons by assumption.
  unfold Date.days_between in Hgap.
  destruct (Z.leb_spec (Date.toordinal (start_date b)
                        - Date.toordinal (end_date c)) 7); [lia |].
  rewrite IH by assumption. now rewrite <- app_assoc.
Qed.

Lemma filter_all {A} (f : A -> bool) l :
  Forall (fun x => f x = true) l -> filter f l = l.
Proof.
  induction 1 as [| x l Hx _ IH]; cbn; [reflexivity |].
  now rewrite Hx, IH.
Qed.

Lemma merge_settled l :
  Forall well_formed l -> StronglySorted apart l ->
  Forall (fun b => min_bloom_duration <= duration_days b) l ->
  _merge_bloom_events l = l.
Proof.
  intros Hwf Hs Hd. unfold _merge_bloom_events, merge_body, merge_scan.
  rewrite sorted_id
    by (eapply StronglySorted_weaken; [| exact Hs]; now intros a b (H & _)).
  destruct l as [| c rest]; [reflexivity |].
  inversion Hwf; subst.
  rewrite merge_loop_apart_id by assumption. cbn [app Py.bind Py.try_except].
  apply filter_all. eapply Forall_impl; [| exact Hd].
  cbn. intros b Hb. now apply Z.leb_le.
Qed.

Lemma merged_apart l :
  Forall well_formed l -> StronglySorted apart (_merge_bloom_events l).
Proof.
  intros Hl. destruct (merge_scan_apart l Hl) as (out & E & Hs).
  unfold _merge_bloom_events, merge_body. rewrite E. cbn.
  now apply StronglySorted_filter.
Qed.

Lemma merged_long l :
  Forall well_formed l ->
  Forall (fun b => min_bloom_duration <= duration_days b)
    (_merge_bloom_events l).
Proof.
  intros Hl. destruct (merge_scan_apart l Hl) as (out & E & _).
  unfold _merge_bloom_events, merge_body. rewrite E. cbn.
  apply Forall_forall. intros b Hb. apply filter_In in Hb as (_ & Hb).
  now apply Z.leb_le.
Qed.

(** X12.  Merging the events the merger returned changes nothing. *)
Theorem merge_is_idempotent (bloom_events : list t) :
  Forall well_formed bloom_events ->
  _merge_bloom_events (_merge_bloom_events bloom_events)
  = _merge_bloom_events bloom_events.
Proof.
  intros Hl.
  apply merge_settled;
    [now apply merged_wf | now apply merged_apart | now apply merged_long].
Qed.

End MergeSpanFacts.

(** ** The detection pipeline *)

Module DetectFacts.
Import Frame FrameFacts.
Import Events MergeFacts MergeSpanFacts.

Lemma species_hints_length bloom latitude :
  (2 <= List.length (_get_species_hints bloom latitude) <= 3)%nat.
Proof.
  unfold _get_species_hints.
  destruct (Py.Qltb (Qabs latitude) (235 # 10)),
    (Py.Qltb (Qabs latitude) 40), (Py.Qltb (Qabs latitude) 60),
    (Py.Qltb (8 # 10) (Bloom.bloom_intensity bloom)),
    (Py.Qltb (6 # 10) (Bloom.bloom_intensity bloom)),
    (60 <? Bloom.duration_days bloom), (Bloom.duration_days bloom <? 30);
    cbn; lia.
Qed.

Lemma stage_known bloom today :
  Bloom.well_formed bloom -> _determine_bloom_stage bloom today <> unknown.
Proof.
  intros H. rewrite (EventsFacts.stage_body_wf bloom today H). cbv zeta.
  repeat match goal with
         | |- context [if ?c then _ else _] => destruct c
         end; discriminate.
Qed.

Lemma preprocess_dates ts r :
  In r (Preprocess.preprocess ts) -> In (date r) (map obs_date ts).
Proof.
  intros Hr. unfold Preprocess.preprocess in Hr.
  apply (in_map date) in Hr.
  destruct (PreprocessFacts.smooth_columns
              (Preprocess.numbers
                 (Preprocess._clean_time_series (DataFrame ts)))) as (Ed & _).
  rewrite Ed in Hr. apply in_map_iff in Hr as (c & Ec & Hc).
  rewrite PreprocessFacts.clean_numbers in Hc.
  unfold Preprocess.interpolated in Hc.
  apply PreprocessFacts.numbers_In in Hc as (raw & Hraw & _ & Eraw & _).
  apply (in_map raw_date) in Hraw.
  destruct (PreprocessFacts.assign_spec (DataFrame ts)
              (Preprocess.interpolate 3
                 (map Preprocess.mask_range (map raw_ndvi (DataFrame ts))))
              (Preprocess.interpolate 3
                 (map Preprocess.mask_range (map raw_evi (DataFrame ts)))))
    as (Edates & _).
  1, 2: now rewrite PreprocessFacts.interpolate_length, !length_map.
  rewrite Edates in Hraw. unfold DataFrame in Hraw.
  rewrite PreprocessFacts.reset_index_dates in Hraw.
  rewrite <- Ec, <- Eraw.
  eapply Permutation_in; [| exact Hraw].
  apply Permutation_map, PreprocessFacts.sort_values_perm.
Qed.

Lemma dated_valid ts d :
  Forall (fun o => dated (obs_date o)) ts ->
  In d (map obs_date ts) -> Date.valid d.
Proof.
  intros H Hd. apply in_map_iff in Hd as (o & <- & Ho).
  rewrite Forall_forall in H. now destruct (H o Ho).
Qed.

Lemma forallb_present cleaned :
  Forall (fun r => Preprocess.present r = true) cleaned ->
  forallb Preprocess.present cleaned = true.
Proof.
  intros H. apply forallb_forall. now apply Forall_forall.
Qed.

Section Detect.

Variable sqrt : Q -> Q.
Variable keep_by_distance : list Q -> list Z -> Z -> bool.
Variable keep_by_prominence : list Q -> list Z -> Z -> bool.
Variable holds : Date.date -> bool.
Variable object_frame_events :
  list raw -> Q -> Q -> Date.date -> list bloom_info.

Lemma candidates_of_rows df :
  Forall (candidate_of_rows df)
    (candidates sqrt keep_by_distance keep_by_prominence df).
Proof.
  unfold candidates.
  apply Forall_app; split; [| apply Forall_app; split].
  - unfold Threshold._detect_threshold_blooms, Threshold.threshold_body.
    destruct (Threshold.threshold_loop df _ []) as [out |] eqn:E; cbn;
      [| constructor].
    eapply Forall_impl;
      [| eapply ShapeFacts.threshold_loop_shape;
         [apply ThresholdFacts.periods_are_runs | constructor | exact E]].
    intros b (s & p & e & _ & _ & _ & Hb).
    exists s, p, e, (7 # 10)%Q, Bloom.threshold.
    split; [exact Hb | cbn; auto].
  - unfold Peak._detect_peak_blooms, Peak.peak_body.
    destruct (PeakShapeFacts.peak_loop_spec df
                (Peak.find_peaks keep_by_distance keep_by_prominence
                   (map ndvi_smooth df) Bloom.ndvi_bloom_threshold) [])
      as (out & -> & Hout);
      [apply PeakShapeFacts.find_peaks_spec | constructor |].
    cbn. eapply Forall_impl; [| exact Hout].
    intros b (s & p & e & rp & _ & _ & _ & _ & _ & _ & _ & _ & Hb & _).
    exists s, p, e, (8 # 10)%Q, Bloom.peak. split; [exact Hb | cbn; auto].
  - unfold ChangePoint._detect_change_point_blooms.
    destruct (ChangePoint.change_body sqrt df) as [out |] eqn:E; cbn;
      [| constructor].
    eapply Forall_impl;
      [| eapply ChangeShapeFacts.change_loop_shape;
         [constructor | exact E]].
    intros b (s & p & e & _ & _ & Hb & _).
    exists s, p, e, (6 # 10)%Q, Bloom.change_point.
    split; [exact Hb | cbn; auto].
Qed.

Lemma candidate_sound ts b :
  Forall (fun o => dated (obs_date o)) ts ->
  candidate_of_rows (Preprocess.preprocess ts) b -> sound_event ts b.
Proof.
  intros Hts (s & p & e & c & m & (rs & rp & re & Hs & Hp & He & ->) & Hc).
  assert (Hobs : forall i r, iloc (Preprocess.preprocess ts) i = Some r ->
                             observed ts (date r)).
  { intros i r Hr. apply ShapeFacts.iloc_In, preprocess_dates in Hr.
    split; [eapply dated_valid; eassumption | exact Hr]. }
  unfold sound_event. cbn.
  split; [eapply Hobs; eassumption |].
  split; [eapply Hobs; eassumption |].
  split; [eapply Hobs; eassumption |]. split; [reflexivity | exact Hc].
Qed.

Lemma sound_wf ts b : sound_event ts b -> Bloom.well_formed b.
Proof. intros ((H1 & _) & (H2 & _) & (H3 & _) & _). now repeat split. Qed.

Lemma merged_sound ts l :
  Forall (sound_event ts) l ->
  Forall (sound_event ts) (Bloom._merge_bloom_events l).
Proof.
  intros Hl.
  assert (Hwf : Forall Bloom.well_formed l)
    by (eapply Forall_impl; [apply sound_wf | exact Hl]).
  destruct (merge_groups_spec l Hwf) as (gs & E & Hsum & C).
  pose proof (merge_groups_spans l gs Hwf E) as Hspans.
  rewrite Forall_forall in Hl, Hsum, Hspans.
  apply Forall_forall. intros e He.
  destruct (merged_event_group l gs e E He) as (g & Hg).
  assert (Hmem : forall c, In c g -> sound_event ts c).
  { intros c Hc. apply Hl. eapply group_member; eassumption. }
  destruct (Hsum _ Hg) as (c0 & g' & Eg & Es & Ep & _ & _ & _ & _ & Hconf).
  destruct (Hspans _ Hg) as (Hend & _ & Hd). cbn [fst snd] in *.
  destruct (Hmem c0 ltac:(rewrite Eg; now left))
    as (Hs0 & Hp0 & _ & _ & _).
  unfold sound_event. rewrite Es, Ep.
  split; [exact Hs0 |]. split; [exact Hp0 |]. split; [| split].
  - apply in_map_iff in Hend as (c & <- & Hc).
    now destruct (Hmem c Hc) as (_ & _ & H & _).
  - destruct Hd as [-> | (_ & Hd)].
    + destruct (Hmem e ltac:(now left)) as (_ & _ & _ & H & _).
      now rewrite <- Es.
    + rewrite <- Es. exact Hd.
  - destruct Hconf as (Hin & _).
    apply in_map_iff in Hin as (c & <- & Hc).
    now destruct (Hmem c Hc) as (_ & _ & _ & _ & H).
Qed.

(** X13.  Whatever the square root, the selections of [find_peaks] and the
    dates pandas holds: when the dates of the observations are valid dates
    of a year of four digits and each of the columns [ndvi] and [evi] holds
    a number, every entry of the result of [detect_bloom_events] carries
    the location it was asked for, a stage that is not [unknown], two or
    three species hints, and an event whose three dates are dates of
    observations, whose duration is the number of days from its start to
    its end and at least 14, and whose confidence is 0.6, 0.7 or 0.8; the
    events are in ascending order of start date, each starting more than
    seven days after the one before ends. *)
Theorem detected_events_are_sound (time_series : list observation)
    (latitude longitude : Q) (current_date : Date.date) :
  Forall (fun o => dated (obs_date o)) time_series ->
  Preprocess.float64 (map raw_ndvi (DataFrame time_series)) = true ->
  Preprocess.float64 (map raw_evi (DataFrame time_series)) = true ->
  let out :=
    detect_bloom_events sqrt keep_by_distance keep_by_prominence holds
      object_frame_events time_series latitude longitude current_date in
  Forall (reported time_series latitude longitude current_date) out /\
  StronglySorted Bloom.apart (map event out).
Proof.
  intros Hdated Fn Fe. cbv zeta. unfold detect_bloom_events.
  destruct time_series as [| o ts']; [split; constructor |].
  set (ts := o :: ts') in *. unfold detect_body.
  destruct (to_datetime holds ts) as [[] |];
    cbn [Py.bind Py.try_except]; [| split; constructor].
  destruct (PreprocessFacts.clean_ran (DataFrame ts) Fn Fe) as (_ & Hp).
  rewrite (forallb_present _ Hp). cbn [Py.try_except].
  set (l := candidates sqrt keep_by_distance keep_by_prominence
              (Preprocess.preprocess ts)).
  assert (Hl : Forall (sound_event ts) l).
  { eapply Forall_impl; [| apply candidates_of_rows].
    intros b. now apply candidate_sound. }
  assert (Hwf : Forall Bloom.well_formed l)
    by (eapply Forall_impl; [apply sound_wf | exact Hl]).
  clearbody l. split.
  - rewrite Forall_map.
    pose proof (merged_sound ts l Hl) as Hsound.
    pose proof (merged_long l Hwf) as Hlong.
    pose proof (merged_wf l Hwf) as Hwf'.
    rewrite Forall_forall in Hsound, Hlong, Hwf'.
    apply Forall_forall. intros b Hb. unfold reported. cbn.
    split; [reflexivity |]. split; [reflexivity |]. split; [reflexivity |].
    split; [apply stage_known, Hwf', Hb |]. split; [reflexivity |].
    split; [apply species_hints_length |].
    split; [apply Hsound, Hb | apply Hlong, Hb].
  - rewrite map_map. cbn. rewrite map_id. now apply merged_apart.
Qed.

End Detect.

End DetectFacts.

(** ** Season indices and quality of short series *)

Module SeasonFacts.
Import Frame FrameFacts.
Import Phenology PhenologyFacts.

Lemma np_min_spec x l :
  exists lo, np_min (x :: l) = Some lo /\ In lo (x :: l) /\
             Forall (fun v => (lo <= v)%Q) (x :: l).
Proof.
  cbn [np_min]. eexists. split; [reflexivity |].
  revert x. induction l as [| y l IH]; intros x; cbn [fold_left].
  - split; [now left |]. constructor; [apply Qle_refl | constructor].
  - destruct (Py.Qltb y x) eqn:E.
    + apply PyFacts.Qltb_lt in E. destruct (IH y) as (Hin & Hall).
      split; [now right |].
      inversion Hall as [| ? ? Hy Hl]; subst.
      constructor; [lra |]. constructor; assumption.
    + apply PyFacts.Qltb_ge in E. destruct (IH x) as (Hin & Hall).
      split; [destruct Hin as [Hin | Hin]; [now left | right; now right] |].
      inversion Hall as [| ? ? Hx Hl]; subst.
      constructor; [exact Hx |]. constructor; [lra | exact Hl].
Qed.

Lemma np_max_spec x l :
  exists hi, np_max (x :: l) = Some hi /\ In hi (x :: l) /\
             Forall (fun v => (v <= hi)%Q) (x :: l).
Proof.
  cbn [np_max]. eexists. split; [reflexivity |].
  revert x. induction l as [| y l IH]; intros x; cbn [fold_left].
  - split; [now left |]. constructor; [apply Qle_refl | constructor].
  - destruct (Py.Qltb x y) eqn:E.
    + apply PyFacts.Qltb_lt in E. destruct (IH y) as (Hin & Hall).
      split; [now right |].
      inversion Hall as [| ? ? Hy Hl]; subst.
      constructor; [lra |]. constructor; assumption.
    + apply PyFacts.Qltb_ge in E. destruct (IH x) as (Hin & Hall).
      split; [destruct Hin as [Hin | Hin]; [now left | right; now right] |].
      inversion Hall as [| ? ? Hx Hl]; subst.
      constructor; [exact Hx |]. constructor; [lra | exact Hl].
Qed.

Lemma first_index_found p l v :
  In v l -> p v = true -> forall i, exists k, first_index p i l = Some k.
Proof.
  induction l as [| w l IH]; intros Hin Hp i; [destruct Hin |].
  cbn. destruct (p w) eqn:E; [now exists i |].
  destruct Hin as [-> | Hin]; [congruence |]. now apply IH.
Qed.

(** X15.  On a frame that is not empty, [_calculate_basic_statistics]
    gives the smallest and the largest smoothed NDVI and their difference,
    and with these statistics the start of season is always found: it is
    the first sample at or above the level min + 0.2 * amplitude, it is not
    after the peak, the peak is the first sample with the largest value,
    and the end of season is not before the peak. *)
Theorem season_start_always_found (first : row) (others : list row) :
  let df := first :: others in
  let values := map ndvi_smooth df in
  exists stats sos pos eos vsos vmax,
    _calculate_basic_statistics df = Some stats /\
    In (stat_min stats) values /\ In (stat_max stats) values /\
    Forall (fun v => (stat_min stats <= v <= stat_max stats)%Q) values /\
    stat_amplitude stats = (stat_max stats - stat_min stats)%Q /\
    phase_indices values stats = Some (Some sos, pos, eos) /\
    0 <= sos <= pos /\ pos <= eos < len df /\
    iloc values sos = Some vsos /\ (season_threshold stats <= vsos)%Q /\
    (forall j v, 0 <= j < sos -> iloc values j = Some v ->
                 (v < season_threshold stats)%Q) /\
    iloc values pos = Some vmax /\ (vmax == stat_max stats)%Q /\
    (forall j v, 0 <= j < pos -> iloc values j = Some v -> (v < vmax)%Q).
Proof.
  cbv zeta. cbn [map].
  set (x := ndvi_smooth first). set (l := map ndvi_smooth others).
  unfold _calculate_basic_statistics. cbn [map]. fold x. fold l.
  destruct (np_min_spec x l) as (lo & -> & Hlo_in & Hlo).
  destruct (np_max_spec x l) as (hi & -> & Hhi_in & Hhi).
  cbn [Py.bind]. set (stats := mkStats lo hi (hi - lo)).
  assert (Hne : x :: l <> []) by discriminate.
  destruct (phase_indices_spec (x :: l) stats Hne)
    as (sos & pos & eos & vmax & E & _ & Hpe & Heos & Hpos & Hmax & Hfirst
        & Hsos).
  assert (Hvmax : (vmax == hi)%Q).
  { apply Qle_antisym.
    - apply ShapeFacts.iloc_In in Hpos.
      rewrite Forall_forall in Hhi. now apply Hhi.
    - apply In_nth_error in Hhi_in as (n & Hn).
      apply (Hmax (Z.of_nat n)); [lia |].
      rewrite iloc_nonneg by lia. now rewrite Nat2Z.id. }
  assert (Hlohi : (lo <= hi)%Q).
  { rewrite Forall_forall in Hlo. now apply Hlo. }
  assert (Hthr : (season_threshold stats <= vmax)%Q).
  { unfold season_threshold, sos_threshold. cbn. rewrite Hvmax. lra. }
  assert (Es : first_index (fun v => Py.Qleb (season_threshold stats) v) 0
                 (x :: l) = sos).
  { pose proof E as E'. unfold phase_indices in E'. cbv zeta in E'.
    destruct (argmax (x :: l)); [| discriminate].
    unfold Py.bind in E'. unfold season_threshold. congruence. }
  destruct (first_index_found (fun v => Py.Qleb (season_threshold stats) v)
              (x :: l) vmax) with (i := 0) as (s & Efound).
  { now apply ShapeFacts.iloc_In in Hpos. }
  { apply PyFacts.Qleb_le. exact Hthr. }
  rewrite Efound in Es. subst sos.
  apply first_index_Some in Efound as (Hs & (vsos & Hvsos & Hp) & Hbefore).
  replace (s - 0) with s in Hvsos by lia.
  apply PyFacts.Qleb_le in Hp.
  exists stats, s, pos, eos, vsos, vmax.
  split; [reflexivity |]. split; [exact Hlo_in |]. split; [exact Hhi_in |].
  split.
  { apply Forall_forall. intros v Hv. rewrite Forall_forall in Hlo, Hhi.
    split; [now apply Hlo | now apply Hhi]. }
  split; [reflexivity |]. split; [exact E |].
  split; [apply Hsos; reflexivity |].
  split; [unfold len in *; cbn [length] in *; unfold l in Heos;
          rewrite length_map in Heos; lia |].
  split; [exact Hvsos |]. split; [exact Hp |]. split.
  { intros j v Hj Hv. apply PyFacts.Qltb_lt.
    specialize (Hbefore j v ltac:(lia)).
    replace (j - 0) with j in Hbefore by lia.
    specialize (Hbefore Hv). unfold Py.Qleb in Hbefore.
    apply not_true_iff_false in Hbefore.
    rewrite Qle_bool_iff in Hbefore.
    apply PyFacts.Qltb_lt. now apply Qnot_le_lt. }
  split; [exact Hpos |]. split; [exact Hvmax | exact Hfirst].
Qed.

End SeasonFacts.

Module QualityEdgeFacts.
Import Frame FrameFacts.
Import Phenology.

Section AnySqrt.

Variable sqrt : Q -> Q.

(** X16.  Whatever the square root: the standard deviation of fewer than
    two values is NaN, which [min(1.0, nan)] counts as 1.  The empty frame
    scores 1/4 and is rated poor; a frame of one row, whatever its values,
    has the factors 1/20, 0, 1 and 1, scores 41/80 and is rated fair. *)
Theorem short_series_quality (r : row) (total_possible_obs : Z) :
  let none := _assess_data_quality sqrt [] total_possible_obs in
  let one := _assess_data_quality sqrt [r] total_possible_obs in
  (overall_quality_score none == 1 # 4)%Q /\ quality_rating none = poor /\
  (overall_quality_score one == 41 # 80)%Q /\ quality_rating one = fair /\
  temporal_completeness one = 0%Q /\ large_gap_count one = 0 /\
  max_gap_days_found one = 0 /\
  quality_factors sqrt [r] = [(1 # 20)%Q; 0%Q; 1%Q; 1%Q].
Proof.
  cbv zeta. repeat split.
Qed.

End AnySqrt.

End QualityEdgeFacts.

(** ** The calendar and the generated forecast *)

Module CalendarFacts.
Import Date DateFacts.

Lemma valid_calendar d : valid d -> calendar d.
Proof. intros H. apply valid_inv in H. unfold calendar. lia. Qed.

Lemma days_in_month_min y m : 28 <= days_in_month y m.
Proof.
  unfold days_in_month.
  destruct (m =? 2); [destruct (is_leap y); lia |].
  destruct (_ || _); lia.
Qed.

Lemma next_day_calendar d : calendar d -> calendar (next_day d).
Proof.
  intros (Hm & Hd). unfold next_day, calendar.
  destruct (Z.ltb_spec (day d) (days_in_month (year d) (month d))); cbn.
  - lia.
  - destruct (Z.ltb_spec (month d) 12); cbn.
    + pose proof (days_in_month_min (year d) (month d + 1)). lia.
    + change (days_in_month (year d + 1) 1) with 31. lia.
Qed.

Lemma next_day_toordinal d :
  calendar d -> toordinal (next_day d) = toordinal d + 1.
Proof.
  intros (Hm & Hd). unfold next_day, toordinal.
  destruct (Z.ltb_spec (day d) (days_in_month (year d) (month d))); cbn.
  - lia.
  - pose proof (days_before_month_next (year d) (month d) Hm) as Hnext.
    destruct (Z.ltb_spec (month d) 12); cbn [year month day].
    + destruct (Z.eqb_spec (month d) 12); lia.
    + destruct (Z.eqb_spec (month d) 12); [| lia].
      rewrite days_before_year_succ.
      change (days_before_month (year d + 1) 1) with 0. lia.
Qed.

Lemma add_days_spec n :
  forall d,
    calendar d ->
    calendar (add_days d n) /\
    toordinal (add_days d n) = toordinal d + Z.of_nat n.
Proof.
  induction n as [| n IH]; intros d Hd; cbn [add_days].
  - split; [exact Hd | lia].
  - destruct (IH (next_day d) (next_day_calendar d Hd)) as (Hc & Ho).
    split; [exact Hc |]. rewrite Ho, next_day_toordinal by exact Hd. lia.
Qed.

End CalendarFacts.

Module GenerateFacts.
Import Frame FrameFacts.
Import Forecast.

Lemma clip_unit v : (0 <= clip v <= 1)%Q.
Proof.
  unfold clip.
  destruct (PyFacts.min_cases 1 v) as [(-> & H) | (-> & H)];
    destruct (PyFacts.max_cases 0 1) as [(E & H') | (E & H')];
    try (destruct (PyFacts.max_cases 0 v) as [(-> & H2) | (-> & H2)]);
    try rewrite E; lra.
Qed.

Lemma last_date_spec others :
  forall first,
    latest (first :: others) (last_date first others).
Proof.
  unfold last_date, latest.
  assert (H : forall best,
             let d := fold_left
                        (fun best r =>
                           if Date.ltb best (date r) then date r else best)
                        others best in
             (d = best \/ In d (map date others)) /\
             Date.leb best d = true /\
             Forall (fun r => Date.leb (date r) d = true) others).
  { induction others as [| r others IH]; intros best; cbn.
    - split; [now left |]. split; [apply DateFacts.leb_refl | constructor].
    - destruct (Date.ltb best (date r)) eqn:E.
      + destruct (IH (date r)) as (Hin & Hle & Hall).
        split; [destruct Hin as [-> | Hin]; auto |].
        split.
        * eapply DateFacts.leb_trans; [| exact Hle].
          rewrite DateFacts.leb_iff. rewrite DateFacts.ltb_iff in E. lia.
        * constructor; assumption.
      + destruct (IH best) as (Hin & Hle & Hall).
        split; [destruct Hin as [-> | Hin]; auto |].
        split; [exact Hle |]. constructor; [| exact Hall].
        eapply DateFacts.leb_trans; [| exact Hle].
        unfold Date.leb. now rewrite E. }
  intros first. destruct (H (date first)) as (Hin & Hle & Hall).
  split.
  - cbn. destruct Hin as [-> | Hin]; auto.
  - constructor; assumption.
Qed.

Section Noise.

Variable generator : Type.
Variable normal : Q -> Q -> generator -> Q * generator.
Variable in_bounds : Date.date -> Z -> bool.

Lemma forecast_loop_spec patterns forecast_dates :
  forall g,
    let points :=
      fst (forecast_loop generator normal patterns forecast_dates g) in
    map point_date points = forecast_dates /\
    Forall unit_point points.
Proof.
  induction forecast_dates as [| date dates IH]; intros g;
    cbn [forecast_loop].
  - cbn. split; [reflexivity | constructor].
  - destruct (baseline patterns (Date.month date)) as [bn be].
    destruct (normal 0 (5 # 100) g) as [nn g1].
    destruct (normal 0 (3 # 100) g1) as [ne g2].
    specialize (IH g2). cbv zeta in IH.
    destruct (forecast_loop generator normal patterns dates g2)
      as [points g3].
    cbn [fst] in *. destruct IH as (Hdates & Hunit).
    split; [cbn; now rewrite Hdates |].
    constructor; [| exact Hunit]. split; apply clip_unit.
Qed.

Lemma date_range_spec last_date forecast_days forecast_dates :
  date_range in_bounds last_date forecast_days = Some forecast_dates ->
  in_bounds last_date forecast_days = true /\
  length forecast_dates = Z.to_nat forecast_days /\
  forall i d,
    nth_error forecast_dates i = Some d ->
    d = Date.add_days (Date.next_day last_date) i.
Proof.
  unfold date_range.
  destruct (in_bounds last_date forecast_days); [| discriminate].
  intros [= <-]. split; [reflexivity |].
  split; [now rewrite length_map, length_seq |].
  intros i d Hd. rewrite nth_error_map in Hd.
  destruct (nth_error (seq 0 (Z.to_nat forecast_days)) i) as [k |] eqn:Ek;
    [| discriminate].
  injection Hd as <-.
  assert (Hi : (i < Z.to_nat forecast_days)%nat).
  { rewrite <- (length_seq (Z.to_nat forecast_days) 0).
    apply nth_error_Some. now rewrite Ek. }
  rewrite (nth_error_nth' _ 0%nat) in Ek by now rewrite length_seq.
  rewrite seq_nth in Ek by exact Hi. injection Ek as Ek. now subst k.
Qed.

(** The points of a forecast that was generated: one a day. *)
Lemma generated_points first others forecast_days patterns g :
  in_bounds (last_date first others) forecast_days = true ->
  let points :=
    fst (_generate_forecast generator normal in_bounds (first :: others)
           forecast_days patterns g) in
  len points = Z.max 0 forecast_days /\
  Forall unit_point points /\
  forall i p,
    nth_error points i = Some p ->
    point_date p = Date.add_days (Date.next_day (last_date first others)) i.
Proof.
  intros Hb. cbv zeta. cbn [_generate_forecast].
  destruct (date_range in_bounds (last_date first others) forecast_days)
    as [dates |] eqn:E;
    [| unfold date_range in E; rewrite Hb in E; discriminate].
  destruct (date_range_spec _ _ _ E) as (_ & Hlen & Hnth).
  destruct (forecast_loop_spec patterns dates g) as (Hdates & Hunit).
  split; [| split; [exact Hunit |]].
  - unfold len. rewrite <- (length_map point_date), Hdates, Hlen. lia.
  - intros i p Hp. apply Hnth. rewrite <- Hdates, nth_error_map, Hp.
    reflexivity.
Qed.

Lemma not_generated first others forecast_days patterns g :
  in_bounds (last_date first others) forecast_days = false ->
  _generate_forecast generator normal in_bounds (first :: others)
    forecast_days patterns g
  = ([], g).
Proof.
  intros Hb. cbn [_generate_forecast]. unfold date_range. now rewrite Hb.
Qed.

(** X17.  Whatever the generator draws, every forecast point has both
    indices in [0, 1]; an empty history gives no point and leaves the
    generator as it was, and so does a range of days for which
    [pd.date_range] raises; otherwise there is one point for each of the
    [forecast_days] days (none when the number is negative), and the point
    at position [i] is dated [i + 1] days after the latest date of the
    history. *)
Theorem generated_forecast_covers_the_days (df : list row)
    (forecast_days : Z) (patterns : option seasonal_patterns)
    (g : generator) :
  let r :=
    _generate_forecast generator normal in_bounds df forecast_days patterns
      g in
  Forall unit_point (fst r) /\
  (df = [] -> r = ([], g)) /\
  forall first others,
    df = first :: others ->
    let last := last_date first others in
    latest df last /\
    (in_bounds last forecast_days = false -> r = ([], g)) /\
    (in_bounds last forecast_days = true ->
     len (fst r) = Z.max 0 forecast_days /\
     forall i p,
       nth_error (fst r) i = Some p ->
       point_date p = Date.add_days (Date.next_day last) i /\
       (Date.valid last ->
        Date.toordinal (point_date p)
        = Date.toordinal last + 1 + Z.of_nat i)).
Proof.
  cbv zeta. destruct df as [| first others].
  - split; [constructor |]. split; [reflexivity | discriminate].
  - split.
    + destruct (in_bounds (last_date first others) forecast_days) eqn:Hb.
      * now destruct (generated_points first others forecast_days patterns
                        g Hb) as (_ & H & _).
      * rewrite not_generated by exact Hb. constructor.
    + split; [discriminate |].
      intros first' others' [= <- <-].
      split; [apply last_date_spec |].
      split; [apply not_generated |].
      intros Hb.
      destruct (generated_points first others forecast_days patterns g Hb)
        as (Hlen & _ & Hdates).
      split; [exact Hlen |].
      intros i p Hp. rewrite (Hdates i p Hp). split; [reflexivity |].
      intros Hvalid. apply CalendarFacts.valid_calendar in Hvalid.
      destruct (CalendarFacts.add_days_spec i _
                  (CalendarFacts.next_day_calendar _ Hvalid)) as (_ & ->).
      rewrite CalendarFacts.next_day_toordinal by exact Hvalid. lia.
Qed.

End Noise.

End GenerateFacts.

(** ** Blooms predicted from a forecast *)

Module ForecastBloomFacts.
Import Frame FrameFacts.
Import Forecast.

Lemma labels_range_contiguous df :
  map label df = range (len df) -> Threshold.contiguous df.
Proof.
  intros Hl i r r' Hi Hr Hr'.
  assert (Hb : i + 1 < len df)
    by (eapply iloc_Some_bound; [lia | exact Hr']).
  pose proof (iloc_map label df i) as E.
  pose proof (iloc_map label df (i + 1)) as E'.
  rewrite Hl, Hr, PreprocessFacts.iloc_range in E by lia.
  rewrite Hl, Hr', PreprocessFacts.iloc_range in E' by lia.
  cbn in E, E'. injection E as E. injection E' as E'. lia.
Qed.

Lemma range_len {A} (l : list A) : length (range (len l)) = length l.
Proof. rewrite PreprocessFacts.range_length. unfold len. lia. Qed.

Lemma forecast_frame_length points :
  len (forecast_frame points) = len points.
Proof.
  pose proof (range_len points) as H. unfold forecast_frame, len in *.
  now rewrite length_map, length_combine, H, Nat.min_id.
Qed.

Lemma forecast_frame_contiguous points :
  Threshold.contiguous (forecast_frame points).
Proof.
  apply labels_range_contiguous. rewrite forecast_frame_length.
  unfold forecast_frame. rewrite map_map. cbn [label].
  rewrite <- (map_map fst (fun i : Z => i)), map_id.
  apply PreprocessFacts.map_fst_combine, range_len.
Qed.

Lemma iloc_forecast_frame points i r :
  iloc (forecast_frame points) i = Some r ->
  exists p,
    iloc points i = Some p /\ date r = point_date p /\
    ndvi_smooth r = ndvi_forecast p /\ evi_smooth r = evi_forecast p.
Proof.
  unfold forecast_frame. rewrite iloc_map.
  destruct (iloc (combine (range (len points)) points) i) as [[k p] |] eqn:E;
    [| discriminate].
  cbn. intros [= <-]. exists p. cbn. repeat split.
  pose proof (iloc_map snd (combine (range (len points)) points) i) as H.
  rewrite PreprocessFacts.map_snd_combine in H by apply range_len.
  now rewrite H, E.
Qed.

Lemma forecast_mask_frame points :
  Threshold.bloom_mask (forecast_frame points) = forecast_mask points.
Proof.
  unfold Threshold.bloom_mask, forecast_mask, forecast_frame.
  rewrite map_map. cbn [ndvi_smooth evi_smooth].
  rewrite <- (map_map snd
                (fun p => Py.Qltb Bloom.ndvi_bloom_threshold (ndvi_forecast p)
                          && Py.Qltb Bloom.evi_bloom_threshold
                               (evi_forecast p))).
  f_equal. apply PreprocessFacts.map_snd_combine, range_len.
Qed.

Lemma forecast_bloom_loop_spec points :
  forall periods blooms,
    Forall (fun p => Threshold.is_run (forecast_mask points) (fst p) (snd p))
      periods ->
    Forall (predicted_from_runs points) blooms ->
    exists out,
      forecast_bloom_loop (forecast_frame points) periods blooms = Some out /\
      Forall (predicted_from_runs points) out.
Proof.
  induction periods as [| [s e] periods IH]; intros blooms Hp Hb.
  - exists blooms. now split.
  - inversion Hp as [| ? ? Hrun Hp']; subst. cbn [fst snd] in Hrun.
    cbn [forecast_bloom_loop].
    destruct (Z.leb_spec 2 (e - s)) as [Hlong | Hshort]; [| now apply IH].
    pose proof Hrun as (Hse & He & _).
    assert (Hlen : len (forecast_mask points) = len points)
      by (unfold forecast_mask, len; now rewrite length_map).
    rewrite Hlen in He.
    destruct (ThresholdFacts.peak_position_contiguous ndvi_smooth
                (forecast_frame points) s e
                (forecast_frame_contiguous points) Hse
                ltac:(rewrite forecast_frame_length; lia))
      as (p & rp & -> & Hp_in & Hrp & Hmax).
    destruct (iloc_in_bounds (forecast_frame points) s
                ltac:(rewrite forecast_frame_length; lia)) as (rs & Hrs).
    destruct (iloc_in_bounds (forecast_frame points) e
                ltac:(rewrite forecast_frame_length; lia)) as (re & Hre).
    cbn [Py.bind]. unfold predicted_of. rewrite Hrs, Hrp, Hre.
    cbn [Py.bind].
    apply IH; [exact Hp' |].
    apply Forall_app. split; [exact Hb |]. constructor; [| constructor].
    destruct (iloc_forecast_frame _ _ _ Hrs) as (ps & Hps & Ds & _).
    destruct (iloc_forecast_frame _ _ _ Hrp) as (pp & Hpp & Dp & Np & Ep).
    destruct (iloc_forecast_frame _ _ _ Hre) as (pe & Hpe & De & _).
    exists s, e, p, ps, pp, pe.
    split; [exact Hrun |]. split; [exact Hlong |]. split; [exact Hp_in |].
    split; [exact Hps |]. split; [exact Hpp |]. split; [exact Hpe |].
    split.
    + intros k q Hk Hq.
      destruct (iloc_in_bounds (forecast_frame points) k
                  ltac:(rewrite forecast_frame_length; lia)) as (rk & Hrk).
      destruct (iloc_forecast_frame _ _ _ Hrk) as (q' & Hq' & _ & Nq & _).
      assert (q' = q) by congruence. subst q'.
      rewrite <- Nq, <- Np. now apply (Hmax k).
    + now rewrite Ds, Dp, De, Np, Ep.
Qed.

Lemma forecast_blooms_of_runs points :
  exists blooms,
    forecast_bloom_loop (forecast_frame points)
      (Threshold._find_continuous_periods
         (Threshold.bloom_mask (forecast_frame points))) [] = Some blooms /\
    Forall (predicted_from_runs points) blooms.
Proof.
  apply forecast_bloom_loop_spec; [| constructor].
  rewrite forecast_mask_frame. apply ThresholdFacts.periods_are_runs.
Qed.

(** X18.  On the fresh frame of a forecast the labels are the positions,
    so [_detect_forecast_blooms] does not raise, and each predicted bloom
    spans a maximal run of at least three points above both thresholds, its
    peak being a point of the largest NDVI of the run; its probability is
    0.7, and its NDVI range the peak value minus and plus 0.1. *)
Theorem forecast_blooms_span_runs (points : list forecast_point) :
  exists blooms,
    forecast_bloom_loop (forecast_frame points)
      (Threshold._find_continuous_periods
         (Threshold.bloom_mask (forecast_frame points))) [] = Some blooms /\
    _detect_forecast_blooms points = blooms /\
    Forall (predicted_from_runs points) blooms.
Proof.
  destruct (forecast_blooms_of_runs points) as (blooms & E & H).
  exists blooms. split; [exact E |]. split; [| exact H].
  unfold _detect_forecast_blooms. cbv zeta. now rewrite E.
Qed.

Section Noise.

Variable generator : Type.
Variable normal : Q -> Q -> generator -> Q * generator.
Variable in_bounds : Date.date -> Z -> bool.

Lemma generated_dates first others forecast_days patterns g i p :
  in_bounds (last_date first others) forecast_days = true ->
  Date.valid (last_date first others) ->
  0 <= i ->
  iloc (fst (_generate_forecast generator normal in_bounds
               (first :: others) forecast_days patterns g)) i = Some p ->
  Date.toordinal (point_date p)
  = Date.toordinal (last_date first others) + 1 + i.
Proof.
  intros Hb Hvalid Hi Hp.
  rewrite iloc_nonneg in Hp by exact Hi.
  destruct (GenerateFacts.generated_points generator normal in_bounds
              first others forecast_days patterns g Hb)
    as (_ & _ & Hdates).
  rewrite (Hdates _ _ Hp).
  apply CalendarFacts.valid_calendar in Hvalid.
  destruct (CalendarFacts.add_days_spec (Z.to_nat i) _
              (CalendarFacts.next_day_calendar _ Hvalid)) as (_ & ->).
  rewrite CalendarFacts.next_day_toordinal by exact Hvalid. lia.
Qed.

(** X19.  On a history with valid dates, every bloom predicted from the
    generated forecast starts after the latest date of the history, has
    its peak between its start and its end, ends within the forecast days,
    and has a duration of at least 2 days that is the number of days from
    its start to its end. *)
Theorem predicted_blooms_lie_in_the_forecast (df : list row)
    (forecast_days : Z) (patterns : option seasonal_patterns)
    (g : generator) :
  Forall (fun r => Date.valid (date r)) df ->
  Forall (within_forecast df forecast_days)
    (_detect_forecast_blooms
       (fst (_generate_forecast generator normal in_bounds df forecast_days
               patterns g))).
Proof.
  intros Hdf.
  destruct df as [| first others]; [constructor |].
  destruct (in_bounds (last_date first others) forecast_days) eqn:Hb;
    [| rewrite GenerateFacts.not_generated by exact Hb; constructor].
  set (points := fst (_generate_forecast generator normal in_bounds
                        (first :: others) forecast_days patterns g)).
  assert (Hlen : len points = Z.max 0 forecast_days).
  { now destruct (GenerateFacts.generated_points generator normal in_bounds
                    first others forecast_days patterns g Hb) as (H & _). }
  pose proof (GenerateFacts.last_date_spec others first) as Hlast.
  assert (Hvalid : Date.valid (last_date first others)).
  { destruct Hlast as (Hin & _). apply in_map_iff in Hin as (r & <- & Hr).
    rewrite Forall_forall in Hdf. now apply Hdf. }
  destruct (forecast_blooms_of_runs points) as (blooms & E & H).
  unfold _detect_forecast_blooms. cbv zeta. fold points. rewrite E.
  cbn [Py.try_except].
  eapply Forall_impl; [| exact H].
  intros b (s & e & p & ps & pp & pe & Hrun & Hlong & Hp & Hps & Hpp & Hpe
            & _ & ->).
  destruct Hrun as (Hse & He & _).
  assert (Hmask : len (forecast_mask points) = len points)
    by (unfold forecast_mask, len; now rewrite length_map).
  rewrite Hmask, Hlen in He.
  pose proof (generated_dates first others forecast_days patterns g s ps
                Hb Hvalid ltac:(lia) Hps) as Ds.
  pose proof (generated_dates first others forecast_days patterns g p pp
                Hb Hvalid ltac:(lia) Hpp) as Dp.
  pose proof (generated_dates first others forecast_days patterns g e pe
                Hb Hvalid ltac:(lia) Hpe) as De.
  exists (last_date first others). split; [exact Hlast |].
  cbn [start_date peak_date end_date duration_days].
  unfold Date.days_between. lia.
Qed.

End Noise.

End ForecastBloomFacts.

(** ** Seasonal patterns *)

Module SeasonalFacts.
Import Frame FrameFacts.
Import Forecast.

Lemma monthly_avg_entries df :
  monthly_avg df = flat_map (entry df) Climate.months.
Proof.
  unfold monthly_avg, Climate.months. apply flat_map_ext. intros m.
  unfold entry, month_mean, rows_of_month.
  now destruct (filter _ df).
Qed.

Lemma entries_In df keys x :
  In x (flat_map (entry df) keys) <->
  In (fst x) keys /\ rows_of_month df (fst x) <> [] /\
  snd x = month_mean df (fst x).
Proof.
  rewrite in_flat_map. unfold entry. split.
  - intros (m & Hm & Hx).
    destruct (rows_of_month df m) eqn:E; [destruct Hx |].
    destruct Hx as [<- | []]. cbn. rewrite E. repeat split; auto.
    discriminate.
  - intros (Hk & Hrows & Hv). exists (fst x). split; [exact Hk |].
    destruct (rows_of_month df (fst x)); [congruence |].
    left. destruct x. cbn in *. now subst.
Qed.

Lemma lookup_absent df keys m :
  ~ In m keys -> lookup m (flat_map (entry df) keys) = None.
Proof.
  induction keys as [| k keys IH]; intros Hm; [reflexivity |].
  cbn [flat_map]. unfold entry at 1.
  destruct (rows_of_month df k).
  - apply IH. intros H. apply Hm. now right.
  - cbn. destruct (Z.eqb_spec k m) as [-> | _]; [exfalso; apply Hm; now left |].
    apply IH. intros H. apply Hm. now right.
Qed.

Lemma lookup_entries df keys m :
  NoDup keys -> In m keys ->
  lookup m (flat_map (entry df) keys) =
  match rows_of_month df m with
  | [] => None
  | _ :: _ => Some (month_mean df m)
  end.
Proof.
  induction 1 as [| k keys Hk Hnd IH]; intros Hm; [destruct Hm |].
  cbn [flat_map]. unfold entry at 1.
  destruct (Z.eq_dec k m) as [-> | Hne].
  - destruct (rows_of_month df m); [now apply lookup_absent |].
    cbn. now rewrite Z.eqb_refl.
  - destruct Hm as [-> | Hm]; [congruence |].
    destruct (rows_of_month df k); [now apply IH |].
    cbn. destruct (Z.eqb_spec k m); [congruence |]. now apply IH.
Qed.

Lemma months_NoDup : NoDup Climate.months.
Proof. unfold Climate.months. repeat constructor; cbn; intuition lia. Qed.

Lemma months_In m : In m Climate.months <-> 1 <= m <= 12.
Proof. unfold Climate.months. cbn. lia. Qed.

Lemma month_of_max_spec others :
  forall best,
    In (month_of_max best others) (best :: others) /\
    Forall (fun x => (fst (snd x) <= fst (snd (month_of_max best others)))%Q)
      (best :: others).
Proof.
  induction others as [| x others IH]; intros best; cbn [month_of_max].
  - split; [now left |]. constructor; [apply Qle_refl | constructor].
  - destruct (Py.Qltb (fst (snd best)) (fst (snd x))) eqn:E.
    + apply PyFacts.Qltb_lt in E. destruct (IH x) as (Hin & Hall).
      split; [now right |].
      inversion Hall as [| ? ? Hx Hl]; subst.
      constructor; [lra |]. constructor; assumption.
    + apply PyFacts.Qltb_ge in E. destruct (IH best) as (Hin & Hall).
      split; [destruct Hin as [Hin | Hin]; [now left | right; now right] |].
      inversion Hall as [| ? ? Hb Hl]; subst.
      constructor; [exact Hb |]. constructor; [lra | exact Hl].
Qed.

(** The month the forecast reads its baseline from. *)
Lemma baseline_of_month df m :
  1 <= m <= 12 ->
  baseline (_extract_seasonal_patterns df) m =
  match rows_of_month df m with
  | [] => (3 # 10, 2 # 10)%Q
  | _ :: _ => month_mean df m
  end.
Proof.
  intros Hm. unfold _extract_seasonal_patterns.
  destruct (monthly_avg df) as [| first others] eqn:Et.
  - cbn. rewrite monthly_avg_entries in Et.
    destruct (rows_of_month df m) eqn:Er; [reflexivity |].
    assert (H : In (m, month_mean df m) (flat_map (entry df) Climate.months)).
    { apply entries_In. cbn [fst snd]. rewrite months_In, Er.
      split; [exact Hm |]. split; [discriminate | reflexivity]. }
    rewrite Et in H. destruct H.
  - destruct (SeasonFacts.np_max_spec (fst (snd first))
                (map (fun x => fst (snd x)) others)) as (hi & Ehi & _).
    destruct (SeasonFacts.np_min_spec (fst (snd first))
                (map (fun x => fst (snd x)) others)) as (lo & Elo & _).
    cbn [map]. rewrite Ehi, Elo. cbn [Py.bind baseline monthly_averages].
    rewrite <- Et, monthly_avg_entries.
    rewrite lookup_entries by (apply months_NoDup || now apply months_In).
    now destruct (rows_of_month df m).
Qed.

(** X20.  [_extract_seasonal_patterns] returns the empty dictionary on an
    empty frame, and a result on every other frame with valid dates.  In a
    result, the peak month is a month of the year that has rows, its mean
    smoothed NDVI is the largest of the monthly means, the amplitude is
    that mean minus the smallest monthly mean and is not negative, the
    typical bloom period starts in the peak month itself and ends two
    months later (wrapping after December).  The baseline the forecast
    reads for a month is the mean of the rows of that month, and 0.3 and
    0.2 for a month without rows. *)
Theorem seasonal_patterns_shape (df : list row) :
  (df = [] -> _extract_seasonal_patterns df = None) /\
  (forall p, _extract_seasonal_patterns df = Some p -> patterns_of df p) /\
  (Forall (fun r => Date.valid (date r)) df -> df <> [] ->
   _extract_seasonal_patterns df <> None) /\
  (forall m, 1 <= m <= 12 ->
     baseline (_extract_seasonal_patterns df) m =
     match rows_of_month df m with
     | [] => (3 # 10, 2 # 10)%Q
     | _ :: _ => month_mean df m
     end).
Proof.
  split; [intros ->; reflexivity |].
  split; [| split; [| apply baseline_of_month]].
  - intros p. unfold _extract_seasonal_patterns.
    destruct (monthly_avg df) as [| first others] eqn:Et; [discriminate |].
    destruct (SeasonFacts.np_max_spec (fst (snd first))
                (map (fun x => fst (snd x)) others))
      as (hi & Ehi & Hhi_in & Hhi).
    destruct (SeasonFacts.np_min_spec (fst (snd first))
                (map (fun x => fst (snd x)) others))
      as (lo & Elo & Hlo_in & Hlo).
    cbn [map]. rewrite Ehi, Elo. cbn [Py.bind]. intros [= <-].
    destruct (month_of_max_spec others first) as (Hin & Hmax).
    set (top := month_of_max first others) in *.
    rewrite <- Et in Hin, Hmax.
    change (fst (snd first) :: map (fun x => fst (snd x)) others)
      with (map (fun x : Z * (Q * Q) => fst (snd x)) (first :: others))
      in Hhi_in, Hhi, Hlo_in, Hlo.
    rewrite <- Et in Hhi_in, Hhi, Hlo_in, Hlo.
    rewrite monthly_avg_entries in Hin, Hmax, Hhi_in, Hhi, Hlo_in, Hlo.
    pose proof Hin as Htop.
    apply entries_In in Htop as (Hk & Hrows & Hv). rewrite months_In in Hk.
    rewrite Forall_forall in Hmax, Hhi, Hlo.
    assert (Etop : (fst (snd top) == hi)%Q).
    { apply Qle_antisym.
      - apply Hhi.
        apply (in_map (fun x : Z * (Q * Q) => fst (snd x)) _ _ Hin).
      - apply in_map_iff in Hhi_in as (x & <- & Hx). now apply Hmax. }
    unfold patterns_of.
    cbn [monthly_averages peak_month seasonal_amplitude start_month
         end_month].
    split; [now rewrite Et |]. split; [exact Hk |]. split; [exact Hrows |].
    split.
    { rewrite <- Et, monthly_avg_entries.
      rewrite lookup_entries by (apply months_NoDup || now apply months_In).
      now destruct (rows_of_month df (fst top)). }
    split.
    { intros m Hm Hr. rewrite <- Hv.
      apply (Hmax (m, month_mean df m)). apply entries_In. cbn [fst snd].
      rewrite months_In. auto. }
    split.
    { apply in_map_iff in Hlo_in as (x & Ex & Hx).
      apply entries_In in Hx as (Hxk & Hxr & Hxv). rewrite months_In in Hxk.
      exists (fst x). split; [exact Hxk |]. split; [exact Hxr |].
      rewrite <- Hv, <- Hxv, Ex, Etop. reflexivity. }
    split.
    { assert ((lo <= hi)%Q) by (apply Hlo; exact Hhi_in). lra. }
    split.
    + Z.div_mod_to_equations. lia.
    + destruct (Z.leb_spec (fst top) 10); Z.div_mod_to_equations; lia.
  - intros Hvalid Hne. destruct df as [| r df]; [congruence |].
    inversion Hvalid as [| ? ? Hr _]; subst.
    apply DateFacts.valid_inv in Hr as (_ & Hm & _).
    unfold _extract_seasonal_patterns.
    destruct (monthly_avg (r :: df)) as [| first others] eqn:Et.
    + exfalso. rewrite monthly_avg_entries in Et.
      assert (H : In (Date.month (date r),
                      month_mean (r :: df) (Date.month (date r)))
                    (flat_map (entry (r :: df)) Climate.months)).
      { apply entries_In. cbn [fst snd]. rewrite months_In.
        split; [exact Hm |]. split; [| reflexivity].
        unfold rows_of_month. cbn. now rewrite Z.eqb_refl. }
      rewrite Et in H. destruct H.
    + destruct (SeasonFacts.np_max_spec (fst (snd first))
                  (map (fun x => fst (snd x)) others)) as (hi & Ehi & _).
      destruct (SeasonFacts.np_min_spec (fst (snd first))
                  (map (fun x => fst (snd x)) others)) as (lo & Elo & _).
      cbn [map]. rewrite Ehi, Elo. discriminate.
Qed.

End SeasonalFacts.

(** ** Confidence of a forecast *)

Module ConfidenceFacts.
Import Frame FrameFacts.
Import Forecast.

Lemma extracted_amplitude_nonneg df p :
  _extract_seasonal_patterns df = Some p -> (0 <= seasonal_amplitude p)%Q.
Proof.
  unfold _extract_seasonal_patterns.
  destruct (monthly_avg df) as [| first others]; [discriminate |].
  destruct (SeasonFacts.np_max_spec (fst (snd first))
              (map (fun x => fst (snd x)) others))
    as (hi & Ehi & Hhi_in & _).
  destruct (SeasonFacts.np_min_spec (fst (snd first))
              (map (fun x => fst (snd x)) others))
    as (lo & Elo & _ & Hlo).
  cbn [map]. rewrite Ehi, Elo. cbn [Py.bind]. intros [= <-]. cbn.
  rewrite Forall_forall in Hlo. specialize (Hlo hi Hhi_in). lra.
Qed.

Lemma data_quality_unit (df : list row) :
  (0 <= Py.min 1 (inject_Z (len df) / 100) <= 1)%Q /\
  (100 <= len df -> Py.min 1 (inject_Z (len df) / 100) = 1%Q).
Proof.
  assert (H0 : (0 <= inject_Z (len df) / 100)%Q).
  { apply Qle_shift_div_l; [reflexivity |]. rewrite Qmult_0_l.
    rewrite <- (Zle_Qle 0). apply len_nonneg. }
  split; [now apply QualityFacts.min_one_unit |].
  intros Hlen.
  destruct (PyFacts.min_cases 1 (inject_Z (len df) / 100))
    as [(E & _) | (_ & Hlt)]; [exact E |].
  exfalso. apply Qlt_not_le in Hlt. apply Hlt.
  apply Qle_shift_div_l; [reflexivity |]. rewrite Qmult_1_l.
  change 100%Q with (inject_Z 100). now rewrite <- Zle_Qle.
Qed.

Section Noise.

Variable generator : Type.
Variable normal : Q -> Q -> generator -> Q * generator.
Variable round2 : Q -> Q.

(** X23.  With the patterns extracted from the same frame, the value
    [_calculate_forecast_confidence] rounds lies in [0, 1]; it is at least
    0.6 from 100 rows on, below 1 with fewer rows, and 0 for the empty
    frame. *)
Theorem forecast_confidence_before_rounding (df : list row) :
  let patterns := _extract_seasonal_patterns df in
  let c := confidence_before_rounding df patterns in
  _calculate_forecast_confidence round2 df patterns = round2 c /\
  (0 <= c <= 1)%Q /\
  (100 <= len df -> (6 # 10 <= c)%Q) /\
  (len df < 100 -> (c < 1)%Q) /\
  (df = [] -> (c == 0)%Q).
Proof.
  cbv zeta. split; [reflexivity |].
  unfold confidence_before_rounding.
  destruct (data_quality_unit df) as (Hdq & Hfull).
  pose proof (PyFacts.min_cases 1 (inject_Z (len df) / 100)) as Hcases.
  assert (Hpc : (0 <= Py.min 1
                        (match _extract_seasonal_patterns df with
                         | Some p => seasonal_amplitude p
                         | None => 0
                         end * 2) <= 1)%Q).
  { apply QualityFacts.min_one_unit.
    destruct (_extract_seasonal_patterns df) eqn:Ep; [| lra].
    apply extracted_amplitude_nonneg in Ep. lra. }
  split; [| split; [| split]].
  - remember (Py.min 1 (inject_Z (len df) / 100)) as dq.
    remember (Py.min 1 _) as pc. lra.
  - intros Hlen. rewrite (Hfull Hlen).
    remember (Py.min 1 _) as pc. lra.
  - intros Hlen.
    destruct Hcases as [(_ & Hge) | (E & Hlt)].
    + exfalso. apply Qle_not_lt in Hge. apply Hge.
      apply Qlt_shift_div_r; [reflexivity |]. rewrite Qmult_1_l.
      change 100%Q with (inject_Z 100). now rewrite <- Zlt_Qlt.
    + rewrite E in *.
      remember (inject_Z (len df) / 100)%Q as dq.
      remember (Py.min 1 _) as pc. lra.
  - intros ->. reflexivity.
Qed.

End Noise.

End ConfidenceFacts.

(** ** Cleaning of complete rows *)

Module CleanFacts.
Import Frame FrameFacts.
Import Preprocess PreprocessFacts.

Lemma mask_range_keeps x : in_range x -> mask_range (Some x) = Some x.
Proof.
  intros (Hlo & Hhi). cbn.
  destruct (Py.Qltb x (-1)) eqn:E1;
    [apply PyFacts.Qltb_lt in E1; lra |].
  destruct (Py.Qltb 1 x) eqn:E2;
    [apply PyFacts.Qltb_lt in E2; lra | reflexivity].
Qed.

Lemma interpolate_from_keeps limit l :
  forall prev i v,
    nth_error l i = Some (Some v) ->
    nth_error (interpolate_from limit prev l) i = Some (Some v).
Proof.
  induction l as [| [w |] l IH]; intros prev [| i] v H; cbn in *;
    try discriminate; try exact H.
  - now apply IH.
  - destruct prev as [[u k] |]; cbn; now apply IH.
Qed.

Lemma nth_error_combine {A B} (a : list A) :
  forall (b : list B) i x y,
    nth_error a i = Some x -> nth_error b i = Some y ->
    nth_error (combine a b) i = Some (x, y).
Proof.
  induction a as [| x0 a IH]; intros [| y0 b] [| i] x y Ha Hb; cbn in *;
    try discriminate.
  - congruence.
  - now apply IH.
Qed.

Lemma column_keeps (f : raw -> option Q) df i r v :
  nth_error df i = Some r -> f r = Some v -> in_range v ->
  nth_error (interpolate 3 (map mask_range (map f df))) i = Some (Some v).
Proof.
  intros Hr Hf Hv. apply interpolate_from_keeps.
  rewrite !nth_error_map, Hr. cbn. rewrite Hf.
  now rewrite mask_range_keeps.
Qed.

Lemma float64_In (f : raw -> option Q) df r v :
  In r df -> f r = Some v -> float64 (map f df) = true.
Proof.
  intros Hr Hf. unfold float64. apply existsb_exists.
  exists (Some v). split; [| reflexivity].
  rewrite <- Hf. now apply in_map.
Qed.

Lemma interpolated_keeps df r n e :
  In r df -> raw_ndvi r = Some n -> raw_evi r = Some e ->
  in_range n -> in_range e ->
  In (mkRaw (raw_label r) (raw_date r) (Some n) (Some e)) (interpolated df).
Proof.
  intros Hr Hn He Hrn Hre.
  apply In_nth_error in Hr as (i & Hi).
  unfold interpolated, assign.
  apply (nth_error_In _ i).
  rewrite nth_error_map.
  rewrite (nth_error_combine df _ i r (Some n, Some e) Hi).
  - reflexivity.
  - apply nth_error_combine; eapply column_keeps; eassumption.
Qed.

(** X21.  A row whose two indices are present and within [-1, 1] is in
    the cleaned frame with its label, its date and its values unchanged,
    and is one of its rows of numbers. *)
Theorem cleaning_keeps_valid_rows (df : list raw) (r : raw) (n e : Q) :
  In r df -> raw_ndvi r = Some n -> raw_evi r = Some e ->
  in_range n -> in_range e ->
  In r (_clean_time_series df) /\
  In (as_clean r n e) (numbers (_clean_time_series df)).
Proof.
  intros Hr Hn He Hrn Hre.
  pose proof (interpolated_keeps df r n e Hr Hn He Hrn Hre) as Hk.
  split.
  - destruct (clean_ran df (float64_In raw_ndvi df r n Hr Hn)
                (float64_In raw_evi df r e Hr He)) as (-> & _).
    unfold dropna. apply filter_In.
    destruct r as [l d n' e']. cbn in Hn, He. subst n' e'.
    split; [exact Hk | reflexivity].
  - rewrite clean_numbers. unfold numbers. apply in_flat_map.
    exists (mkRaw (raw_label r) (raw_date r) (Some n) (Some e)).
    split; [exact Hk | now left].
Qed.

Lemma interpolate_from_all limit l :
  forall prev, interpolate_from limit prev (map Some l) = map Some l.
Proof.
  induction l as [| v l IH]; intros prev; cbn; [reflexivity |].
  now rewrite IH.
Qed.

Lemma column_complete (f : raw -> option Q) df :
  Forall (fun r => exists v, f r = Some v /\ in_range v) df ->
  interpolate 3 (map mask_range (map f df)) = map f df.
Proof.
  intros H.
  assert (E : exists l, map f df = map Some l /\ Forall in_range l).
  { induction H as [| r df (v & Hv & Hr) _ (l & El & Hl)].
    - exists []. split; [reflexivity | constructor].
    - exists (v :: l). cbn. rewrite Hv, El. split; [reflexivity |].
      now constructor. }
  destruct E as (l & -> & Hl).
  assert (Em : map mask_range (map Some l) = map Some l).
  { induction Hl as [| v l Hv _ IH]; [reflexivity |].
    cbn [map]. now rewrite IH, mask_range_keeps. }
  rewrite Em. apply interpolate_from_all.
Qed.

Lemma assign_same df : assign df (map raw_ndvi df) (map raw_evi df) = df.
Proof.
  unfold assign. induction df as [| [l d n e] df IH]; [reflexivity |].
  cbn in *. now rewrite IH.
Qed.

Lemma clean_complete df :
  Forall complete_row df ->
  length (numbers (_clean_time_series df)) = length df.
Proof.
  intros H. rewrite clean_numbers. unfold interpolated.
  rewrite !column_complete, assign_same.
  - unfold numbers.
    induction H as [| r df (n & e & Hn & He & _) _ IH]; [reflexivity |].
    cbn [flat_map]. rewrite Hn, He. cbn [app length]. now rewrite IH.
  - eapply Forall_impl; [| exact H].
    intros r (n & e & _ & He & _ & Hr). now exists e.
  - eapply Forall_impl; [| exact H].
    intros r (n & e & Hn & _ & Hr & _). now exists n.
Qed.

Lemma smooth_length df : length (_smooth_time_series df) = length df.
Proof.
  destruct (smooth_columns df) as (H & _).
  now rewrite <- (length_map date), H, length_map.
Qed.

Lemma DataFrame_complete ts :
  Forall complete ts -> Forall complete_row (DataFrame ts).
Proof.
  intros H. unfold DataFrame, reset_index.
  apply Forall_forall. intros r Hr.
  apply in_map_iff in Hr as ([k o] & <- & Hko).
  apply in_combine_r in Hko.
  apply (Permutation_in _ (sort_values_perm ts)) in Hko.
  rewrite Forall_forall in H. exact (H o Hko).
Qed.

Lemma preprocess_complete ts :
  Forall complete ts -> length (preprocess ts) = length ts.
Proof.
  intros H. unfold preprocess.
  rewrite smooth_length, clean_complete by now apply DataFrame_complete.
  apply DataFrame_length.
Qed.

(** X22.  When every observation has both indices present and within
    [-1, 1], pre-processing drops no row, the labels of the frame are
    consecutive, and the threshold detector does not raise: each of its
    candidates is made of a maximal run of at least three samples above
    both thresholds, with the row of the largest smoothed NDVI of the run
    as its peak. *)
Theorem complete_series_threshold_peaks (time_series : list observation) :
  Forall complete time_series ->
  let df := preprocess time_series in
  length df = length time_series /\
  Threshold.contiguous df /\
  exists blooms,
    Threshold.threshold_body df = Some blooms /\
    Threshold._detect_threshold_blooms df = blooms /\
    Forall (Threshold.candidate_of_run df) blooms.
Proof.
  intros H. cbv zeta.
  pose proof (preprocess_complete time_series H) as Hlen.
  pose proof (full_frame_contiguous time_series Hlen) as Hc.
  split; [exact Hlen |]. split; [exact Hc |].
  destruct (ThresholdFacts.threshold_loop_contiguous _ Hc
              (Threshold._find_continuous_periods
                 (Threshold.bloom_mask (preprocess time_series))) []
              (ThresholdFacts.periods_are_runs _) (Forall_nil _))
    as (out & E & Hout).
  exists out. unfold Threshold._detect_threshold_blooms,
    Threshold.threshold_body.
  rewrite E. repeat split. exact Hout.
Qed.

End CleanFacts.

(** ** The smoothing window *)

Module WindowFacts.
Import Frame FrameFacts.
Import Preprocess.

(** X24.  The frame is smoothed from 12 rows on, and left as it is below;
    when it is smoothed the window is odd, between 5 and 11, longer than
    the polynomial order 3 and no longer than the frame, as
    [savgol_filter] requires; from 33 rows on the window is 11. *)
Theorem smoothing_window_is_admissible (df : list clean) :
  let n := len df in
  let w := window_length_of n in
  (n < 12 ->
   w < 5 /\
   _smooth_time_series df = with_smooth df (map clean_ndvi df)
                              (map clean_evi df)) /\
  (12 <= n ->
   5 <= w <= 11 /\ w mod 2 = 1 /\ 3 < w <= n /\
   _smooth_time_series df =
   with_smooth df (savgol_filter (map clean_ndvi df) w)
     (savgol_filter (map clean_evi df) w)) /\
  (33 <= n -> w = 11).
Proof.
  cbv zeta. pose proof (len_nonneg df) as Hn.
  unfold _smooth_time_series, window_length_of.
  set (n := len df) in *.
  destruct (Z.eqb_spec (Z.min 11 (n / 3) mod 2) 0) as [Heven | Hodd].
  - split; [| split].
    + intros Hlt.
      destruct (Z.leb_spec 5 (Z.min 11 (n / 3) + 1));
        [exfalso; Z.div_mod_to_equations; lia |].
      split; [lia | reflexivity].
    + intros Hge.
      destruct (Z.leb_spec 5 (Z.min 11 (n / 3) + 1));
        [| exfalso; Z.div_mod_to_equations; lia].
      split; [Z.div_mod_to_equations; lia |].
      split; [Z.div_mod_to_equations; lia |].
      split; [Z.div_mod_to_equations; lia | reflexivity].
    + intros Hge. exfalso. Z.div_mod_to_equations. lia.
  - split; [| split].
    + intros Hlt.
      destruct (Z.leb_spec 5 (Z.min 11 (n / 3)));
        [exfalso; Z.div_mod_to_equations; lia |].
      split; [lia | reflexivity].
    + intros Hge.
      destruct (Z.leb_spec 5 (Z.min 11 (n / 3)));
        [| exfalso; Z.div_mod_to_equations; lia].
      split; [Z.div_mod_to_equations; lia |].
      split; [Z.div_mod_to_equations; lia |].
      split; [Z.div_mod_to_equations; lia | reflexivity].
    + intros Hge. Z.div_mod_to_equations. lia.
Qed.

End WindowFacts.

(** ** The forecast and the clock *)

Module ForecastWindowFacts.
Import Frame FrameFacts.
Import Forecast.

Lemma plus_days_toordinal d n :
  Date.calendar d -> 0 <= n ->
  Date.toordinal (Date.plus_days d n) = Date.toordinal d + n.
Proof.
  intros Hd Hn. unfold Date.plus_days.
  destruct (Z.ltb_spec n 0); [lia |].
  destruct (CalendarFacts.add_days_spec (Z.to_nat n) d Hd) as (_ & ->). lia.
Qed.

Section Noise.

Variable generator : Type.
Variable normal : Q -> Q -> generator -> Q * generator.
Variable in_bounds : Date.date -> Z -> bool.
Variable round2 : Q -> Q.
Variable holds : Date.date -> bool.
Variable object_frame_forecast :
  list raw -> Z -> generator ->
  option (list predicted_bloom * Q * option seasonal_patterns
          * list forecast_point) * generator.

(** X25.  For a history of at least 50 observations with valid dates that
    [pd.to_datetime] holds and a number in each of the columns [ndvi] and
    [evi], at least one forecast day, and a clock from which
    [forecast_days] days can be counted within the years of [datetime],
    the forecast is returned and the clock is not changed; the period it
    reports runs from the day after the clock's date, for [forecast_days]
    days, while the forecast data have indices in [0, 1] and follow the
    history: none when [pd.date_range] raises, and otherwise one point a
    day from the day after the latest date of the cleaned history. *)
Theorem forecast_window_follows_the_clock (time_series : list observation)
    (forecast_days : Z) (w : world generator) :
  to_datetime holds time_series = Some tt ->
  Forall (fun o => Date.valid (obs_date o)) time_series ->
  Preprocess.float64 (map raw_ndvi (DataFrame time_series)) = true ->
  Preprocess.float64 (map raw_evi (DataFrame time_series)) = true ->
  50 <= len time_series -> 1 <= forecast_days ->
  Date.valid (today generator w) ->
  Date.valid (Date.plus_days (today generator w) forecast_days) ->
  let r :=
    forecast_bloom_events generator normal in_bounds round2 holds
      object_frame_forecast time_series forecast_days w in
  exists f,
    fst r = Some f /\
    today generator (snd r) = today generator w /\
    forecast_period_days f = forecast_days /\
    Date.toordinal (forecast_start_date f)
    = Date.toordinal (today generator w) + 1 /\
    Date.toordinal (forecast_end_date f)
    = Date.toordinal (today generator w) + forecast_days /\
    Forall unit_point (forecast_data f) /\
    forall first others,
      Preprocess.preprocess time_series = first :: others ->
      (in_bounds (last_date first others) forecast_days = false ->
       forecast_data f = []) /\
      (in_bounds (last_date first others) forecast_days = true ->
       len (forecast_data f) = forecast_days /\
       exists p,
         nth_error (forecast_data f) 0 = Some p /\
         Date.toordinal (point_date p)
         = Date.toordinal (last_date first others) + 1).
Proof.
  intros Hheld Hdates Fn Fe Hlen Hdays Htoday _. cbv zeta.
  unfold forecast_bloom_events.
  destruct (Z.ltb_spec (len time_series) 50); [lia |].
  rewrite Hheld.
  destruct (PreprocessFacts.clean_ran (DataFrame time_series) Fn Fe)
    as (_ & Hp).
  rewrite (DetectFacts.forallb_present _ Hp).
  set (df := Preprocess.preprocess time_series).
  assert (Hvalid : Forall (fun r => Date.valid (date r)) df).
  { apply Forall_forall. intros r Hr.
    apply DetectFacts.preprocess_dates, in_map_iff in Hr
      as (o & <- & Ho).
    rewrite Forall_forall in Hdates. now apply Hdates. }
  assert (Hspec :
    let points :=
      fst (_generate_forecast generator normal in_bounds df forecast_days
             (_extract_seasonal_patterns df) (random_state generator w)) in
    Forall unit_point points /\
    forall first others,
      df = first :: others ->
      (in_bounds (last_date first others) forecast_days = false ->
       points = []) /\
      (in_bounds (last_date first others) forecast_days = true ->
       len points = forecast_days /\
       exists p,
         nth_error points 0 = Some p /\
         Date.toordinal (point_date p)
         = Date.toordinal (last_date first others) + 1)).
  { cbv zeta. destruct df as [| first others] eqn:Edf.
    - split; [constructor | discriminate].
    - split.
      + destruct (in_bounds (last_date first others) forecast_days) eqn:Hb.
        * now destruct (GenerateFacts.generated_points generator normal
                          in_bounds first others forecast_days
                          (_extract_seasonal_patterns (first :: others))
                          (random_state generator w) Hb) as (_ & Hu & _).
        * rewrite GenerateFacts.not_generated by exact Hb. constructor.
      + intros first' others' [= <- <-]. split.
        * intros Hb. now rewrite GenerateFacts.not_generated by exact Hb.
        * intros Hb.
          destruct (GenerateFacts.generated_points generator normal
                      in_bounds first others forecast_days
                      (_extract_seasonal_patterns (first :: others))
                      (random_state generator w) Hb) as (Hl & _ & Hd).
          cbv zeta in Hl, Hd.
          split; [rewrite Hl; lia |].
          destruct (fst (_generate_forecast generator normal in_bounds
                           _ _ _ _)) as [| p points];
            [unfold len in Hl; cbn in Hl; lia |].
          exists p. split; [reflexivity |].
          rewrite (Hd 0%nat p eq_refl). cbn [Date.add_days].
          apply CalendarFacts.next_day_toordinal,
            CalendarFacts.valid_calendar.
          destruct (GenerateFacts.last_date_spec others first) as (Hin & _).
          apply in_map_iff in Hin as (r & <- & Hr).
          rewrite Forall_forall in Hvalid. now apply Hvalid. }
  cbv zeta in Hspec.
  destruct (_generate_forecast generator normal in_bounds df forecast_days
              (_extract_seasonal_patterns df) (random_state generator w))
    as [points g].
  cbn [fst snd] in *. destruct Hspec as (Hunit & Hfirst).
  eexists. split; [reflexivity |].
  cbn [today forecast_period_days forecast_start_date forecast_end_date
       forecast_data].
  apply CalendarFacts.valid_calendar in Htoday.
  split; [reflexivity |]. split; [reflexivity |].
  split; [apply plus_days_toordinal; [exact Htoday | lia] |].
  split; [apply plus_days_toordinal; [exact Htoday | lia] |].
  split; [exact Hunit | exact Hfirst].
Qed.

End Noise.

End ForecastWindowFacts.

(** ** The properties at concrete inputs *)

Module Witnesses.
Import Frame.

Lemma bloom_stage_follows_the_calendar_witness :
  Bloom.well_formed Bloom.long_first /\
  Events._determine_bloom_stage Bloom.long_first (Date.mkDate 2024 2 15)
  = Events.peak_bloom.
Proof.
  split; [MergeFacts.well_formed_list |].
  destruct (EventsFacts.bloom_stage_follows_the_calendar Bloom.long_first
              (Date.mkDate 2024 2 15) (Date.mkDate 2024 3 1))
    as (_ & _ & H & _).
  - MergeFacts.well_formed_list.
  - vm_compute. discriminate.
  - vm_compute. discriminate.
  - apply H. reflexivity.
Defined.

Lemma bloom_window_stops_at_half_peak_witness :
  0 <= 0 <= 1 /\ 1 <= 2 < len ChangePoint.high_constant /\
  exists s e,
    Peak._find_bloom_start ChangePoint.high_constant 1 0 = Some s /\
    Peak._find_bloom_end ChangePoint.high_constant 1 2 = Some e /\
    0 <= s <= 1 /\ 1 <= e <= 2.
Proof.
  split; [lia |]. split; [vm_compute; split; [discriminate | reflexivity] |].
  destruct (PeakShapeFacts.bloom_window_stops_at_half_peak
              ChangePoint.high_constant 1 0 2)
    as (rp & s & e & _ & Es & Ee & Hs & He & _).
  - lia.
  - vm_compute. split; [discriminate | reflexivity].
  - exists s, e. repeat split; solve [assumption | lia].
Defined.

Lemma merged_event_spans_its_group_witness :
  Forall Bloom.well_formed Bloom.two_long_candidates /\
  exists groups, Bloom.merge_groups Bloom.two_long_candidates = Some groups.
Proof.
  split; [MergeFacts.well_formed_list |].
  destruct (MergeSpanFacts.merged_event_spans_its_group
              Bloom.two_long_candidates) as (groups & E & _).
  - MergeFacts.well_formed_list.
  - exists groups. exact E.
Defined.

Lemma merge_is_idempotent_witness :
  Forall Bloom.well_formed Bloom.two_long_candidates /\
  Bloom._merge_bloom_events
    (Bloom._merge_bloom_events Bloom.two_long_candidates)
  = Bloom._merge_bloom_events Bloom.two_long_candidates.
Proof.
  split; [MergeFacts.well_formed_list |].
  apply (MergeSpanFacts.merge_is_idempotent Bloom.two_long_candidates).
  MergeFacts.well_formed_list.
Defined.

Lemma threshold_candidates_on_contiguous_frame_witness :
  Threshold.contiguous ChangePoint.high_constant /\
  exists blooms,
    Threshold.threshold_body ChangePoint.high_constant = Some blooms.
Proof.
  assert (H : Threshold.contiguous ChangePoint.high_constant).
  { apply PreprocessFacts.full_frame_contiguous. reflexivity. }
  split; [exact H |].
  destruct (ThresholdFacts.threshold_candidates_on_contiguous_frame
              ChangePoint.high_constant H) as (blooms & E & _).
  exists blooms. exact E.
Defined.

Lemma predicted_blooms_lie_in_the_forecast_witness :
  Forall (fun r => Date.valid (date r)) ChangePoint.high_constant /\
  Forall (Forecast.within_forecast ChangePoint.high_constant 30)
    (Forecast._detect_forecast_blooms
       (fst (Forecast._generate_forecast Z Forecast.lcg_normal
               nanoseconds_range ChangePoint.high_constant 30
               (Forecast._extract_seasonal_patterns
                  ChangePoint.high_constant) 42))).
Proof.
  assert (H : Forall (fun r => Date.valid (date r))
                ChangePoint.high_constant)
    by (vm_compute; repeat constructor).
  split; [exact H |].
  apply (ForecastBloomFacts.predicted_blooms_lie_in_the_forecast Z
           Forecast.lcg_normal nanoseconds_range ChangePoint.high_constant
           30 _ 42 H).
Defined.

Lemma cleaning_keeps_valid_rows_witness :
  let r := mkRaw 0 (Date.mkDate 2024 1 1) (Some (5 # 10)) (Some (4 # 10)) in
  In r (DataFrame Preprocess.repeated_day) /\
  In r (Preprocess._clean_time_series (DataFrame Preprocess.repeated_day)) /\
  In (Preprocess.as_clean r (5 # 10) (4 # 10))
    (Preprocess.numbers
       (Preprocess._clean_time_series (DataFrame Preprocess.repeated_day))).
Proof.
  cbv zeta. split; [vm_compute; left; reflexivity |].
  apply CleanFacts.cleaning_keeps_valid_rows.
  - vm_compute. left. reflexivity.
  - reflexivity.
  - reflexivity.
  - vm_compute. split; discriminate.
  - vm_compute. split; discriminate.
Defined.

Lemma complete_series_threshold_peaks_witness :
  Forall Preprocess.complete Preprocess.repeated_day /\
  length (Preprocess.preprocess Preprocess.repeated_day)
  = length Preprocess.repeated_day.
Proof.
  assert (H : Forall Preprocess.complete Preprocess.repeated_day).
  { unfold Preprocess.repeated_day.
    repeat (apply Forall_cons;
            [do 2 eexists;
             split; [reflexivity |];
             split; [reflexivity |];
             split; vm_compute; split; discriminate |]).
    apply Forall_nil. }
  split; [exact H |].
  destruct (CleanFacts.complete_series_threshold_peaks
              Preprocess.repeated_day H) as (Hlen & _).
  exact Hlen.
Defined.

Lemma forecast_window_follows_the_clock_witness :
  let w := Forecast.mkWorld Z 42 (Date.mkDate 2024 3 1) in
  to_datetime nanoseconds Forecast.history = Some tt /\
  50 <= len Forecast.history /\
  exists f,
    fst (Forecast.forecast_bloom_events Z Forecast.lcg_normal
           nanoseconds_range (fun x => x) nanoseconds
           Forecast.no_object_frame Forecast.history 30 w) = Some f /\
    Forecast.forecast_period_days f = 30 /\
    Date.toordinal (Forecast.forecast_end_date f)
    = Date.toordinal (Date.mkDate 2024 3 31) /\
    len (Forecast.forecast_data f) = 30.
Proof.
  cbv zeta.
  assert (H1 : to_datetime nanoseconds Forecast.history = Some tt)
    by (vm_compute; reflexivity).
  assert (H2 : 50 <= len Forecast.history)
    by (vm_compute; discriminate).
  split; [exact H1 |]. split; [exact H2 |].
  destruct (ForecastWindowFacts.forecast_window_follows_the_clock Z
              Forecast.lcg_normal nanoseconds_range (fun x => x)
              nanoseconds Forecast.no_object_frame Forecast.history 30
              (Forecast.mkWorld Z 42 (Date.mkDate 2024 3 1)) H1)
    as (f & E & _ & Hp & _ & He & _ & Hdata).
  - vm_compute. repeat constructor.
  - vm_compute. reflexivity.
  - vm_compute. reflexivity.
  - exact H2.
  - lia.
  - reflexivity.
  - reflexivity.
  - exists f. split; [exact E |]. split; [exact Hp |].
    split; [exact He |].
    destruct (Preprocess.preprocess Forecast.history)
      as [| first others] eqn:Edf; [vm_compute in Edf; discriminate |].
    destruct (Hdata first others eq_refl) as (_ & Hgen).
    apply Hgen.
    assert (Elast : Forecast.last_date first others
                    = Date.mkDate 2024 2 24).
    { change (Forecast.last_date first others)
        with (match first :: others with
              | [] => Date.mkDate 2024 2 24
              | f0 :: o0 => Forecast.last_date f0 o0
              end).
      rewrite <- Edf. vm_compute. reflexivity. }
    rewrite Elast. reflexivity.
Defined.

Lemma detected_events_are_sound_witness :
  let out :=
    Events.detect_bloom_events Stats.sqrt_up (fun _ _ _ => true)
      (fun _ _ _ => true) nanoseconds (fun _ _ _ _ => [])
      Preprocess.plateau (-13 # 10) (368 # 10) (Date.mkDate 2024 6 1) in
  Forall (fun o => Events.dated (obs_date o)) Preprocess.plateau /\
  out <> [] /\
  Forall (Events.reported Preprocess.plateau (-13 # 10) (368 # 10)
            (Date.mkDate 2024 6 1)) out.
Proof.
  cbv zeta.
  assert (H : Forall (fun o => Events.dated (obs_date o))
                Preprocess.plateau).
  { vm_compute. repeat constructor; discriminate. }
  split; [exact H |]. split; [vm_compute; discriminate |].
  apply (DetectFacts.detected_events_are_sound Stats.sqrt_up
           (fun _ _ _ => true) (fun _ _ _ => true) nanoseconds
           (fun _ _ _ _ => []) Preprocess.plateau (-13 # 10) (368 # 10)
           (Date.mkDate 2024 6 1) H); reflexivity.
Defined.

End Witnesses.
